(** * Qualitative-coding replication: reconciliation engine and renderer

    A shallow embedding of [paper_replicate.py] (name canonicaliser,
    identifier normaliser, column coercer, reshaper, expander, merge
    planner, scoring engine, oracle-response parser) and of
    [table_convert.py] ([pretty_format]), with the properties of the
    specification stated over it.

    Conventions of the embedding.
    - A Python [str] is a [string]; each character is a code point below
      256 (the [ascii] type read as Latin-1).  Whitespace, lower-casing,
      [\d] and [\w] are the Python 3 (Unicode-aware) notions restricted
      to these code points.
    - A raised exception is the left injection of a sum; the value
      returned is the right injection.
    - Warnings are collected in a list, in program order.
    - A float64 is its exact rational value, or an infinity, or NaN.
      Conversions, and the products and quotients of the renderer, are
      rounded to the nearest double ([round64]); the shares and the
      kappa of the scoring engine are the exact rationals, which the
      doubles of the library approximate to the last bits.
    - A conversion of a float to int64 outside the range of int64 gives
      the smallest int64, as numpy does on x86-64. *)

From Stdlib Require Import String Ascii List ZArith QArith Qabs Qround Bool Lia.
From Stdlib Require Import DecimalString.
Import ListNotations.

Local Open Scope string_scope.
Local Open Scope Z_scope.

(** ** Python characters and strings *)

Module Py.

Definition code (c : ascii) : N := N_of_ascii c.

Definition between (lo hi : N) (c : ascii) : bool :=
  ((lo <=? code c) && (code c <=? hi))%N.

(** [str.isspace] / [\s] for code points below 256:
    TAB..CR, FS..US, SPACE, NEL (0x85) and NBSP (0xA0). *)
Definition is_space (c : ascii) : bool :=
  between 9 13 c || between 28 32 c || (code c =? 133)%N || (code c =? 160)%N.

(** [\d]: the decimal digits below 256 are the ASCII ones. *)
Definition is_digit (c : ascii) : bool := between 48 57 c.

Definition is_lower_az (c : ascii) : bool := between 97 122 c.
Definition is_upper_az (c : ascii) : bool := between 65 90 c.

(** Upper-case letters of Latin-1: A-Z and 0xC0..0xDE without the
    multiplication sign 0xD7.  Each lowers to the code point 32 above. *)
Definition is_upper (c : ascii) : bool :=
  is_upper_az c || (between 192 222 c && negb (code c =? 215)%N).

Definition lower_char (c : ascii) : ascii :=
  if is_upper c then ascii_of_N (code c + 32) else c.

(** [\w]: alphanumeric (in the sense of [str.isalnum]) or underscore. *)
Definition is_word (c : ascii) : bool :=
  is_digit c || is_lower_az c || is_upper_az c || (code c =? 95)%N
  || (code c =? 170)%N || (code c =? 181)%N || (code c =? 186)%N
  || between 178 179 c || (code c =? 185)%N || between 188 190 c
  || (between 192 255 c && negb (code c =? 215)%N && negb (code c =? 247)%N).

Fixpoint lower (s : string) : string :=
  match s with
  | EmptyString => EmptyString
  | String c s' => String (lower_char c) (lower s')
  end.

Fixpoint lstrip (s : string) : string :=
  match s with
  | EmptyString => EmptyString
  | String c s' => if is_space c then lstrip s' else s
  end.

(** [rstrip] keeps a character when it is not whitespace or when some
    non-whitespace character follows it. *)
Fixpoint rstrip (s : string) : string :=
  match s with
  | EmptyString => EmptyString
  | String c s' =>
      match rstrip s' with
      | EmptyString => if is_space c then EmptyString else String c EmptyString
      | r => String c r
      end
  end.

Definition strip (s : string) : string := rstrip (lstrip s).

(** [s.replace(c, by)] for a one-character pattern. *)
Fixpoint replace_char (c : ascii) (by_ : string) (s : string) : string :=
  match s with
  | EmptyString => EmptyString
  | String a s' =>
      if Ascii.eqb a c then by_ ++ replace_char c by_ s'
      else String a (replace_char c by_ s')
  end.

(** [re.sub(r"\s+", " ", s)]: every maximal run of whitespace becomes one
    space.  [in_run] tells that the previous character was whitespace. *)
Fixpoint collapse_ws_from (in_run : bool) (s : string) : string :=
  match s with
  | EmptyString => EmptyString
  | String a s' =>
      if is_space a
      then if in_run then collapse_ws_from true s'
           else String " "%char (collapse_ws_from true s')
      else String a (collapse_ws_from false s')
  end.

Definition collapse_ws (s : string) : string := collapse_ws_from false s.

Fixpoint filter_chars (keep : ascii -> bool) (s : string) : string :=
  match s with
  | EmptyString => EmptyString
  | String a s' =>
      if keep a then String a (filter_chars keep s') else filter_chars keep s'
  end.

(** The class [[a-z0-9 ]]. *)
Definition is_az09_space (c : ascii) : bool :=
  is_lower_az c || is_digit c || (code c =? 32)%N.

Fixpoint existsb_char (p : ascii -> bool) (s : string) : bool :=
  match s with
  | EmptyString => false
  | String a s' => p a || existsb_char p s'
  end.

End Py.

(** ** Name canonicaliser ([canonical], paper_replicate.py 50-62) *)

(** The argument is a [str] or [None]. *)
Definition canonical (s : option string) : string :=
  match s with
  | None => EmptyString
  | Some s =>
      let s := Py.lower (Py.strip s) in
      let s := Py.replace_char "&"%char " and " s in
      let s := Py.replace_char "-"%char " " s in
      let s := Py.collapse_ws s in
      let s := Py.filter_chars Py.is_az09_space s in
      Py.strip s
  end.

(** ** Exceptions *)

(** An exception raised by the program or by a library call. *)
Inductive exn : Type :=
| KeyError (key : string)
| IndexError
| ValueError
| TypeError
| OverflowError.

Definition pyresult (A : Type) : Type := (exn + A)%type.

Definition ok {A : Type} (x : A) : pyresult A := inr x.
Definition raise {A : Type} (e : exn) : pyresult A := inl e.

Definition bind {A B : Type} (m : pyresult A) (k : A -> pyresult B) : pyresult B :=
  match m with
  | inl e => inl e
  | inr x => k x
  end.

Notation "x <- m ;; k" := (bind m (fun x => k))
  (at level 61, m at next level, right associativity).

(** ** Float64 values and Python's [float(...)] *)

Module Float.

(** A finite number by its exact value, an infinity, or NaN.  The sign of
    zero is not kept.  Parsed and converted numbers are doubles
    ([round64]); the metrics of the scoring engine are kept as the exact
    rationals that the program's doubles round. *)
Inductive float64 : Type :=
| F64 (q : Q)
| F64inf (negative : bool)
| F64nan.

Definition Qltb (a b : Q) : bool := negb (Qle_bool b a).

(** Round a rational to the nearest integer, ties to even
    (Python's [round(f)] on a finite float). *)
Definition round_half_even (q : Q) : Z :=
  let n := Qnum q in
  let d := Zpos (Qden q) in
  let fl := n / d in
  let r := n mod d in
  match 2 * r ?= d with
  | Lt => fl
  | Gt => fl + 1
  | Eq => if Z.even fl then fl else fl + 1
  end.

Definition pow2 (k : Z) : Q :=
  if 0 <=? k then inject_Z (2 ^ k) else 1 # Z.to_pos (2 ^ (- k)).

Definition pow10 (k : Z) : Q :=
  if 0 <=? k then inject_Z (10 ^ k) else 1 # Z.to_pos (10 ^ (- k)).

(** Correctly rounded conversion of a rational to binary64:
    53-bit significand, least exponent -1022 (subnormals below it),
    ties to even, overflow to infinity. *)
Definition round64 (q : Q) : float64 :=
  if Qnum q =? 0 then F64 0
  else
    let neg := Qnum q <? 0 in
    let a := Qabs q in
    let e0 := Z.log2 (Qnum a) - Z.log2 (Zpos (Qden a)) in
    let e := if Qltb a (pow2 e0) then e0 - 1 else e0 in
    let p := Z.max e (-1022) - 52 in
    let m := round_half_even (a / pow2 p)%Q in
    let v := Qred (inject_Z m * pow2 p)%Q in
    if Qle_bool (pow2 1024) v then F64inf neg
    else F64 (if neg then Qopp v else v).

Definition digit_val (c : ascii) : Z := Z.of_N (Py.code c) - 48.

(** [digit (["_"] digit)*] after its first digit: the value so far, the
    number of digits so far, and what is left of the text. *)
Fixpoint digitpart_rest (s : string) (acc n : Z) : Z * Z * string :=
  match s with
  | EmptyString => (acc, n, s)
  | String c s' =>
      if Py.is_digit c then digitpart_rest s' (10 * acc + digit_val c) (n + 1)
      else if Ascii.eqb c "_"%char then
        match s' with
        | EmptyString => (acc, n, s)
        | String c2 s'' =>
            if Py.is_digit c2
            then digitpart_rest s'' (10 * acc + digit_val c2) (n + 1)
            else (acc, n, s)
        end
      else (acc, n, s)
  end.

Definition digitpart (s : string) : option (Z * Z * string) :=
  match s with
  | EmptyString => None
  | String c s' =>
      if Py.is_digit c then Some (digitpart_rest s' (digit_val c) 1) else None
  end.

(** [number ::= [digitpart] "." digitpart | digitpart ["."]]: the digits
    read as one integer, the count of fraction digits, the rest. *)
Definition number (s : string) : option (Z * Z * string) :=
  match digitpart s with
  | Some (i, _, r) =>
      match r with
      | String "."%char r' =>
          match digitpart r' with
          | Some (f, nf, r'') => Some (i * 10 ^ nf + f, nf, r'')
          | None => Some (i, 0, r')
          end
      | _ => Some (i, 0, r)
      end
  | None =>
      match s with
      | String "."%char r' => digitpart r'
      | _ => None
      end
  end.

(** [exponent ::= ("e" | "E") [sign] digitpart] *)
Definition exponent (s : string) : option (Z * string) :=
  match s with
  | String c r =>
      if Ascii.eqb c "e"%char || Ascii.eqb c "E"%char then
        let '(sg, r1) :=
          match r with
          | String "+"%char r1 => (1, r1)
          | String "-"%char r1 => (-1, r1)
          | _ => (1, r)
          end in
        match digitpart r1 with
        | Some (e, _, r2) => Some (sg * e, r2)
        | None => None
        end
      else None
  | EmptyString => None
  end.

(** [floatnumber ::= number [exponent]], the whole text consumed: the
    decimal value. *)
Definition floatnumber (s : string) : option Q :=
  match number s with
  | Some (m, nf, r) =>
      match r with
      | EmptyString => Some (inject_Z m * pow10 (- nf))%Q
      | _ =>
          match exponent r with
          | Some (e, EmptyString) => Some (inject_Z m * pow10 (e - nf))%Q
          | _ => None
          end
      end
  | None => None
  end.

(** The whitespace that [float(s)] and [int(s)] drop around a number:
    TAB..CR and SPACE, and the spaces above 127 (NEL, NBSP), which the
    conversion first turns into spaces.  FS..US (0x1C..0x1F) are
    whitespace for [str.strip] but not here. *)
Definition is_number_space (c : ascii) : bool :=
  Py.between 9 13 c || (Py.code c =? 32)%N || (Py.code c =? 133)%N
  || (Py.code c =? 160)%N.

Fixpoint lstrip_number (s : string) : string :=
  match s with
  | EmptyString => EmptyString
  | String c s' => if is_number_space c then lstrip_number s' else s
  end.

Fixpoint rstrip_number (s : string) : string :=
  match s with
  | EmptyString => EmptyString
  | String c s' =>
      match rstrip_number s' with
      | EmptyString => if is_number_space c then EmptyString else String c EmptyString
      | r => String c r
      end
  end.

Definition strip_number (s : string) : string := rstrip_number (lstrip_number s).

(** [float(s)] for a string: surrounding whitespace dropped, optional
    sign, then [inf], [infinity] or [nan] in any case, or a decimal
    number; [None] stands for the [ValueError]. *)
Definition float_of_str (s : string) : option float64 :=
  let s := strip_number s in
  let '(neg, body) :=
    match s with
    | String "+"%char r => (false, r)
    | String "-"%char r => (true, r)
    | _ => (false, s)
    end in
  let l := Py.lower body in
  if String.eqb l "inf" || String.eqb l "infinity" then Some (F64inf neg)
  else if String.eqb l "nan" then Some F64nan
  else
    match floatnumber body with
    | Some q => Some (round64 (if neg then Qopp q else q))
    | None => None
    end.

End Float.
Import Float.

(** ** Cell values *)

(** What a table cell or a scalar argument holds: Python [None], an
    integer, a float (NaN included) or a [str]. *)
Inductive value : Type :=
| VNone
| VInt (z : Z)
| VFloat (f : float64)
| VStr (s : string).

(** [pd.isna] on a scalar. *)
Definition isna (v : value) : bool :=
  match v with
  | VNone => true
  | VFloat F64nan => true
  | _ => false
  end.

(** [str(z)] for an integer. *)
Definition str_of_Z (z : Z) : string :=
  DecimalString.NilZero.string_of_int (Z.to_int z).

(** ** Tables *)

Inductive dtype : Type :=
| dt_object
| dt_int64
| dt_float64
| dt_bool
| dt_datetime64.

Definition dtype_is_object (d : dtype) : bool :=
  match d with dt_object => true | _ => false end.

(** [np.issubdtype(d, np.number)] *)
Definition dtype_is_number (d : dtype) : bool :=
  match d with dt_int64 | dt_float64 => true | _ => false end.

Record Column : Type := mkColumn { cname : string; cdtype : dtype }.

(** A DataFrame: its column headers in order, and its rows, each row
    holding one cell per column. *)
Record DataFrame : Type := mkDF { columns : list Column; rows : list (list value) }.

Definition names (df : DataFrame) : list string := map cname (columns df).

Definition in_list (c : string) (l : list string) : bool := existsb (String.eqb c) l.

Definition has_column (c : string) (df : DataFrame) : bool := in_list c (names df).

Fixpoint index_of (c : string) (l : list string) : option nat :=
  match l with
  | [] => None
  | x :: l' =>
      if String.eqb c x then Some O
      else match index_of c l' with Some i => Some (S i) | None => None end
  end.

Definition cell (i : nat) (row : list value) : value := nth i row VNone.

(** [df[c]]: the cells of a column, [KeyError] when it is absent. *)
Definition column_values (df : DataFrame) (c : string) : pyresult (list value) :=
  match index_of c (names df) with
  | Some i => ok (map (cell i) (rows df))
  | None => raise (KeyError c)
  end.

(** [df[c].dtype] *)
Definition dtype_of (df : DataFrame) (c : string) : pyresult dtype :=
  match index_of c (names df) with
  | Some i => ok (nth i (map cdtype (columns df)) dt_object)
  | None => raise (KeyError c)
  end.

(** [df.rename(columns={old: new})]; a name that is absent is ignored. *)
Definition rename (df : DataFrame) (old new : string) : DataFrame :=
  mkDF (map (fun c => if String.eqb (cname c) old then mkColumn new (cdtype c) else c)
            (columns df))
       (rows df).

(** [df.columns = new_names] *)
Definition set_names (df : DataFrame) (new_names : list string) : DataFrame :=
  mkDF (map (fun '(c, n) => mkColumn n (cdtype c)) (combine (columns df) new_names))
       (rows df).

Fixpoint replace_nth {A : Type} (i : nat) (x : A) (l : list A) : list A :=
  match l, i with
  | [], _ => []
  | _ :: l', O => x :: l'
  | a :: l', S i' => a :: replace_nth i' x l'
  end.

(** [df[c] = vals]: overwrite the column when it exists, append it
    otherwise. *)
Definition set_column (df : DataFrame) (c : string) (d : dtype) (vals : list value)
  : DataFrame :=
  match index_of c (names df) with
  | Some i =>
      mkDF (replace_nth i (mkColumn c d) (columns df))
           (map (fun '(r, v) => replace_nth i v r) (combine (rows df) vals))
  | None =>
      mkDF (columns df ++ [mkColumn c d])%list
           (map (fun '(r, v) => (r ++ [v])%list) (combine (rows df) vals))
  end.

(** Evaluate a list comprehension [[c for c in l if test(c)]] whose test
    may raise: left to right, stopping at the first exception. *)
Fixpoint filter_m {A : Type} (test : A -> pyresult bool) (l : list A) : pyresult (list A) :=
  match l with
  | [] => ok []
  | x :: l' =>
      b <- test x ;;
      r <- filter_m test l' ;;
      ok (if b then x :: r else r)
  end.

(** [l[0]] and [l[-1]] *)
Definition first_item {A : Type} (l : list A) : pyresult A :=
  match l with
  | [] => raise IndexError
  | x :: _ => ok x
  end.

Definition last_item {A : Type} (l : list A) : pyresult A :=
  match rev l with
  | [] => raise IndexError
  | x :: _ => ok x
  end.

(** Truthiness of an optional string argument ([None] and the empty
    string are false). *)
Definition truthy (s : option string) : bool :=
  match s with
  | None => false
  | Some s => negb (String.eqb s EmptyString)
  end.

Definition opt_in_columns (s : option string) (df : DataFrame) : bool :=
  match s with
  | None => false
  | Some c => has_column c df
  end.

(** [a > b] on floats: false as soon as one side is NaN. *)
Definition float_gtb (a b : float64) : bool :=
  match a, b with
  | F64nan, _ | _, F64nan => false
  | F64 x, F64 y => Qltb y x
  | F64inf na, F64inf nb => negb na && nb
  | F64inf na, F64 _ => negb na
  | F64 _, F64inf nb => nb
  end.

(** [max(l, key=key)] on a non-empty list [x :: l]: the first item whose
    key is greatest. *)
Definition py_max_by {A : Type} (key : A -> float64) (x : A) (l : list A) : A :=
  fold_left (fun best c => if float_gtb (key c) (key best) then c else best) l x.

(** Warnings the program emits. *)
Inductive warning : Type :=
| WarnConstructOnlyMerge (id_col : option string)
| WarnLabelsMergedByIdOnly (construct_col : string)
| WarnUnparsedLabel (txt : string).

Section Core.

(** [str(f)] for a float is Python's shortest round-tripping decimal; the
    program only passes it through, so it is left abstract. *)
Variable float_repr : float64 -> string.

(** What [pd.to_numeric] makes of a string cell: its number, or [None]
    when the text is not numeric. *)
Variable to_numeric_str : string -> option float64.

(** [difflib.get_close_matches(word, possibilities, n, cutoff)] *)
Variable get_close_matches : string -> list string -> nat -> Q -> list string.

Definition py_str (v : value) : string :=
  match v with
  | VNone => "None"
  | VInt z => str_of_Z z
  | VFloat f => float_repr f
  | VStr s => s
  end.

(** [float(v)]. *)
Definition py_float (v : value) : pyresult float64 :=
  match v with
  | VNone => raise TypeError
  | VInt z =>
      match round64 (inject_Z z) with
      | F64inf _ => raise OverflowError
      | f => ok f
      end
  | VFloat f => ok f
  | VStr s =>
      match float_of_str s with
      | Some f => ok f
      | None => raise ValueError
      end
  end.

(** ** Identifier normaliser ([_normalize_id_value], paper_replicate.py 83-109) *)

Definition ID_INT_TOL : Q :=
  match round64 (1 # 1000000000) with
  | F64 q => q
  | _ => 0
  end.

Fixpoint all_chars (p : ascii -> bool) (s : string) : bool :=
  match s with
  | EmptyString => true
  | String a s' => p a && all_chars p s'
  end.

(** The longest prefix of digits and what follows it. *)
Fixpoint span_digits (s : string) : string * string :=
  match s with
  | EmptyString => (EmptyString, EmptyString)
  | String a s' =>
      if Py.is_digit a
      then let '(d, r) := span_digits s' in (String a d, r)
      else (EmptyString, s)
  end.

Definition is_zero_char (c : ascii) : bool := Ascii.eqb c "0"%char.

(** [re.fullmatch(r"(\d+)\.0+", s)]: group 1 on a match. *)
Definition fullmatch_int_dot_zeros (s : string) : option string :=
  match span_digits s with
  | (EmptyString, _) => None
  | (d, String "."%char (String z zs)) =>
      if is_zero_char z && all_chars is_zero_char zs then Some d else None
  | _ => None
  end.

(** [re.fullmatch(r"\d+(\.0+)?", s)] *)
Definition fullmatch_int_opt_zeros (s : string) : bool :=
  match span_digits s with
  | (EmptyString, _) => false
  | (_, EmptyString) => true
  | _ => match fullmatch_int_dot_zeros s with Some _ => true | None => false end
  end.

(** [s.split(".")[0]] *)
Fixpoint split_dot_head (s : string) : string :=
  match s with
  | EmptyString => EmptyString
  | String a s' =>
      if Ascii.eqb a "."%char then EmptyString else String a (split_dot_head s')
  end.

(** The result is a [str], or [None] for [np.nan]. *)
Definition _normalize_id_value (v : value) : option string :=
  if isna v then None
  else
    (* the statements after the [try] block *)
    let after_try :=
      let s := Py.strip (py_str v) in
      match fullmatch_int_dot_zeros s with
      | Some g => Some g
      | None => Some s
      end in
    match py_float v with
    | inr (F64 f) =>
        let r := round_half_even f in
        if Qltb (Qabs (f - inject_Z r)) ID_INT_TOL then Some (str_of_Z r)
        else
          let s := Py.strip (py_str v) in
          if fullmatch_int_opt_zeros s then Some (split_dot_head s) else Some s
    | inr _ => after_try
    | inl _ => after_try
    end.

(** [make_id_key]: the normaliser mapped over a column. *)
Definition make_id_key (series : list value) : list (option string) :=
  map _normalize_id_value series.

(** ** Column coercer ([coerce_raw_columns], paper_replicate.py 115-155) *)

(** [s.dropna().astype(str).str.len().mean()] *)
Definition avg_len (s : list value) : float64 :=
  let lens := map (fun v => Z.of_nat (String.length (py_str v)))
                  (filter (fun v => negb (isna v)) s) in
  match lens with
  | [] => F64nan
  | _ => round64 (fold_right Z.add 0 lens # Pos.of_nat (length lens))
  end.

(** A list comprehension or key computation whose body may raise. *)
Fixpoint map_m {A B : Type} (f : A -> pyresult B) (l : list A) : pyresult (list B) :=
  match l with
  | [] => ok []
  | x :: l' =>
      y <- f x ;;
      r <- map_m f l' ;;
      ok (y :: r)
  end.

(** A column name with its key [avg_len(df[c])]. *)
Definition with_avg_len (df : DataFrame) (c : string) : pyresult (string * float64) :=
  s <- column_values df c ;;
  ok (c, avg_len s).

Definition coerce_raw_columns (df : DataFrame) (id_col : option string)
  (text_col construct_col : string) : pyresult DataFrame :=
  let cols := names df in
  let rules :=
    (* Ensure TEXT present *)
    df1 <-
      (if negb (has_column text_col df) then
         obj_cols <- filter_m (fun c => d <- dtype_of df c ;; ok (dtype_is_object d)) cols ;;
         keyed <- map_m (with_avg_len df) obj_cols ;;
         match keyed with
         | c0 :: more =>
             let best := fst (py_max_by snd c0 more) in
             ok (rename df best text_col)
         | [] =>
             l <- last_item cols ;;
             ok (rename df l text_col)
         end
       else ok df) ;;
    (* If construct column is missing but a close name exists, adopt it *)
    let df2 :=
      if negb (has_column construct_col df1) then
        match get_close_matches construct_col cols 1 (8 # 10) with
        | m :: _ => rename df1 m construct_col
        | [] => df1
        end
      else df1 in
    (* Ensure ID if requested *)
    match id_col with
    | Some idc =>
        if truthy id_col && negb (has_column idc df2) then
          num_cols <- filter_m (fun c => d <- dtype_of df2 c ;; ok (dtype_is_number d)) cols ;;
          match num_cols with
          | n0 :: _ => ok (rename df2 n0 idc)
          | [] =>
              f <- first_item cols ;;
              ok (rename df2 f idc)
          end
        else ok df2
    | None => ok df2
    end in
  (* If exactly 2 columns and id provided -> assume [id, text] *)
  match id_col with
  | Some idc =>
      if (length cols =? 2)%nat && negb (in_list text_col cols)
      then ok (set_names df [idc; text_col])
      else rules
  | None => rules
  end.

(** Step 2 of [main] (paper_replicate.py 254-256). *)
Definition main_coerce_raw (raw_df : DataFrame) (id_col : option string)
  (text_col construct_col : string) : pyresult DataFrame :=
  raw_df <- coerce_raw_columns raw_df id_col text_col construct_col ;;
  if negb (has_column text_col raw_df) then raise (KeyError text_col)
  else ok raw_df.

(** ** Reshaper ([melt_coded_wide_to_long], paper_replicate.py 157-188) *)

Fixpoint has_dup (l : list string) : bool :=
  match l with
  | [] => false
  | x :: l' => in_list x l' || has_dup l'
  end.

(** [df.melt(id_vars=[id_var], value_vars=value_vars, var_name=...,
    value_name=...)]: one block of rows per value column, in column
    order, each block in row order.  pandas refuses a [value_name] that
    is already a column; a clash among the three result names leaves no
    usable frame either. *)
Definition pd_melt (df : DataFrame) (id_var : string) (value_vars : list string)
  (var_name value_name : string) : pyresult DataFrame :=
  if in_list value_name (names df) then raise ValueError
  else if has_dup [id_var; var_name; value_name] then raise ValueError
  else
    id_dtype <- dtype_of df id_var ;;
    ids <- column_values df id_var ;;
    blocks <- map_m (fun c =>
                       vals <- column_values df c ;;
                       ok (map (fun '(i, v) => [i; VStr c; v]) (combine ids vals)))
                    value_vars ;;
    ok (mkDF [mkColumn id_var id_dtype; mkColumn var_name dt_object;
              mkColumn value_name dt_object]
             (concat blocks)).

(** [pd.to_numeric(..., errors="coerce")] on one cell. *)
Definition to_numeric (v : value) : value :=
  match v with
  | VNone => VFloat F64nan
  | VInt z => VInt z
  | VFloat f => VFloat f
  | VStr s =>
      match to_numeric_str s with
      | Some f => VFloat f
      | None => VFloat F64nan
      end
  end.

Definition melt_coded_wide_to_long (coded_df : DataFrame) (id_col : option string)
  (construct_col_name : string) : pyresult DataFrame :=
  let df := coded_df in
  (* Choose id column(s) to carry through *)
  id_var <-
    (if truthy id_col && opt_in_columns id_col df
     then ok (match id_col with Some c => c | None => EmptyString end)
     else if has_column "task_submit_id" df then ok "task_submit_id"
     else first_item (names df)) ;;
  (* All other columns are likely constructs *)
  let value_vars := filter (fun c => negb (String.eqb c id_var)) (names df) in
  long_df <- pd_melt df id_var value_vars construct_col_name "human_label" ;;
  labels <- column_values long_df "human_label" ;;
  let long_df := set_column long_df "human_label" dt_float64 (map to_numeric labels) in
  (* Canonical construct for merge *)
  constructs <- column_values long_df construct_col_name ;;
  ok (set_column long_df "_construct_canon" dt_object
        (map (fun v => VStr (canonical (Some (py_str v)))) constructs)).

(** ** Merge planner and executor ([main] steps 5-6, paper_replicate.py 284-310) *)

(** Equality of merge-key cells: missing matches missing, numbers by
    value, strings by content. *)
Definition key_eqb (a b : value) : bool :=
  match a, b with
  | VStr x, VStr y => String.eqb x y
  | VInt x, VInt y => x =? y
  | VInt x, VFloat (F64 y) | VFloat (F64 y), VInt x => Qeq_bool (inject_Z x) y
  | VFloat (F64 x), VFloat (F64 y) => Qeq_bool x y
  | VFloat (F64inf x), VFloat (F64inf y) => Bool.eqb x y
  | _, _ => isna a && isna b
  end.

Fixpoint keys_eqb (a b : list value) : bool :=
  match a, b with
  | [], [] => true
  | x :: a', y :: b' => key_eqb x y && keys_eqb a' b'
  | _, _ => false
  end.

(** Positions of the named columns, [KeyError] at the first absent one. *)
Definition indices_of (cols : list string) (df : DataFrame) : pyresult (list nat) :=
  map_m (fun c => match index_of c (names df) with
                  | Some i => ok i
                  | None => raise (KeyError c)
                  end) cols.

(** [df[cols]] *)
Definition select (df : DataFrame) (cols : list string) : pyresult DataFrame :=
  idx <- indices_of cols df ;;
  ok (mkDF (map (fun i => nth i (columns df) (mkColumn EmptyString dt_object)) idx)
           (map (fun r => map (fun i => cell i r) idx) (rows df))).

(** The right-hand rows that join one left-hand row: those with equal
    key cells, in their own order. *)
Definition matches_of (lkey : list value) (ridx : list nat) (rrows : list (list value))
  : list (list value) :=
  filter (fun r => keys_eqb lkey (map (fun i => cell i r) ridx)) rrows.

(** The rows a left join makes of one left-hand row: one per match, or
    the row padded with missing values when nothing matches. *)
Definition join_row (lidx ridx rest : list nat) (rrows : list (list value))
  (l : list value) : list (list value) :=
  match matches_of (map (fun i => cell i l) lidx) ridx rrows with
  | [] => [(l ++ map (fun _ => VFloat F64nan) rest)%list]
  | ms => map (fun r => (l ++ map (fun i => cell i r) rest)%list) ms
  end.

Definition positions_not_in (on : list string) (df : DataFrame) : list nat :=
  map fst (filter (fun '(_, c) => negb (in_list (cname c) on))
                  (combine (seq 0 (length (columns df))) (columns df))).

Definition dtype_eqb (a b : dtype) : bool :=
  match a, b with
  | dt_object, dt_object | dt_int64, dt_int64 | dt_float64, dt_float64
  | dt_bool, dt_bool | dt_datetime64, dt_datetime64 => true
  | _, _ => false
  end.

(** [lib.infer_dtype(cells, skipna=False)] of an object column answers
    [string] or [mixed]: the column holds no integer, and holds a string
    or [None] (an all-float column infers as [floating], an integer
    among other cells as [integer] or a [mixed-integer] kind). *)
Definition infers_string_like (cells : list value) : bool :=
  negb (existsb (fun v => match v with VInt _ => true | _ => false end) cells)
  && existsb (fun v => match v with VStr _ | VNone => true | _ => false end) cells.

(** The check pandas makes on a pair of key columns before a merge
    ([_maybe_coerce_merge_keys]).  Nothing is checked when exactly one
    side has no rows, nor when the dtypes are equal.  A datetime key
    needs a datetime key.  An object key against an int64 or float64 key
    is refused when the object column infers as [string] or [mixed], and
    an empty object key against a float64 key is refused as well.  Other
    pairs are merged after a coercion. *)
Definition merge_key_ok (ld rd : dtype) (lk rk : list value) : bool :=
  let object_against (number : dtype) (cells : list value) : bool :=
    match cells, number with
    | [], dt_float64 => false
    | _, _ => negb (infers_string_like cells)
    end in
  match lk, rk with
  | [], _ :: _ | _ :: _, [] => true
  | _, _ =>
      if dtype_eqb ld rd then true
      else
        match ld, rd with
        | dt_datetime64, _ | _, dt_datetime64 => false
        | dt_object, (dt_int64 | dt_float64) => object_against rd lk
        | (dt_int64 | dt_float64), dt_object => object_against ld rk
        | _, _ => true
        end
  end.

(** The check on every pair of key columns, in the order of the keys:
    [ValueError] at the first pair that is refused. *)
Fixpoint check_merge_keys (left right : DataFrame) (lidx ridx : list nat)
  : pyresult unit :=
  match lidx, ridx with
  | i :: lidx', j :: ridx' =>
      if merge_key_ok (cdtype (nth i (columns left) (mkColumn EmptyString dt_object)))
                      (cdtype (nth j (columns right) (mkColumn EmptyString dt_object)))
                      (map (cell i) (rows left)) (map (cell j) (rows right))
      then check_merge_keys left right lidx' ridx'
      else raise ValueError
  | _, _ => ok tt
  end.

(** [pd.merge(left, right, on=on, how="left")].  A column that is not a
    key and is named on both sides gets the suffixes [_x] and [_y].  The
    cells of the joined columns are kept as they are: where pandas
    stores an integer column as floats because some row is unmatched,
    the cell holds the same number. *)
Definition pd_merge_left (left right : DataFrame) (on : list string)
  : pyresult DataFrame :=
  lidx <- indices_of on left ;;
  ridx <- indices_of on right ;;
  _ <- check_merge_keys left right lidx ridx ;;
  let rest := positions_not_in on right in
  let rest_cols := map (fun i => nth i (columns right) (mkColumn EmptyString dt_object)) rest in
  let clash (c : Column) (other : list Column) :=
    negb (in_list (cname c) on) && in_list (cname c) (map cname other) in
  let lcols := map (fun c => if clash c rest_cols
                             then mkColumn (cname c ++ "_x") (cdtype c) else c)
                   (columns left) in
  let rcols := map (fun c => if clash c (columns left)
                             then mkColumn (cname c ++ "_y") (cdtype c) else c)
                   rest_cols in
  ok (mkDF (lcols ++ rcols)%list
           (flat_map (join_row lidx ridx rest (rows right)) (rows left))).

(** Steps 5 and 6: which keys the merge uses, and the warning of the
    fall-back. *)
Definition choose_merge_keys (id_col : option string) (raw_df coded_long : DataFrame)
  : list string * list warning :=
  let has_raw_id := truthy id_col && opt_in_columns id_col raw_df in
  let has_coded_id := truthy id_col && opt_in_columns id_col coded_long in
  if has_raw_id && has_coded_id then (["_id_key"; "_construct_canon"], [])
  else (["_construct_canon"], [WarnConstructOnlyMerge id_col]).

Definition id_cell (k : option string) : value :=
  match k with
  | Some s => VStr s
  | None => VFloat F64nan
  end.

(** The dtype pandas infers for the mapped keys: float64 when there is
    a key and every key is missing (a column of NaN), object
    otherwise. *)
Definition id_key_dtype (keys : list (option string)) : dtype :=
  match keys with
  | [] => dt_object
  | _ => if forallb (fun k => match k with None => true | Some _ => false end) keys
         then dt_float64 else dt_object
  end.

(** [df["_id_key"] = make_id_key(df[id_col])] when the table has the
    identifier column. *)
Definition add_id_key (id_col : option string) (df : DataFrame) : pyresult DataFrame :=
  match id_col with
  | Some c =>
      if truthy id_col && has_column c df then
        ids <- column_values df c ;;
        let keys := make_id_key ids in
        ok (set_column df "_id_key" (id_key_dtype keys) (map id_cell keys))
      else ok df
  | None => ok df
  end.

(** Steps 5 and 6 of [main] up to the merge: the warnings emitted, and
    the merge keys with the merged table unless an exception ends the
    run. *)
Definition main_merge (id_col : option string) (construct_col : string)
  (raw_df coded_long : DataFrame)
  : list warning * pyresult (list string * DataFrame) :=
  let '(merge_keys, warns) := choose_merge_keys id_col raw_df coded_long in
  (warns,
   raw_df <- add_id_key id_col raw_df ;;
   coded_long <- add_id_key id_col coded_long ;;
   coded_long <-
     (if negb (has_column "_construct_canon" coded_long)
         && has_column construct_col coded_long
      then
        cs <- column_values coded_long construct_col ;;
        ok (set_column coded_long "_construct_canon" dt_object
              (map (fun v => VStr (canonical (match v with
                                               | VNone => None
                                               | _ => Some (py_str v)
                                               end))) cs))
      else ok coded_long) ;;
   right <- select coded_long (merge_keys ++ ["human_label"])%list ;;
   merged <- pd_merge_left raw_df right merge_keys ;;
   ok (merge_keys, merged)).

End Core.

(** ** Oracle-response parser ([llm_predict_binary], paper_replicate.py 219-234) *)

Definition is_bit (c : ascii) : bool :=
  Ascii.eqb c "0"%char || Ascii.eqb c "1"%char.

(** [re.search(r"\b([01])\b", txt)]: the first [0] or [1] with no word
    character on either side.  [prev_word] tells that the character
    before the text is a word character. *)
Fixpoint search_standalone_bit (prev_word : bool) (txt : string) : option Z :=
  match txt with
  | EmptyString => None
  | String c rest =>
      let next_word :=
        match rest with
        | EmptyString => false
        | String d _ => Py.is_word d
        end in
      if is_bit c && negb prev_word && negb next_word then Some (digit_val c)
      else search_standalone_bit (Py.is_word c) rest
  end.

(** [re.search(r"^[\s\n\r]*([01])", txt)] *)
Definition search_leading_bit (txt : string) : option Z :=
  match Py.lstrip txt with
  | EmptyString => None
  | String c _ => if is_bit c then Some (digit_val c) else None
  end.

(** The statements after the request: the label, and the warning when
    the text holds no label. *)
Definition parse_binary_label (txt : string) : Z * list warning :=
  match search_standalone_bit false txt with
  | Some b => (b, [])
  | None =>
      match search_leading_bit txt with
      | Some b => (b, [])
      | None => (0, [WarnUnparsedLabel txt])
      end
  end.

(** [client] stands for the request
    [client.chat.completions.create(...).choices[0].message.content]: it
    raises, or answers with a text or with [None]. *)
Definition llm_predict_binary (client : string -> pyresult (option string))
  (prompt : string) : pyresult (Z * list warning) :=
  content <- client prompt ;;
  (* [content or the empty string] *)
  let txt := match content with
             | Some t => t
             | None => EmptyString
             end in
  ok (parse_binary_label txt).

(** ** Scoring engine ([main] step 10, paper_replicate.py 345-402) *)

(** [int(s)] for a string. *)
Definition int_of_str (s : string) : pyresult Z :=
  let s := strip_number s in
  let '(neg, body) :=
    match s with
    | String "+"%char r => (false, r)
    | String "-"%char r => (true, r)
    | _ => (false, s)
    end in
  match digitpart body with
  | Some (n, _, EmptyString) => ok (if neg then - n else n)
  | _ => raise ValueError
  end.

(** numpy's cast of a finite double to int64: truncation toward zero;
    a value outside the int64 range comes out as the least int64 (the
    result of the x86-64 conversion), without an exception. *)
Definition INT64_MIN : Z := - 2 ^ 63.

Definition trunc_int64 (q : Q) : Z :=
  let z := Z.quot (Qnum q) (Zpos (Qden q)) in
  if (INT64_MIN <=? z) && (z <? 2 ^ 63) then z else INT64_MIN.

(** [Series.astype(int)] on one cell: floats are truncated, a missing or
    infinite value cannot be converted. *)
Definition astype_int (v : value) : pyresult Z :=
  match v with
  | VInt z => ok z
  | VFloat (F64 q) => ok (trunc_int64 q)
  | VFloat _ => raise ValueError
  | VStr s => int_of_str s
  | VNone => raise TypeError
  end.

Definition count {A : Type} (p : A -> bool) (l : list A) : Z :=
  Z.of_nat (length (filter p l)).

Fixpoint insert_label (x : Z) (l : list Z) : list Z :=
  match l with
  | [] => [x]
  | y :: l' =>
      if x =? y then l
      else if x <? y then x :: l
      else y :: insert_label x l'
  end.

(** [unique_labels(y1, y2)]: the distinct labels of both vectors, in
    increasing order. *)
Definition unique_labels (y1 y2 : list Z) : list Z :=
  fold_right insert_label [] (y1 ++ y2)%list.

Definition Zsum (l : list Z) : Z := fold_right Z.add 0 l.
Definition Qsum (l : list Q) : Q := fold_right Qplus 0%Q l.

(** numpy's division of two finite numbers: a zero divisor gives NaN or
    an infinity (with a warning), never an exception. *)
Definition np_divide (a b : Q) : float64 :=
  if Qeq_bool b 0 then
    if Qeq_bool a 0 then F64nan else F64inf (Qltb a 0)
  else F64 (a / b)%Q.

Definition one_minus (k : float64) : float64 :=
  match k with
  | F64 q => F64 (1 - q)%Q
  | F64inf neg => F64inf (negb neg)
  | F64nan => F64nan
  end.

(** sklearn's [cohen_kappa_score(y1, y2)] without weights: the confusion
    matrix over the labels present, its marginals, the expected matrix
    [outer(sum0, sum1) / n], and one minus the ratio of the off-diagonal
    sums.  The arithmetic is kept exact.  Vectors of different lengths
    are refused. *)
Definition cohen_kappa_score (y1 y2 : list Z) : pyresult float64 :=
  if negb (length y1 =? length y2)%nat then raise ValueError
  else
    let labels := unique_labels y1 y2 in
    let confusion (a b : Z) :=
      count (fun '(t, p) => (t =? a) && (p =? b)) (combine y1 y2) in
    let sum0 (b : Z) := Zsum (map (fun a => confusion a b) labels) in
    let sum1 (a : Z) := Zsum (map (fun b => confusion a b) labels) in
    let n := Zsum (map sum0 labels) in
    let expected (a b : Z) := (inject_Z (sum0 a * sum1 b) / inject_Z n)%Q in
    let w_mat (a b : Z) : Z := if a =? b then 0 else 1 in
    let observed :=
      Zsum (flat_map (fun a => map (fun b => w_mat a b * confusion a b) labels) labels) in
    let chance :=
      Qsum (flat_map (fun a => map (fun b => (inject_Z (w_mat a b) * expected a b)%Q)
                                   labels) labels) in
    ok (one_minus (np_divide (inject_Z observed) chance)).

(** The checks sklearn makes for [average="binary"], [pos_label=1]: at
    most two labels are present, and label 1 is one of them as soon as
    two are present. *)
Definition check_binary (y_true y_pred : list Z) : pyresult unit :=
  let present := unique_labels y_true y_pred in
  if (2 <? length present)%nat then raise ValueError
  else if negb (existsb (Z.eqb 1) present) && (2 <=? length present)%nat
       then raise ValueError
       else ok tt.

(** [tp / denominator], and 0 when the denominator is 0
    ([zero_division=0]). *)
Definition ratio_or_zero (tp denominator : Z) : float64 :=
  if denominator =? 0 then F64 0 else F64 (tp # Z.to_pos denominator).

Definition true_positives (y_true y_pred : list Z) : Z :=
  count (fun '(t, p) => (t =? 1) && (p =? 1)) (combine y_true y_pred).

(** [precision_score(y_true, y_pred, zero_division=0)] *)
Definition precision_score (y_true y_pred : list Z) : pyresult float64 :=
  _ <- check_binary y_true y_pred ;;
  ok (ratio_or_zero (true_positives y_true y_pred) (count (Z.eqb 1) y_pred)).

(** [recall_score(y_true, y_pred, zero_division=0)] *)
Definition recall_score (y_true y_pred : list Z) : pyresult float64 :=
  _ <- check_binary y_true y_pred ;;
  ok (ratio_or_zero (true_positives y_true y_pred) (count (Z.eqb 1) y_true)).

(** One record of the per-construct table; [None] is Python's [None]. *)
Record metrics_row : Type := mkMetrics {
  construct : value;
  freq_in_data : option float64;
  hum_gpt_kappa : option float64;
  hum_gpt_precision : option float64;
  hum_gpt_recall : option float64;
  n_eval : Z
}.

(** The body of the per-construct loop: [g] pairs the [human_label] and
    [gpt_pred] cells of the rows of one group. *)
Definition construct_metrics (construct : value) (g : list (value * value))
  : pyresult metrics_row :=
  let evaluable := filter (fun '(h, _) => negb (isna h)) g in
  let n_eval := Z.of_nat (length evaluable) in
  if n_eval =? 0 then ok (mkMetrics construct None None None None 0)
  else
    y_true <- map_m astype_int (map fst evaluable) ;;
    y_pred <- map_m astype_int (map snd evaluable) ;;
    (* frequency = share of human positives *)
    let freq := F64 (count (Z.eqb 1) y_true # Z.to_pos n_eval) in
    (* kappa can be undefined in degenerate cases; guard it *)
    let kappa_c :=
      match cohen_kappa_score y_true y_pred with
      | inr k => Some k
      | inl _ => None
      end in
    prec <- precision_score y_true y_pred ;;
    rec <- recall_score y_true y_pred ;;
    ok (mkMetrics construct (Some freq) kappa_c (Some prec) (Some rec) n_eval).

(** The overall coefficient: [None] when no merged row has a human
    label. *)
Definition overall_kappa (labelled : list (value * value)) : pyresult (option float64) :=
  let valid := filter (fun '(h, _) => negb (isna h)) labelled in
  if Z.of_nat (length valid) =? 0 then ok None
  else
    y_true_all <- map_m astype_int (map fst valid) ;;
    y_pred_all <- map_m astype_int (map snd valid) ;;
    k <- cohen_kappa_score y_true_all y_pred_all ;;
    ok (Some k).

(** Order of group keys: numbers by value, then strings by code
    points. *)
Definition key_leb (a b : value) : bool :=
  match a, b with
  | VStr x, VStr y => String.leb x y
  | VStr _, _ => false
  | _, VStr _ => true
  | VInt x, VInt y => x <=? y
  | VInt x, VFloat (F64 y) => Qle_bool (inject_Z x) y
  | VFloat (F64 x), VInt y => Qle_bool x (inject_Z y)
  | VFloat (F64 x), VFloat (F64 y) => Qle_bool x y
  | VFloat (F64inf n), _ => n
  | _, VFloat (F64inf n) => negb n
  | _, _ => true
  end.

Fixpoint insert_key (k : value) (l : list value) : list value :=
  match l with
  | [] => [k]
  | x :: l' =>
      if key_eqb k x then l
      else if key_leb k x then k :: l
      else x :: insert_key k l'
  end.

(** [df.groupby(col)]: the distinct keys that are not missing, sorted,
    each with its rows in table order. *)
Definition groupby (df : DataFrame) (col : string)
  : pyresult (list (value * list (list value))) :=
  match index_of col (names df) with
  | None => raise (KeyError col)
  | Some i =>
      let keys := fold_right insert_key []
                    (filter (fun k => negb (isna k)) (map (cell i) (rows df))) in
      ok (map (fun k => (k, filter (fun r => key_eqb k (cell i r)) (rows df))) keys)
  end.

(** Step 10 of [main]: [merged["gpt_pred"] = preds], the overall
    coefficient, then the per-construct loop and the construction of the
    table sorted by construct (the groups already come in that order).
    A table built from no record has no [construct] column to sort
    by. *)
Definition main_evaluate (merged : DataFrame) (construct_col : string) (preds : list Z)
  : pyresult (option float64 * list metrics_row) :=
  if negb (length preds =? length (rows merged))%nat then raise ValueError
  else
    let merged := set_column merged "gpt_pred" dt_int64 (map VInt preds) in
    labels <- column_values merged "human_label" ;;
    gpt <- column_values merged "gpt_pred" ;;
    overall <- overall_kappa (combine labels gpt) ;;
    groups <- groupby merged construct_col ;;
    at_ <- indices_of ["human_label"; "gpt_pred"] merged ;;
    records <- map_m (fun '(k, g) =>
                        construct_metrics k
                          (map (fun r => (cell (nth 0 at_ O) r, cell (nth 1 at_ O) r)) g))
                     groups ;;
    match records with
    | [] => raise (KeyError "construct")
    | _ => ok (overall, records)
    end.

(** * [table_convert.py] *)

(** [Series.astype(float)] on one cell. *)
Definition astype_float (v : value) : pyresult float64 :=
  match v with
  | VNone => ok F64nan
  | VInt z => ok (round64 (inject_Z z))
  | VFloat f => ok f
  | VStr s =>
      match float_of_str s with
      | Some f => ok f
      | None => raise ValueError
      end
  end.

(** [Series.astype(int)] on a float cell: NaN and the infinities are
    refused. *)
Definition float_to_int (f : float64) : pyresult Z :=
  match f with
  | F64 q => ok (trunc_int64 q)
  | _ => raise ValueError
  end.

(** The double product and quotient of a column by a positive constant,
    correctly rounded; infinities and NaN stay. *)
Definition fmul (f : float64) (k : Q) : float64 :=
  match f with
  | F64 q => round64 (q * k)
  | _ => f
  end.

Definition fdiv (f : float64) (k : Q) : float64 :=
  match f with
  | F64 q => round64 (q / k)
  | _ => f
  end.

(** [np.rint]: the nearest integer, ties to even. *)
Definition rint (f : float64) : float64 :=
  match f with
  | F64 q => F64 (inject_Z (round_half_even q))
  | _ => f
  end.

(** [.round(decimals)] on a float column, as numpy computes it: for 0
    decimals [rint]; for 2 decimals multiply by 100, [rint], divide by
    100, each step in double arithmetic. *)
Definition round0 (f : float64) : float64 := rint f.
Definition round2 (f : float64) : float64 := fdiv (rint (fmul f 100)) 100.

(** [df[c] = f(df[c])] for a column that is present. *)
Definition update_column (df : DataFrame) (c : string) (d : dtype)
  (f : list value -> pyresult (list value)) : pyresult DataFrame :=
  if has_column c df then
    old <- column_values df c ;;
    new <- f old ;;
    ok (set_column df c d new)
  else ok df.

(** [df.drop(columns=[c])] for a column that is present. *)
Definition drop_column (df : DataFrame) (c : string) : pyresult DataFrame :=
  select df (filter (fun n => negb (String.eqb n c)) (names df)).

Definition percent (cells : list value) : pyresult (list value) :=
  fs <- map_m astype_float cells ;;
  let scaled := map (fun f => round0 (fmul f 100)) fs in
  ints <- map_m float_to_int scaled ;;
  ok (map (fun z => VStr (str_of_Z z ++ "%")) ints).

Definition rounded2 (cells : list value) : pyresult (list value) :=
  fs <- map_m astype_float cells ;;
  ok (map (fun f => VFloat (round2 f)) fs).

(** [pretty_format] (table_convert.py 27-46) *)
Definition pretty_format (df : DataFrame) : pyresult DataFrame :=
  df <- update_column df "freq_in_data" dt_object percent ;;
  df <- update_column df "hum_gpt_kappa" dt_float64 rounded2 ;;
  df <- update_column df "hum_gpt_precision" dt_float64 rounded2 ;;
  df <- update_column df "hum_gpt_recall" dt_float64 rounded2 ;;
  df <- (if has_column "n_eval" df then drop_column df "n_eval" else ok df) ;;
  let col_order :=
    filter (fun c => has_column c df)
           ["construct"; "freq_in_data"; "hum_gpt_kappa";
            "hum_gpt_precision"; "hum_gpt_recall"] in
  match col_order with
  | [] => ok df
  | _ => select df col_order
  end.

(** The per-construct metrics document as the renderer loads it: one row
    per record, an absent value as a missing cell. *)
Definition metric_cell (m : option float64) : value :=
  match m with
  | Some f => VFloat f
  | None => VNone
  end.

Definition metrics_document (records : list metrics_row) : DataFrame :=
  match records with
  | [] => mkDF [] []
  | _ =>
      mkDF [mkColumn "construct" dt_object; mkColumn "freq_in_data" dt_float64;
            mkColumn "hum_gpt_kappa" dt_float64; mkColumn "hum_gpt_precision" dt_float64;
            mkColumn "hum_gpt_recall" dt_float64; mkColumn "n_eval" dt_int64]
           (map (fun r => [construct r; metric_cell (freq_in_data r);
                           metric_cell (hum_gpt_kappa r);
                           metric_cell (hum_gpt_precision r);
                           metric_cell (hum_gpt_recall r); VInt (n_eval r)])
                records)
  end.

(** * Sample inputs and vocabulary of the statements *)

Definition four_agreeing_positives : list (value * value) :=
  [(VInt 1, VInt 1); (VInt 1, VInt 1); (VInt 1, VInt 1); (VInt 1, VInt 1)].

Definition unlabelled_record : metrics_row :=
  mkMetrics (VStr "Comment") None None None None 0.

(** A raw table of one row and a long-form coded table in which two
    entities carry a label for the same construct. *)
Definition raw_one_row : DataFrame :=
  mkDF [mkColumn "code_change_text" dt_object; mkColumn "construct_name" dt_object;
        mkColumn "_construct_canon" dt_object]
       [[VStr "x = 1"; VStr "Comment"; VStr "comment"]].

Definition coded_two_entities : DataFrame :=
  mkDF [mkColumn "_construct_canon" dt_object; mkColumn "human_label" dt_float64]
       [[VStr "comment"; VInt 1]; [VStr "comment"; VInt 0]].

(** The part of a merged row that comes from the left-hand table. *)
Definition raw_part (raw : DataFrame) (merged_row : list value) : list value :=
  firstn (length (columns raw)) merged_row.

(** How many right-hand rows share the merge key of a left-hand row. *)
Definition match_count (left right : DataFrame) (on : list string) (l : list value) : nat :=
  match indices_of on left, indices_of on right with
  | inr lidx, inr ridx =>
      length (matches_of (map (fun i => cell i l) lidx) ridx (rows right))
  | _, _ => O
  end.

(** The cells a left join appends to a left-hand row without match. *)
Definition missing_labels (right : DataFrame) (on : list string) : list value :=
  map (fun _ => VFloat F64nan) (positions_not_in on right).

Definition well_formed (df : DataFrame) : Prop :=
  Forall (fun r => length r = length (columns df)) (rows df).

(** Every merge key has the same dtype on both sides. *)
Definition same_key_dtypes (left right : DataFrame) (on : list string) : Prop :=
  Forall (fun k => dtype_of left k = dtype_of right k) on.

(** The merge accepts a key: the column is on both sides and the check
    of the key dtypes lets the pair pass. *)
Definition key_accepted (left right : DataFrame) (k : string) : bool :=
  match dtype_of left k, dtype_of right k, column_values left k, column_values right k with
  | inr ld, inr rd, inr lk, inr rk => merge_key_ok ld rd lk rk
  | _, _, _, _ => false
  end.

Definition merge_keys_accepted (left right : DataFrame) (on : list string) : Prop :=
  Forall (fun k => key_accepted left right k = true) on.

(** A raw table and a long-form coded table keyed by identifier and
    construct: the first raw row has one coded row, the second none. *)
Definition raw_keyed : DataFrame :=
  mkDF [mkColumn "_id_key" dt_object; mkColumn "code_change_text" dt_object;
        mkColumn "_construct_canon" dt_object]
       [[VStr "1"; VStr "x = 1"; VStr "comment"];
        [VStr "3"; VStr "y = 2"; VStr "comment"]].

Definition coded_keyed : DataFrame :=
  mkDF [mkColumn "_id_key" dt_object; mkColumn "_construct_canon" dt_object;
        mkColumn "human_label" dt_float64]
       [[VStr "1"; VStr "comment"; VFloat (F64 1)];
        [VStr "2"; VStr "comment"; VFloat (F64 0)]].

(** A raw table and a long-form coded table that both carry the
    identifier column [sid]. *)
Definition raw_with_id : DataFrame :=
  mkDF [mkColumn "sid" dt_int64; mkColumn "code_change_text" dt_object;
        mkColumn "construct_name" dt_object; mkColumn "_construct_canon" dt_object]
       [[VInt 1; VStr "x = 1"; VStr "Comment"; VStr "comment"];
        [VInt 3; VStr "y = 2"; VStr "Comment"; VStr "comment"]].

Definition coded_with_id : DataFrame :=
  mkDF [mkColumn "sid" dt_object; mkColumn "construct_name" dt_object;
        mkColumn "human_label" dt_float64; mkColumn "_construct_canon" dt_object]
       [[VStr "1.0"; VStr "Comment"; VInt 1; VStr "comment"];
        [VStr "2.0"; VStr "Comment"; VInt 0; VStr "comment"]].

(** Both tables contain the identifier column that was supplied. *)
Definition id_on_both_sides (id_col : option string) (raw_df coded_long : DataFrame)
  : bool :=
  truthy id_col && opt_in_columns id_col raw_df && opt_in_columns id_col coded_long.

(** The cell converts to the integer label [z]. *)
Definition has_label (z : Z) (v : value) : bool :=
  match astype_int v with
  | inr x => x =? z
  | inl _ => false
  end.

Definition binary_cell (v : value) : Prop :=
  has_label 0 v = true \/ has_label 1 v = true.

(** A row of a group, as (human label, prediction): the label is missing
    or binary, and the prediction of a labelled row is binary. *)
Definition binary_row (r : value * value) : Prop :=
  isna (fst r) = true \/ (binary_cell (fst r) /\ binary_cell (snd r)).

Definition labelled (r : value * value) : bool := negb (isna (fst r)).

(** Counts over the evaluable rows of a group. *)
Definition n_evaluable (g : list (value * value)) : Z := count labelled g.

Definition n_where (t p : option Z) (g : list (value * value)) : Z :=
  count (fun r => labelled r
                  && match t with Some z => has_label z (fst r) | None => true end
                  && match p with Some z => has_label z (snd r) | None => true end) g.

(** [a / b], and 0 when [b] is 0. *)
Definition fraction_or_zero (a b : Z) : Q :=
  if b =? 0 then 0%Q else (inject_Z a / inject_Z b)%Q.

(** The synthetic pair of the specification: true = [1,1,0,0],
    pred = [1,0,0,0]. *)
Definition fixed_pair : list (value * value) :=
  [(VInt 1, VInt 1); (VInt 1, VInt 0); (VInt 0, VInt 0); (VInt 0, VInt 0)].

(** Integer label pairs, each component 0 or 1. *)
Definition binary_pair (y : Z * Z) : Prop :=
  (fst y = 0 \/ fst y = 1) /\ (snd y = 0 \/ snd y = 1).

(** A group with an unlabelled row, a false positive and a false
    negative. *)
Definition mixed_group : list (value * value) :=
  [(VInt 1, VInt 1); (VFloat F64nan, VInt 1); (VInt 0, VInt 1);
   (VFloat (F64 1), VInt 0); (VInt 0, VInt 0)].

(** The character before the position reached is a word character;
    [prev_word] answers for the start of the text. *)
Fixpoint last_is_word (prev_word : bool) (pre : string) : bool :=
  match pre with
  | EmptyString => prev_word
  | String c pre' => last_is_word (Py.is_word c) pre'
  end.

Definition starts_with_word (post : string) : bool :=
  match post with
  | EmptyString => false
  | String d _ => Py.is_word d
  end.

(** The text holds the digit [b] (0 or 1) with no word character on
    either side. *)
Definition standalone_bit (txt : string) (b : Z) : Prop :=
  exists pre c post,
    txt = pre ++ String c post /\ is_bit c = true /\ digit_val c = b /\
    last_is_word false pre = false /\ starts_with_word post = false.

(** The text is whitespace followed by the digit [b] (0 or 1). *)
Definition leading_bit (txt : string) (b : Z) : Prop :=
  exists ws c post,
    txt = ws ++ String c post /\ all_chars Py.is_space ws = true /\
    is_bit c = true /\ digit_val c = b.

(** An ASCII letter or digit. *)
Definition is_alnum_ascii (c : ascii) : bool :=
  Py.is_digit c || Py.is_lower_az c || Py.is_upper_az c.

(** A lower-case ASCII letter or a digit: what survives [canonical]. *)
Definition is_az09 (c : ascii) : bool := Py.is_lower_az c || Py.is_digit c.

(** The identifier column the reshaper carries through: the supplied one
    when the table has it, else [task_submit_id] when the table has it,
    else the first column. *)
Definition chosen_id_column (df : DataFrame) (id_col : option string) : option string :=
  if truthy id_col && opt_in_columns id_col df then id_col
  else if has_column "task_submit_id" df then Some "task_submit_id"
  else match names df with
       | [] => None
       | c :: _ => Some c
       end.

(** The cell of a row under a column name. *)
Definition cell_of (df : DataFrame) (c : string) (r : list value) : value :=
  match index_of c (names df) with
  | Some i => cell i r
  | None => VNone
  end.

(** The construct columns: every column but the identifier. *)
Definition construct_columns (df : DataFrame) (id_var : string) : list string :=
  filter (fun c => negb (String.eqb c id_var)) (names df).

(** The long row made of entity row [r] and construct column [c]:
    identifier, construct name, coerced label, canonical key. *)
Definition long_row (to_numeric_str : string -> option float64) (df : DataFrame)
  (id_var c : string) (r : list value) : list value :=
  [cell_of df id_var r; VStr c; to_numeric to_numeric_str (cell_of df c r);
   VStr (canonical (Some c))].

(** A coded table with a construct column named by punctuation only. *)
Definition coded_with_hash_column : DataFrame :=
  mkDF [mkColumn "sid" dt_int64; mkColumn "Comment" dt_int64; mkColumn "#" dt_int64]
       [[VInt 1; VInt 1; VInt 0]; [VInt 2; VInt 0; VInt 1]].

(** Every long row carries a non-empty canonical construct key. *)
Definition keys_nonempty (long : DataFrame) : Prop :=
  forall vals, column_values long "_construct_canon" = ok vals ->
               Forall (fun v => v <> VStr EmptyString) vals.

(** A raw table that already has the text and construct columns, and a
    raw table of three misnamed columns. *)
Definition raw_text_and_construct : DataFrame :=
  mkDF [mkColumn "code_change_text" dt_object; mkColumn "construct_name" dt_object]
       [[VStr "x = 1"; VStr "Comment"]].

Definition raw_three_columns : DataFrame :=
  mkDF [mkColumn "note" dt_object; mkColumn "construct_name" dt_object;
        mkColumn "score" dt_int64]
       [[VStr "changed the loop bound"; VStr "Comment"; VInt 3]].

(** [difflib.get_close_matches] answers with candidates only. *)
Definition answers_candidates
  (get_close_matches : string -> list string -> nat -> Q -> list string) : Prop :=
  forall word possibilities n cutoff m,
    In m (get_close_matches word possibilities n cutoff) -> In m possibilities.

(** A merged table in which the rows of one construct have a human
    label and the row of the other has none. *)
Definition merged_partly_labelled : DataFrame :=
  mkDF [mkColumn "code_change_text" dt_object; mkColumn "construct_name" dt_object;
        mkColumn "human_label" dt_float64]
       [[VStr "x >= 1"; VStr "Operator"; VFloat (F64 1)];
        [VStr "x = 1"; VStr "Operator"; VFloat (F64 0)];
        [VStr "// fix"; VStr "Comment"; VFloat F64nan]].

(** No two whitespace characters in a row. *)
Fixpoint no_double_space (s : string) : bool :=
  match s with
  | EmptyString => true
  | String a s' =>
      match s' with
      | EmptyString => true
      | String b _ => negb (Py.is_space a && Py.is_space b) && no_double_space s'
      end
  end.

Definition starts_with_space (s : string) : bool :=
  match s with
  | EmptyString => false
  | String a _ => Py.is_space a
  end.

(** The ampersand, which [canonical] spells out as [and]. *)
Definition is_ampersand (c : ascii) : bool := Ascii.eqb c "&"%char.

(** What gives a name a non-empty canonical key: an ASCII letter or
    digit, or an ampersand. *)
Definition is_key_material (c : ascii) : bool := is_alnum_ascii c || is_ampersand c.

(** Two tables with the same rows and the same column dtypes in the same
    order: they differ in column names at most. *)
Definition same_data (df df' : DataFrame) : Prop :=
  rows df' = rows df /\ map cdtype (columns df') = map cdtype (columns df).

(** ** Construct list and expansion (paper_replicate.py 190-213) *)

(** [get_construct_list_from_coded] *)
Definition get_construct_list_from_coded (coded_df : DataFrame) (id_col : option string)
  : list string :=
  let cols := names coded_df in
  if truthy id_col && opt_in_columns id_col coded_df
  then filter (fun c => negb (String.eqb c
                                (match id_col with Some i => i | None => EmptyString end)))
              cols
  else if has_column "task_submit_id" coded_df
  then filter (fun c => negb (String.eqb c "task_submit_id")) cols
  else cols.

(** [pd.merge(left, right, on=on)] with the default [how="inner"]: one
    row per pair of a left-hand row and a right-hand row with equal
    keys, left-hand rows in their order. *)
Definition pd_merge_inner (left right : DataFrame) (on : list string)
  : pyresult DataFrame :=
  lidx <- indices_of on left ;;
  ridx <- indices_of on right ;;
  _ <- check_merge_keys left right lidx ridx ;;
  let rest := positions_not_in on right in
  let rest_cols := map (fun i => nth i (columns right) (mkColumn EmptyString dt_object)) rest in
  let clash (c : Column) (other : list Column) :=
    negb (in_list (cname c) on) && in_list (cname c) (map cname other) in
  let lcols := map (fun c => if clash c rest_cols
                             then mkColumn (cname c ++ "_x") (cdtype c) else c)
                   (columns left) in
  let rcols := map (fun c => if clash c (columns left)
                             then mkColumn (cname c ++ "_y") (cdtype c) else c)
                   rest_cols in
  ok (mkDF (lcols ++ rcols)%list
           (flat_map (fun l => map (fun r => (l ++ map (fun i => cell i r) rest)%list)
                                   (matches_of (map (fun i => cell i l) lidx) ridx
                                               (rows right)))
                     (rows left))).

(** [expand_raw_by_constructs] *)
Definition expand_raw_by_constructs (raw_df : DataFrame) (constructs : list string)
  (id_col text_col construct_col : string) : pyresult DataFrame :=
  base <- select raw_df [id_col; text_col] ;;
  let cdf := mkDF [mkColumn construct_col dt_object]
                  (map (fun c => [VStr c]) constructs) in
  let base := set_column base "_key" dt_int64 (map (fun _ => VInt 1) (rows base)) in
  let cdf := set_column cdf "_key" dt_int64 (map (fun _ => VInt 1) (rows cdf)) in
  merged <- pd_merge_inner base cdf ["_key"] ;;
  drop_column merged "_key".

(** ** Preparation of the human labels ([main] step 4, paper_replicate.py 272-282) *)

(** The coded table in long form and the warning of the branch that
    finds no construct column. *)
Definition main_prepare_coded (float_repr : float64 -> string)
  (to_numeric_str : string -> option float64) (coded_df : DataFrame)
  (id_col : option string) (construct_col : string) (label_col : option string)
  : list warning * pyresult DataFrame :=
  match label_col with
  | Some lc =>
      if truthy label_col && has_column lc coded_df then
        let coded_long := coded_df in
        let coded_long :=
          if negb (has_column "human_label" coded_long)
          then rename coded_long lc "human_label"
          else coded_long in
        if has_column construct_col coded_long then
          ([],
           cs <- column_values coded_long construct_col ;;
           ok (set_column coded_long "_construct_canon" dt_object
                 (map (fun v => VStr (canonical (match v with
                                                  | VNone => None
                                                  | _ => Some (py_str float_repr v)
                                                  end))) cs)))
        else ([WarnLabelsMergedByIdOnly construct_col], ok coded_long)
      else ([], melt_coded_wide_to_long float_repr to_numeric_str coded_df id_col
                  construct_col)
  | None => ([], melt_coded_wide_to_long float_repr to_numeric_str coded_df id_col
                   construct_col)
  end.

(** A coded table that already has one label column, and no construct
    column. *)
Definition coded_single_label : DataFrame :=
  mkDF [mkColumn "sid" dt_int64; mkColumn "label" dt_int64]
       [[VInt 1; VInt 1]; [VInt 2; VInt 0]].

(** The merge-key cells of a row, and the cells a join appends from a
    right-hand row. *)
Definition key_of (df : DataFrame) (on : list string) (r : list value) : list value :=
  map (fun k => cell_of df k r) on.

Definition joined_cells (right : DataFrame) (on : list string) (r : list value)
  : list value :=
  map (fun i => cell i r) (positions_not_in on right).

(** A share: absent, or a finite number between 0 and 1. *)
Definition unit_interval (m : option float64) : Prop :=
  match m with
  | None => True
  | Some (F64 q) => (0 <= q <= 1)%Q
  | Some _ => False
  end.

(** The record carries a frequency whose hundredfold is a finite double:
    a finite frequency up to about 1.79e306, so every share between 0
    and 1. *)
Definition finite_percentage (r : metrics_row) : bool :=
  match freq_in_data r with
  | Some f => match fmul f 100 with
              | F64 _ => true
              | _ => false
              end
  | None => false
  end.

(** ** Codebook, prompt and construct resolver (paper_replicate.py 22-81) *)

(** The two typographic quotation marks of the [Operator] entry, as
    their UTF-8 bytes. *)
Definition ldquo : string :=
  String (ascii_of_nat 226) (String (ascii_of_nat 128) (String (ascii_of_nat 156) EmptyString)).
Definition rdquo : string :=
  String (ascii_of_nat 226) (String (ascii_of_nat 128) (String (ascii_of_nat 157) EmptyString)).

(** [build_codebook]: the dict, in insertion order. *)
Definition build_codebook : list (string * string) :=
  [("If Header",
    "Modifications to the if condition/header.");
   ("If Body",
    "Modifications to the lines enabled by the if condition/header.");
   ("Function Return",
    "Modifications inside the return statement.");
   ("Function Body",
    "Modifications inside the body of the function. These modifications include adding more conditional statements, auxiliary variables, and others.");
   ("Comment",
    "A new commented line or a deletion or modification of an already existing comment.");
   ("Testing",
    "Modifications inside the Main function (section of the code used for testing), such as adding a line to print results in the console and testing the correct functioning of their code.");
   ("Added Lines",
    "Contains at least one completely new code line.");
   ("Removed Lines",
    "Student removed code lines in the submission.");
   ("Variable Usage & Assignment",
    "Student submission adds a new variable or deletes or modifies the value assignment of an already existing variable.");
   ("Variable-type Change",
    "A modification of the type of variable on its initial declaration.");
   ("Variable-type Conversion Change",
    "Modification in the conversion of the type of variable after its initial declaration or a conversion in the type of variable obtained after using an already existing method.");
   ("Value Change",
    "Modification of any value. It can be in the if header/condition, in the coefficient in an equation, or in the assignment of a variable.");
   ("Operator",
    ("Modification of an operator, such as changing the " ++ ldquo ++ "greater than" ++ rdquo ++ " operator to " ++ ldquo ++ "equal to" ++ rdquo ++ " in a conditional statement."));
   ("Syntax Change",
    "A modification in the syntax of a code line to correct a compiler error.")].

Definition newline : string := String (ascii_of_nat 10) EmptyString.

(** [ZERO_SHOT_TEMPLATE.format(construct=..., definition=..., snippet=...)] *)
Definition ZERO_SHOT_TEMPLATE (construct definition snippet : string) : string :=
  "Please review the provided text and code it based on the construct: " ++ construct
  ++ ". " ++ "The definition of this construct is: " ++ definition ++ " "
  ++ "After reviewing the text, assign a code of '1' if you believe the text exemplifies "
  ++ construct ++ ", "
  ++ "or a '0' if it does not. Your response should only be '1' or '0'."
  ++ newline ++ newline ++ "TEXT:" ++ newline ++ snippet ++ newline ++ "Answer:".

(** A [dict] with string keys, in insertion order: [d[k] = v] keeps the
    place of a key that is present. *)
Fixpoint dict_set (k v : string) (d : list (string * string)) : list (string * string) :=
  match d with
  | [] => [(k, v)]
  | (k', v') :: d' =>
      if String.eqb k' k then (k', v) :: d' else (k', v') :: dict_set k v d'
  end.

Fixpoint dict_get (k : string) (d : list (string * string)) : option string :=
  match d with
  | [] => None
  | (k', v) :: d' => if String.eqb k' k then Some v else dict_get k d'
  end.

(** [map_construct_to_coded_column] *)
Definition map_construct_to_coded_column
  (get_close_matches : string -> list string -> nat -> Q -> list string)
  (construct_value : string) (coded_construct_cols : list string)
  : pyresult (option string) :=
  let can_target := canonical (Some construct_value) in
  if String.eqb can_target EmptyString then ok None
  else
    let canon_map :=
      fold_left (fun d c => dict_set (canonical (Some c)) c d) coded_construct_cols [] in
    match dict_get can_target canon_map with
    | Some c => ok (Some c)
    | None =>
        let choices := map fst canon_map in
        match get_close_matches can_target choices 1%nat (72 # 100) with
        | m :: _ =>
            match dict_get m canon_map with
            | Some c => ok (Some c)
            | None => raise (KeyError m)
            end
        | [] => ok None
        end
    end.

(** ** Prediction loop ([main] step 8, paper_replicate.py 317-338) *)

(** [row[c]] for a row of [df.iterrows()]. *)
Definition row_get (df : DataFrame) (c : string) (row : list value) : pyresult value :=
  match index_of c (names df) with
  | Some i => ok (cell i row)
  | None => raise (KeyError c)
  end.

(** The definition the prompt quotes for a construct. *)
Definition lookup_definition
  (get_close_matches : string -> list string -> nat -> Q -> list string)
  (construct_raw : string) : pyresult string :=
  let codebook := build_codebook in
  let cb_keys := map fst codebook in
  best <- map_construct_to_coded_column get_close_matches construct_raw cb_keys ;;
  let best_cb_key :=
    match best with
    | Some k => if String.eqb k EmptyString then construct_raw else k
    | None => construct_raw
    end in
  ok (match dict_get best_cb_key codebook with
      | Some d => d
      | None => "No definition available for this construct. Decide as best as you can."
      end).

(** The body of the loop for one row: the label and the warnings. *)
Definition predict_row (float_repr : float64 -> string)
  (get_close_matches : string -> list string -> nat -> Q -> list string)
  (client : string -> pyresult (option string))
  (df : DataFrame) (construct_col text_col : string) (row : list value)
  : pyresult (Z * list warning) :=
  c <- row_get df construct_col row ;;
  let construct_raw := py_str float_repr c in
  t <- row_get df text_col row ;;
  let snippet := py_str float_repr t in
  definition <- lookup_definition get_close_matches construct_raw ;;
  let prompt := ZERO_SHOT_TEMPLATE construct_raw definition snippet in
  llm_predict_binary client prompt.

(** The loop: the warnings emitted, and the predictions unless an
    exception ends the run. *)
Fixpoint predict_rows (float_repr : float64 -> string)
  (get_close_matches : string -> list string -> nat -> Q -> list string)
  (client : string -> pyresult (option string))
  (df : DataFrame) (construct_col text_col : string) (rows_ : list (list value))
  : list warning * pyresult (list Z) :=
  match rows_ with
  | [] => ([], ok [])
  | row :: rest =>
      match predict_row float_repr get_close_matches client df construct_col text_col row with
      | inl e => ([], raise e)
      | inr (yhat, warns) =>
          let '(warns', preds) :=
            predict_rows float_repr get_close_matches client df construct_col text_col rest in
          ((warns ++ warns')%list, (ps <- preds ;; ok (yhat :: ps)))
      end
  end.

Definition main_predict (float_repr : float64 -> string)
  (get_close_matches : string -> list string -> nat -> Q -> list string)
  (client : string -> pyresult (option string))
  (merged : DataFrame) (construct_col text_col : string)
  : list warning * pyresult (list Z) :=
  predict_rows float_repr get_close_matches client merged construct_col text_col
    (rows merged).

(** The last element of a list that passes a test. *)
Definition find_last {A : Type} (p : A -> bool) (l : list A) : option A :=
  find p (rev l).

(** A client that answers every prompt. *)
Definition answers_every_prompt (client : string -> pyresult (option string)) : Prop :=
  forall prompt, exists content, client prompt = ok content.

(** ** Expansion of the raw table ([main] step 3, paper_replicate.py 258-270) *)

(** The raw table with its construct column and canonical keys; the
    [KeyError] of the guard names the construct column. *)
Definition main_expand (float_repr : float64 -> string) (raw_df coded_df : DataFrame)
  (id_col : option string) (text_col construct_col : string) : pyresult DataFrame :=
  raw_df <-
    (if negb (has_column construct_col raw_df) then
       if negb (truthy id_col) || negb (opt_in_columns id_col raw_df)
       then raise (KeyError construct_col)
       else
         let constructs_from_coded := get_construct_list_from_coded coded_df id_col in
         expand_raw_by_constructs raw_df constructs_from_coded
           (match id_col with Some c => c | None => EmptyString end)
           text_col construct_col
     else ok raw_df) ;;
  (* Canonical construct for merge *)
  cs <- column_values raw_df construct_col ;;
  ok (set_column raw_df "_construct_canon" dt_object
        (map (fun v => VStr (canonical (match v with
                                         | VNone => None
                                         | _ => Some (py_str float_repr v)
                                         end))) cs)).

(** A raw table without construct column, and a wide coded table. *)
Definition raw_without_construct : DataFrame :=
  mkDF [mkColumn "sid" dt_int64; mkColumn "code_change_text" dt_object]
       [[VInt 1; VStr "x = 1"]; [VInt 3; VStr "y = 2"]].

Definition coded_wide : DataFrame :=
  mkDF [mkColumn "sid" dt_int64; mkColumn "Comment" dt_int64;
        mkColumn "Value Change" dt_int64]
       [[VInt 1; VInt 1; VInt 0]; [VInt 3; VInt 0; VInt 0]].

(** The columns of dtype object, in table order, and the key the text
    rule gives a column: the average length of its non-missing cells
    read as strings. *)
Definition object_columns (df : DataFrame) : list string :=
  filter (fun c => match dtype_of df c with
                   | inr d => dtype_is_object d
                   | inl _ => false
                   end) (names df).

Definition column_avg_len (float_repr : float64 -> string) (df : DataFrame) (c : string)
  : float64 :=
  match column_values df c with
  | inr s => avg_len float_repr s
  | inl _ => F64nan
  end.

Definition is_nan (f : float64) : bool :=
  match f with
  | F64nan => true
  | _ => false
  end.

(** The column the text rule renames.  Without object column it is the
    last column.  Otherwise it is an object column than which no object
    column has a greater average length; an average that is NaN (a
    column without non-missing cell) is neither greater nor smaller, so
    the first object column is taken when its average is NaN, and a
    column with a NaN average is taken in no other case. *)
Definition text_choice (float_repr : float64 -> string) (df : DataFrame) (best : string)
  : Prop :=
  match object_columns df with
  | [] => last_item (names df) = ok best
  | first :: _ =>
      In best (object_columns df) /\
      (forall c, In c (object_columns df) ->
                 float_gtb (column_avg_len float_repr df c)
                           (column_avg_len float_repr df best) = false) /\
      (if is_nan (column_avg_len float_repr df first)
       then best = first
       else is_nan (column_avg_len float_repr df best) = false)
  end.

(** A table whose first object column holds no value. *)
Definition raw_with_empty_remarks : DataFrame :=
  mkDF [mkColumn "remarks" dt_object; mkColumn "snippet" dt_object;
        mkColumn "score" dt_int64]
       [[VFloat F64nan; VStr "changed the loop bound"; VInt 3];
        [VFloat F64nan; VStr "x = 1"; VInt 1]].


(** * Properties *)

(** ** The name canonicaliser *)

Example canonical_ampersand :
  canonical (Some "Variable Usage & Assignment") = "variable usage and assignment".
Proof. reflexivity. Qed.

(** The two spellings of the specification have one canonical key. *)
Example canonical_variable_type_change :
  canonical (Some "Variable-type Change") = canonical (Some "variable type change").
Proof. reflexivity. Qed.

Example canonical_None : canonical None = EmptyString.
Proof. reflexivity. Qed.

(** C2. [canonical] is not idempotent: whitespace is collapsed before
    punctuation is removed, so a punctuation mark standing between two
    spaces leaves a double space that a second pass collapses.  On
    ["Value / Change"] one pass gives ["value  change"] and two passes
    give ["value change"], the key of ["Value Change"]. *)
Theorem canonical_not_idempotent_on_spaced_punctuation :
  canonical (Some "Value / Change") = "value  change" /\
  canonical (Some (canonical (Some "Value / Change"))) = "value change" /\
  canonical (Some (canonical (Some "Value / Change")))
    <> canonical (Some "Value / Change") /\
  canonical (Some "Value / Change") <> canonical (Some "Value Change").
Proof.
  repeat split; try reflexivity; vm_compute; discriminate.
Qed.

(** ** When canonicalisation is idempotent *)

Lemma az09_space_is_blank (c : ascii) :
  Py.is_az09_space c = true -> Py.is_space c = true -> c = " "%char.
Proof.
  destruct c as [[|] [|] [|] [|] [|] [|] [|] [|]]; vm_compute;
    intros H1 H2; try reflexivity; discriminate.
Qed.

Lemma az09_space_lower (c : ascii) :
  Py.is_az09_space c = true -> Py.lower_char c = c.
Proof.
  destruct c as [[|] [|] [|] [|] [|] [|] [|] [|]]; vm_compute;
    intros H; try reflexivity; discriminate.
Qed.

Lemma lower_fixed (s : string) :
  all_chars Py.is_az09_space s = true -> Py.lower s = s.
Proof.
  induction s as [|c s IH]; cbn [all_chars Py.lower]; [reflexivity|].
  intros H. apply andb_true_iff in H. destruct H as [Hc Hs].
  rewrite (az09_space_lower c Hc), (IH Hs). reflexivity.
Qed.

Lemma replace_char_absent (p : ascii -> bool) (x : ascii) (by_ s : string) :
  p x = false -> all_chars p s = true -> Py.replace_char x by_ s = s.
Proof.
  intros Hx. induction s as [|c s IH]; cbn [all_chars Py.replace_char]; [reflexivity|].
  intros H. apply andb_true_iff in H. destruct H as [Hc Hs].
  destruct (Ascii.eqb c x) eqn:E.
  - apply Ascii.eqb_eq in E. congruence.
  - rewrite (IH Hs). reflexivity.
Qed.

Lemma filter_chars_all (keep : ascii -> bool) (s : string) :
  all_chars keep s = true -> Py.filter_chars keep s = s.
Proof.
  induction s as [|c s IH]; cbn [all_chars Py.filter_chars]; [reflexivity|].
  intros H. apply andb_true_iff in H. destruct H as [Hc Hs].
  rewrite Hc, (IH Hs). reflexivity.
Qed.

Lemma collapse_ws_fixed (s : string) :
  forall in_run,
    all_chars Py.is_az09_space s = true ->
    no_double_space s = true ->
    (in_run = true -> starts_with_space s = false) ->
    Py.collapse_ws_from in_run s = s.
Proof.
  induction s as [|a s IH]; intros in_run Hall Hnd Hrun; [reflexivity|].
  cbn [all_chars] in Hall. apply andb_true_iff in Hall. destruct Hall as [Ha Hs].
  cbn [Py.collapse_ws_from]. destruct (Py.is_space a) eqn:Ea.
  - destruct in_run; [specialize (Hrun eq_refl); cbn in Hrun; congruence|].
    rewrite (az09_space_is_blank a Ha Ea). f_equal.
    apply IH; [exact Hs | | ].
    + cbn [no_double_space] in Hnd. destruct s; [reflexivity|].
      apply andb_true_iff in Hnd. exact (proj2 Hnd).
    + intros _. cbn [no_double_space] in Hnd. destruct s as [|b s]; [reflexivity|].
      apply andb_true_iff in Hnd. destruct Hnd as [Hab _].
      rewrite Ea in Hab. cbn [andb] in Hab. apply negb_true_iff in Hab. exact Hab.
  - f_equal. apply IH; [exact Hs | | discriminate].
    cbn [no_double_space] in Hnd. destruct s; [reflexivity|].
    apply andb_true_iff in Hnd. exact (proj2 Hnd).
Qed.

(** A key-shaped text (characters of [[a-z0-9 ]], no surrounding
    whitespace) without double space is its own canonical form. *)
Lemma canonical_fixed (y : string) :
  all_chars Py.is_az09_space y = true ->
  Py.strip y = y ->
  no_double_space y = true ->
  canonical (Some y) = y.
Proof.
  intros Hall Hstrip Hnd. unfold canonical. rewrite Hstrip.
  rewrite (lower_fixed y Hall).
  rewrite (replace_char_absent Py.is_az09_space "&"%char " and " y)
    by (reflexivity || exact Hall).
  rewrite (replace_char_absent Py.is_az09_space "-"%char " " y)
    by (reflexivity || exact Hall).
  unfold Py.collapse_ws.
  rewrite (collapse_ws_fixed y false Hall Hnd) by discriminate.
  rewrite (filter_chars_all _ y Hall). exact Hstrip.
Qed.

Lemma all_chars_filter (keep : ascii -> bool) (s : string) :
  all_chars keep (Py.filter_chars keep s) = true.
Proof.
  induction s as [|c s IH]; cbn [Py.filter_chars all_chars]; [reflexivity|].
  destruct (keep c) eqn:E; [cbn [all_chars]; rewrite E, IH; reflexivity | exact IH].
Qed.

Lemma all_chars_lstrip (p : ascii -> bool) (s : string) :
  all_chars p s = true -> all_chars p (Py.lstrip s) = true.
Proof.
  induction s as [|c s IH]; cbn [Py.lstrip all_chars]; [reflexivity|].
  intros H. destruct (Py.is_space c); [|exact H].
  apply andb_true_iff in H. exact (IH (proj2 H)).
Qed.

Lemma all_chars_rstrip (p : ascii -> bool) (s : string) :
  all_chars p s = true -> all_chars p (Py.rstrip s) = true.
Proof.
  induction s as [|c s IH]; cbn [Py.rstrip all_chars]; [reflexivity|].
  intros H. apply andb_true_iff in H. destruct H as [Hc Hs]. specialize (IH Hs).
  destruct (Py.rstrip s) as [|d r].
  - destruct (Py.is_space c); [reflexivity | cbn [all_chars]; rewrite Hc; reflexivity].
  - cbn [all_chars] in *. rewrite Hc, IH. reflexivity.
Qed.

Lemma rstrip_idempotent (s : string) : Py.rstrip (Py.rstrip s) = Py.rstrip s.
Proof.
  induction s as [|c s IH]; [reflexivity|]. cbn [Py.rstrip].
  destruct (Py.rstrip s) as [|d r] eqn:E.
  - destruct (Py.is_space c) eqn:Ec; [reflexivity|].
    cbn [Py.rstrip]. rewrite Ec. reflexivity.
  - change (Py.rstrip (String c (String d r)))
      with (match Py.rstrip (String d r) with
            | EmptyString => if Py.is_space c then EmptyString else String c EmptyString
            | r' => String c r'
            end).
    rewrite IH. reflexivity.
Qed.

Lemma rstrip_starts_with_space (s : string) :
  starts_with_space s = false -> starts_with_space (Py.rstrip s) = false.
Proof.
  destruct s as [|c s]; [reflexivity|]. cbn [starts_with_space Py.rstrip].
  intros Hc. destruct (Py.rstrip s); [rewrite Hc|]; cbn [starts_with_space]; exact Hc.
Qed.

Lemma lstrip_starts_with_space (s : string) : starts_with_space (Py.lstrip s) = false.
Proof.
  induction s as [|c s IH]; [reflexivity|]. cbn [Py.lstrip].
  destruct (Py.is_space c) eqn:E; [exact IH | exact E].
Qed.

Lemma lstrip_fixed (s : string) : starts_with_space s = false -> Py.lstrip s = s.
Proof.
  destruct s as [|c s]; [reflexivity|]. cbn [starts_with_space Py.lstrip].
  intros ->. reflexivity.
Qed.

Lemma strip_idempotent (s : string) : Py.strip (Py.strip s) = Py.strip s.
Proof.
  unfold Py.strip.
  rewrite (lstrip_fixed (Py.rstrip (Py.lstrip s)))
    by (apply rstrip_starts_with_space, lstrip_starts_with_space).
  apply rstrip_idempotent.
Qed.

(** The shape of every canonical key. *)
Lemma canonical_shape (x : option string) :
  all_chars Py.is_az09_space (canonical x) = true /\
  Py.strip (canonical x) = canonical x.
Proof.
  destruct x as [s|]; [|split; reflexivity]. unfold canonical. split.
  - unfold Py.strip. apply all_chars_rstrip, all_chars_lstrip, all_chars_filter.
  - apply strip_idempotent.
Qed.

(** A second pass changes nothing when the key has no double space. *)
Lemma canonical_idempotent_without_double_space (x : option string) :
  no_double_space (canonical x) = true ->
  canonical (Some (canonical x)) = canonical x.
Proof.
  intros H. destruct (canonical_shape x) as [Hall Hstrip].
  apply canonical_fixed; assumption.
Qed.

(** ** Conversion of texts to floats *)

Example float_of_str_examples :
  float_of_str "12345.0" = Some (F64 12345) /\
  float_of_str "0.1" = Some (F64 (3602879701896397 # 36028797018963968)) /\
  float_of_str " 1_000.5e-1 " = Some (F64 (7040392854975283 # 70368744177664)) /\
  float_of_str "9007199254740993" = Some (F64 9007199254740992) /\
  float_of_str "1e400" = Some (F64inf false) /\
  float_of_str "-Infinity" = Some (F64inf true) /\
  float_of_str "NaN" = Some F64nan /\
  float_of_str "abc-1" = None /\
  float_of_str "1__0" = None /\
  float_of_str "." = None.
Proof. repeat split; vm_compute; reflexivity. Qed.

(** The tolerance is the double nearest to 1e-9. *)
Example ID_INT_TOL_value : ID_INT_TOL = 4835703278458517 # 4835703278458516698824704.
Proof. vm_compute. reflexivity. Qed.

(** ** The identifier normaliser *)

(** C3. The int 12345 and the strings ["12345.0"] and ["12345.00"]
    normalise to the string ["12345"]; the non-numeric ["abc-1"]
    normalises to itself, stripped; a missing value (None or NaN)
    normalises to missing. *)
Theorem normalize_id_merge_invariant (float_repr : float64 -> string) :
  _normalize_id_value float_repr (VInt 12345) = Some "12345" /\
  _normalize_id_value float_repr (VStr "12345.0") = Some "12345" /\
  _normalize_id_value float_repr (VStr "12345.00") = Some "12345" /\
  _normalize_id_value float_repr (VStr "abc-1") = Some "abc-1" /\
  _normalize_id_value float_repr (VStr "  abc-1 ") = Some "abc-1" /\
  _normalize_id_value float_repr VNone = None /\
  _normalize_id_value float_repr (VFloat F64nan) = None.
Proof.
  repeat split; vm_compute; reflexivity.
Qed.

(** A float cell that holds an integer normalises like the integer. *)
Example normalize_id_float_cell (float_repr : float64 -> string) :
  _normalize_id_value float_repr (VFloat (F64 12345)) = Some "12345".
Proof. vm_compute. reflexivity. Qed.

(** ** The scoring engine *)

(** C5. On the single-class group true = [1,1,1,1], pred = [1,1,1,1] the
    coefficient is 0/0: [cohen_kappa_score] returns NaN without raising,
    the guard of the loop catches nothing, and the record carries NaN,
    not an absent value. *)
Theorem degenerate_kappa_is_reported_as_nan (c : value) :
  cohen_kappa_score [1; 1; 1; 1] [1; 1; 1; 1] = ok F64nan /\
  construct_metrics c four_agreeing_positives
  = ok (mkMetrics c (Some (F64 (4 # 4))) (Some F64nan)
                  (Some (F64 (4 # 4))) (Some (F64 (4 # 4))) 4).
Proof.
  split; reflexivity.
Qed.

(** ** The renderer *)

(** C9. A construct without evaluable rows gives a record whose metrics
    are absent; [pretty_format] raises on the document holding it, at
    the conversion of the missing frequency to an integer. *)
Theorem pretty_format_raises_on_absent_frequency :
  construct_metrics (VStr "Comment") [(VFloat F64nan, VInt 0)] = ok unlabelled_record /\
  pretty_format (metrics_document [unlabelled_record]) = raise ValueError /\
  exists overall records,
    main_evaluate merged_partly_labelled "construct_name" [1; 0; 0]
    = ok (overall, records) /\
    In unlabelled_record records /\
    pretty_format (metrics_document records) = raise ValueError.
Proof.
  split; [reflexivity|]. split; [reflexivity|].
  do 2 eexists. split; [vm_compute; reflexivity|].
  split; [left; reflexivity | vm_compute; reflexivity].
Qed.

Example pretty_format_accepts_full_record :
  pretty_format
    (metrics_document
       [mkMetrics (VStr "Comment") (Some (round64 (1 # 3))) (Some F64nan)
                  (Some (round64 (2 # 3))) (Some (F64 (1 # 8))) 4;
        mkMetrics (VStr "Testing") (Some (round64 (109 # 200))) (Some (F64 0))
                  (Some (round64 (109 # 200))) (Some (F64 1)) 200])
  = ok (mkDF [mkColumn "construct" dt_object; mkColumn "freq_in_data" dt_object;
              mkColumn "hum_gpt_kappa" dt_float64;
              mkColumn "hum_gpt_precision" dt_float64;
              mkColumn "hum_gpt_recall" dt_float64]
             [[VStr "Comment"; VStr "33%"; VFloat F64nan;
               VFloat (round64 (67 # 100)); VFloat (round64 (12 # 100))];
              [VStr "Testing"; VStr "55%"; VFloat (F64 0);
               VFloat (round64 (55 # 100)); VFloat (F64 1)]]).
Proof. vm_compute. reflexivity. Qed.

(** ** The left merge *)

Lemma index_of_present (c : string) (l : list string) :
  in_list c l = true -> exists i, index_of c l = Some i /\ (i < length l)%nat.
Proof.
  induction l as [|x l IH]; simpl; [discriminate|].
  unfold in_list in *. simpl. destruct (String.eqb c x) eqn:E; intros H.
  - exists O. split; [reflexivity | lia].
  - destruct (IH H) as [i [Hi Hlt]]. rewrite Hi. exists (S i). split; [reflexivity | lia].
Qed.

Lemma index_of_absent (c : string) (l : list string) :
  in_list c l = false -> index_of c l = None.
Proof.
  induction l as [|x l IH]; simpl; [reflexivity|].
  unfold in_list in *. simpl. destruct (String.eqb c x); simpl; [discriminate|].
  intros H. rewrite (IH H). reflexivity.
Qed.

Lemma map_m_ok {A B : Type} (f : A -> pyresult B) (g : A -> B) (l : list A) :
  (forall x, In x l -> f x = ok (g x)) -> map_m f l = ok (map g l).
Proof.
  induction l as [|x l IH]; intros H; simpl; [reflexivity|].
  rewrite (H x (or_introl eq_refl)). simpl.
  rewrite IH by (intros y Hy; apply H; right; exact Hy). reflexivity.
Qed.

Lemma indices_of_present (on : list string) (df : DataFrame) :
  Forall (fun k => has_column k df = true) on ->
  exists idx, indices_of on df = ok idx /\ length idx = length on.
Proof.
  unfold indices_of. induction on as [|k on IH]; intros H; simpl.
  - exists []. split; reflexivity.
  - inversion H as [|? ? Hk Hon]; subst.
    destruct (index_of_present _ _ Hk) as [i [Hi _]]. rewrite Hi. simpl.
    destruct (IH Hon) as [idx [Hidx Hlen]]. rewrite Hidx. simpl.
    exists (i :: idx). split; [reflexivity | simpl; congruence].
Qed.

Lemma firstn_app_exact {A : Type} (l l' : list A) (n : nat) :
  length l = n -> firstn n (l ++ l') = l.
Proof.
  intros <-. rewrite firstn_app, Nat.sub_diag, firstn_all. simpl. apply app_nil_r.
Qed.

Lemma join_row_raw_part (n : nat) (lidx ridx rest : list nat)
  (rrows : list (list value)) (l : list value) :
  length l = n ->
  map (firstn n) (join_row lidx ridx rest rrows l)
  = repeat l (Nat.max 1 (length (matches_of (map (fun i => cell i l) lidx) ridx rrows))).
Proof.
  intros Hl. unfold join_row.
  destruct (matches_of _ ridx rrows) as [|m ms]; simpl.
  - rewrite firstn_app_exact by exact Hl. reflexivity.
  - rewrite firstn_app_exact by exact Hl. f_equal.
    induction ms as [|m' ms IH]; simpl; [reflexivity|].
    rewrite firstn_app_exact by exact Hl. f_equal. exact IH.
Qed.

Lemma flat_map_join_raw_part (n : nat) (lidx ridx rest : list nat)
  (rrows ls : list (list value)) :
  Forall (fun r => length r = n) ls ->
  map (firstn n) (flat_map (join_row lidx ridx rest rrows) ls)
  = flat_map (fun l => repeat l (Nat.max 1
                (length (matches_of (map (fun i => cell i l) lidx) ridx rrows)))) ls.
Proof.
  induction 1 as [|l ls Hlen _ IH]; cbn [flat_map map]; [reflexivity|].
  rewrite map_app, IH, join_row_raw_part by exact Hlen. reflexivity.
Qed.

Lemma flat_map_repeat_once {A : Type} (k : A -> nat) (ls : list A) :
  (forall l, In l ls -> (k l <= 1)%nat) ->
  flat_map (fun l => repeat l (Nat.max 1 (k l))) ls = ls.
Proof.
  induction ls as [|l ls IH]; intros H; cbn [flat_map]; [reflexivity|].
  replace (Nat.max 1 (k l)) with 1%nat
    by (specialize (H l (or_introl eq_refl)); lia).
  rewrite IH by (intros l' Hin; apply H; right; exact Hin). reflexivity.
Qed.

(** C1, as stated, fails: one raw row whose key is shared by two coded
    rows comes out twice. *)
Lemma left_merge_duplicates_raw_row :
  ~ (forall merged,
       pd_merge_left raw_one_row coded_two_entities ["_construct_canon"] = ok merged ->
       map (raw_part raw_one_row) (rows merged) = rows raw_one_row).
Proof.
  intros H. specialize (H _ eq_refl). vm_compute in H. discriminate H.
Qed.

Lemma dtype_eqb_refl (d : dtype) : dtype_eqb d d = true.
Proof. destruct d; reflexivity. Qed.

Lemma merge_key_ok_same_dtype (d : dtype) (lk rk : list value) :
  merge_key_ok d d lk rk = true.
Proof.
  unfold merge_key_ok. rewrite dtype_eqb_refl. destruct lk, rk; reflexivity.
Qed.

Lemma dtype_of_at (df : DataFrame) (k : string) (i : nat) :
  index_of k (names df) = Some i ->
  dtype_of df k = ok (cdtype (nth i (columns df) (mkColumn EmptyString dt_object))).
Proof.
  intros H. unfold dtype_of. rewrite H.
  change dt_object with (cdtype (mkColumn EmptyString dt_object)) at 1.
  rewrite map_nth. reflexivity.
Qed.

Lemma indices_of_cons (k : string) (on : list string) (df : DataFrame) (idx : list nat) :
  indices_of (k :: on) df = ok idx ->
  exists i idx',
    index_of k (names df) = Some i /\ indices_of on df = ok idx' /\ idx = i :: idx'.
Proof.
  unfold indices_of. cbn [map_m].
  destruct (index_of k (names df)) as [i|]; [|discriminate].
  cbn [bind ok]. destruct (map_m _ on) as [e|idx']; [discriminate|].
  cbn [bind ok]. intros [= <-]. exists i, idx'. repeat split.
Qed.

(** Accepted keys pass the check of the merge. *)
Lemma check_merge_keys_accepted (left right : DataFrame) (on : list string) :
  forall lidx ridx,
    indices_of on left = ok lidx ->
    indices_of on right = ok ridx ->
    merge_keys_accepted left right on ->
    check_merge_keys left right lidx ridx = ok tt.
Proof.
  unfold merge_keys_accepted.
  induction on as [|k on IH]; intros lidx ridx Hl Hr Hacc.
  - unfold indices_of in Hl. cbn [map_m] in Hl. unfold ok in Hl. injection Hl as <-.
    reflexivity.
  - destruct (indices_of_cons _ _ _ _ Hl) as [i [lidx' [Ei [Hl' ->]]]].
    destruct (indices_of_cons _ _ _ _ Hr) as [j [ridx' [Ej [Hr' ->]]]].
    inversion Hacc as [|? ? Hk Hon]; subst.
    unfold key_accepted in Hk.
    rewrite (dtype_of_at _ _ _ Ei), (dtype_of_at _ _ _ Ej) in Hk.
    unfold column_values in Hk. rewrite Ei, Ej in Hk. unfold ok in Hk.
    cbn [check_merge_keys]. rewrite Hk.
    exact (IH lidx' ridx' Hl' Hr' Hon).
Qed.

(** Keys that are on both sides with equal dtypes are accepted. *)
Lemma same_key_dtypes_accepted (left right : DataFrame) (on : list string) :
  Forall (fun k => has_column k left = true) on ->
  Forall (fun k => has_column k right = true) on ->
  same_key_dtypes left right on ->
  merge_keys_accepted left right on.
Proof.
  unfold same_key_dtypes, merge_keys_accepted. rewrite !Forall_forall.
  intros Hl Hr Hsame k Hk.
  specialize (Hl k Hk). specialize (Hr k Hk). specialize (Hsame k Hk).
  destruct (index_of_present _ _ Hl) as [i [Ei _]].
  destruct (index_of_present _ _ Hr) as [j [Ej _]].
  rewrite (dtype_of_at _ _ _ Ei), (dtype_of_at _ _ _ Ej) in Hsame.
  unfold ok in Hsame. injection Hsame as Hsame.
  unfold key_accepted.
  rewrite (dtype_of_at _ _ _ Ei), (dtype_of_at _ _ _ Ej).
  unfold column_values. rewrite Ei, Ej. unfold ok.
  rewrite Hsame. apply merge_key_ok_same_dtype.
Qed.

(** C1, amended.  The left merge on keys that are on both sides and that
    the check of the key dtypes accepts (as it does keys of equal
    dtype) returns a table in which every raw row is kept, in order: a
    raw row without matching coded row appears once, padded with
    missing values, and a raw row whose key is shared by k >= 1 coded
    rows appears k times.  So each raw row appears exactly once when at
    most one coded row shares its key. *)
Theorem left_merge_keeps_every_raw_row (raw coded : DataFrame) (on : list string) :
  well_formed raw ->
  Forall (fun k => has_column k raw = true) on ->
  Forall (fun k => has_column k coded = true) on ->
  merge_keys_accepted raw coded on ->
  exists merged,
    pd_merge_left raw coded on = ok merged /\
    map (raw_part raw) (rows merged)
    = flat_map (fun l => repeat l (Nat.max 1 (match_count raw coded on l))) (rows raw) /\
    (forall l, In l (rows raw) -> match_count raw coded on l = O ->
               In (l ++ missing_labels coded on)%list (rows merged)) /\
    ((forall l, In l (rows raw) -> (match_count raw coded on l <= 1)%nat) ->
     map (raw_part raw) (rows merged) = rows raw).
Proof.
  intros Hwf Hl Hr Hacc.
  destruct (indices_of_present _ _ Hl) as [lidx [Hlidx _]].
  destruct (indices_of_present _ _ Hr) as [ridx [Hridx _]].
  unfold pd_merge_left. rewrite Hlidx, Hridx. cbn [bind ok].
  rewrite (check_merge_keys_accepted raw coded on lidx ridx Hlidx Hridx Hacc).
  cbn [bind ok]. cbv zeta.
  eexists. split; [reflexivity|]. cbn [rows].
  assert (Hcount : forall l,
             match_count raw coded on l
             = length (matches_of (map (fun i => cell i l) lidx) ridx (rows coded))).
  { intros l. unfold match_count. rewrite Hlidx, Hridx. reflexivity. }
  assert (Hproj :
            map (raw_part raw)
                (flat_map (join_row lidx ridx (positions_not_in on coded) (rows coded))
                          (rows raw))
            = flat_map (fun l => repeat l (Nat.max 1 (match_count raw coded on l)))
                       (rows raw)).
  { unfold raw_part. rewrite flat_map_join_raw_part by exact Hwf.
    apply flat_map_ext. intros l. rewrite Hcount. reflexivity. }
  split; [exact Hproj|]. split.
  - intros l Hin Hzero. apply in_flat_map. exists l. split; [exact Hin|].
    unfold join_row. rewrite Hcount in Hzero.
    destruct (matches_of _ ridx (rows coded)); [|discriminate Hzero].
    left. reflexivity.
  - intros Hone. rewrite Hproj. apply flat_map_repeat_once. exact Hone.
Qed.

(** The theorem on tables where the first raw row has one coded row and
    the second has none: both rows come out once, the second with a
    missing label. *)
Lemma left_merge_keeps_every_raw_row_witness :
  exists merged,
    pd_merge_left raw_keyed coded_keyed ["_id_key"; "_construct_canon"] = ok merged /\
    map (raw_part raw_keyed) (rows merged) = rows raw_keyed /\
    In [VStr "3"; VStr "y = 2"; VStr "comment"; VFloat F64nan] (rows merged).
Proof.
  destruct (left_merge_keeps_every_raw_row raw_keyed coded_keyed
              ["_id_key"; "_construct_canon"])
    as [merged [Hm [_ [Hunmatched Honce]]]].
  - repeat constructor.
  - repeat constructor.
  - repeat constructor.
  - repeat constructor.
  - exists merged. split; [exact Hm|]. split.
    + apply Honce. intros l [<- | [<- | []]]; vm_compute; repeat constructor.
    + apply (Hunmatched [VStr "3"; VStr "y = 2"; VStr "comment"]).
      * right. left. reflexivity.
      * reflexivity.
Defined.

(** The check of the key dtypes: an identifier column without any
    identifier gives float64 keys, and the merge with string keys is
    refused. *)
Example merge_refuses_missing_ids_against_strings :
  main_merge (fun _ => "nan") (Some "sid") "construct_name"
    (mkDF [mkColumn "sid" dt_float64; mkColumn "code_change_text" dt_object;
           mkColumn "construct_name" dt_object; mkColumn "_construct_canon" dt_object]
          [[VFloat F64nan; VStr "x = 1"; VStr "Comment"; VStr "comment"]])
    coded_with_id
  = ([], raise ValueError).
Proof. vm_compute. reflexivity. Qed.

(** ** The merge planner *)

Lemma index_of_nth (c : string) (l : list string) (i : nat) :
  index_of c l = Some i -> nth i l EmptyString = c /\ (i < length l)%nat.
Proof.
  revert i. induction l as [|x l IH]; intros i; simpl; [discriminate|].
  destruct (String.eqb c x) eqn:E.
  - intros [= <-]. apply String.eqb_eq in E. split; [symmetry; exact E | lia].
  - destruct (index_of c l) as [j|]; [|discriminate].
    intros [= <-]. destruct (IH j eq_refl) as [Hn Hl]. split; [exact Hn | lia].
Qed.

Lemma replace_nth_names (i : nat) (c : string) (d : dtype) (cols : list Column) :
  nth i (map cname cols) EmptyString = c -> (i < length cols)%nat ->
  map cname (replace_nth i (mkColumn c d) cols) = map cname cols.
Proof.
  revert i. induction cols as [|x cols IH]; intros i Hn Hl; simpl in *; [lia|].
  destruct i as [|i]; simpl.
  - rewrite Hn. reflexivity.
  - rewrite IH; [reflexivity | exact Hn | lia].
Qed.

Lemma names_set_column (df : DataFrame) (c : string) (d : dtype) (vals : list value) :
  names (set_column df c d vals)
  = if in_list c (names df) then names df else (names df ++ [c])%list.
Proof.
  unfold set_column. destruct (in_list c (names df)) eqn:E.
  - destruct (index_of_present _ _ E) as [i [Hi Hlt]]. rewrite Hi.
    destruct (index_of_nth _ _ _ Hi) as [Hn _].
    unfold names in *. simpl. rewrite length_map in Hlt.
    apply replace_nth_names; assumption.
  - rewrite (index_of_absent _ _ E). unfold names. simpl.
    rewrite map_app. reflexivity.
Qed.

Lemma in_list_app (c : string) (l l' : list string) :
  in_list c (l ++ l') = in_list c l || in_list c l'.
Proof. unfold in_list. apply existsb_app. Qed.

Lemma has_column_set_column_same (df : DataFrame) (c : string) (d : dtype)
  (vals : list value) : has_column c (set_column df c d vals) = true.
Proof.
  unfold has_column. rewrite names_set_column.
  destruct (in_list c (names df)) eqn:E; [exact E|].
  rewrite in_list_app. unfold in_list at 2. simpl. rewrite String.eqb_refl.
  apply orb_true_iff. right. reflexivity.
Qed.

Lemma has_column_set_column_other (df : DataFrame) (c k : string) (d : dtype)
  (vals : list value) :
  has_column k df = true -> has_column k (set_column df c d vals) = true.
Proof.
  unfold has_column. rewrite names_set_column. intros H.
  destruct (in_list c (names df)); [exact H|].
  rewrite in_list_app, H. reflexivity.
Qed.

Lemma column_values_present (df : DataFrame) (c : string) :
  has_column c df = true -> exists vals, column_values df c = ok vals.
Proof.
  intros H. destruct (index_of_present _ _ H) as [i [Hi _]].
  unfold column_values. rewrite Hi. eexists. reflexivity.
Qed.

Lemma add_id_key_returns (float_repr : float64 -> string) (id_col : option string)
  (df : DataFrame) :
  exists df',
    add_id_key float_repr id_col df = ok df' /\
    (forall k, has_column k df = true -> has_column k df' = true) /\
    (truthy id_col = true -> opt_in_columns id_col df = true ->
     has_column "_id_key" df' = true).
Proof.
  unfold add_id_key. destruct id_col as [c|]; simpl.
  - destruct (negb (c =? EmptyString)%string) eqn:Et; simpl.
    + destruct (has_column c df) eqn:Ec.
      * destruct (column_values_present _ _ Ec) as [vals Hv]. rewrite Hv. simpl.
        eexists. split; [reflexivity|]. split.
        -- intros k Hk. apply has_column_set_column_other. exact Hk.
        -- intros _ _. apply has_column_set_column_same.
      * exists df. split; [reflexivity|]. split; [auto | discriminate].
    + exists df. split; [reflexivity|]. split; [auto | discriminate].
  - exists df. split; [reflexivity|]. split; [auto | discriminate].
Qed.

Lemma names_select (df : DataFrame) (cols : list string) (sel : DataFrame) :
  select df cols = ok sel -> names sel = cols.
Proof.
  unfold select, indices_of. revert sel.
  assert (H : forall idx,
             map_m (fun c => match index_of c (names df) with
                             | Some i => ok i
                             | None => raise (KeyError c)
                             end) cols = ok idx ->
             map cname (map (fun i => nth i (columns df) (mkColumn EmptyString dt_object)) idx)
             = cols).
  { induction cols as [|c cols IH]; intros idx; simpl.
    - intros [= <-]. reflexivity.
    - destruct (index_of c (names df)) as [i|] eqn:Ei; [|discriminate]. simpl.
      destruct (map_m _ cols) as [e|idx']; [discriminate|]. simpl.
      intros [= <-]. simpl. rewrite (IH idx' eq_refl). f_equal.
      destruct (index_of_nth _ _ _ Ei) as [Hn _]. unfold names in Hn.
      rewrite <- Hn. change EmptyString with (cname (mkColumn EmptyString dt_object)).
      symmetry. apply map_nth. }
  intros sel. destruct (map_m _ cols) as [e|idx] eqn:E; [discriminate|]. simpl.
  intros [= <-]. unfold names. simpl. apply H. reflexivity.
Qed.

Lemma select_present (df : DataFrame) (cols : list string) :
  Forall (fun k => has_column k df = true) cols ->
  exists sel, select df cols = ok sel /\ names sel = cols.
Proof.
  intros H. destruct (indices_of_present _ _ H) as [idx [Hidx _]].
  assert (Hs : exists sel, select df cols = ok sel).
  { unfold select. rewrite Hidx. eexists. reflexivity. }
  destruct Hs as [sel Hs]. exists sel. split; [exact Hs|].
  exact (names_select _ _ _ Hs).
Qed.

Lemma choose_merge_keys_spec (id_col : option string) (raw_df coded_long : DataFrame) :
  choose_merge_keys id_col raw_df coded_long
  = if id_on_both_sides id_col raw_df coded_long
    then (["_id_key"; "_construct_canon"], [])
    else (["_construct_canon"], [WarnConstructOnlyMerge id_col]).
Proof.
  unfold choose_merge_keys, id_on_both_sides.
  destruct (truthy id_col), (opt_in_columns id_col raw_df),
    (opt_in_columns id_col coded_long); reflexivity.
Qed.

(** C4. The merge keys are (canonical identifier, canonical construct
    key) exactly when an identifier column was supplied and both the raw
    table and the long-form coded table contain it; otherwise the keys
    are the canonical construct key alone and one warning is emitted.
    The run does not always go on after that warning: on a coded table
    with one label column and no construct column, read with
    [--label_col], step 4 announces a merge by identifier only, the
    planner falls back to the construct key alone with its warning, and
    the selection of the key columns raises [KeyError]. *)
Theorem fallback_merge_raises_without_construct_column
  (float_repr : float64 -> string) (to_numeric_str : string -> option float64) :
  (forall id_col raw_df coded_long,
      choose_merge_keys id_col raw_df coded_long
      = if id_on_both_sides id_col raw_df coded_long
        then (["_id_key"; "_construct_canon"], [])
        else (["_construct_canon"], [WarnConstructOnlyMerge id_col])) /\
  (forall id_col construct_col raw_df coded_long,
      fst (main_merge float_repr id_col construct_col raw_df coded_long)
      = snd (choose_merge_keys id_col raw_df coded_long)) /\
  main_prepare_coded float_repr to_numeric_str coded_single_label None
    "construct_name" (Some "label")
  = ([WarnLabelsMergedByIdOnly "construct_name"],
     ok (rename coded_single_label "label" "human_label")) /\
  main_merge float_repr None "construct_name" raw_one_row
    (rename coded_single_label "label" "human_label")
  = ([WarnConstructOnlyMerge None], raise (KeyError "_construct_canon")).
Proof.
  split; [exact choose_merge_keys_spec|]. split.
  - intros id_col construct_col raw_df coded_long. unfold main_merge.
    destruct (choose_merge_keys id_col raw_df coded_long) as [keys warns].
    reflexivity.
  - split; reflexivity.
Qed.

(** The identifier column present on the raw side only: construct-only
    keys, one warning, and the merge is carried out. *)
Example fallback_merge_when_coded_lacks_id :
  main_merge (fun _ => "nan") (Some "sid") "construct_name" raw_with_id coded_two_entities
  = ([WarnConstructOnlyMerge (Some "sid")],
     ok (["_construct_canon"],
         mkDF [mkColumn "sid" dt_int64; mkColumn "code_change_text" dt_object;
               mkColumn "construct_name" dt_object; mkColumn "_construct_canon" dt_object;
               mkColumn "_id_key" dt_object; mkColumn "human_label" dt_float64]
              [[VInt 1; VStr "x = 1"; VStr "Comment"; VStr "comment"; VStr "1"; VInt 1];
               [VInt 1; VStr "x = 1"; VStr "Comment"; VStr "comment"; VStr "1"; VInt 0];
               [VInt 3; VStr "y = 2"; VStr "Comment"; VStr "comment"; VStr "3"; VInt 1];
               [VInt 3; VStr "y = 2"; VStr "Comment"; VStr "comment"; VStr "3"; VInt 0]])).
Proof. vm_compute. reflexivity. Qed.

Example id_merge_matches_normalised_ids :
  main_merge (fun _ => "nan") (Some "sid") "construct_name" raw_with_id coded_with_id
  = ([],
     ok (["_id_key"; "_construct_canon"],
         mkDF [mkColumn "sid" dt_int64; mkColumn "code_change_text" dt_object;
               mkColumn "construct_name" dt_object; mkColumn "_construct_canon" dt_object;
               mkColumn "_id_key" dt_object; mkColumn "human_label" dt_float64]
              [[VInt 1; VStr "x = 1"; VStr "Comment"; VStr "comment"; VStr "1"; VInt 1];
               [VInt 3; VStr "y = 2"; VStr "Comment"; VStr "comment"; VStr "3";
                VFloat F64nan]])).
Proof. vm_compute. reflexivity. Qed.

(** ** Precision, recall and frequency *)

Lemma count_cons {A : Type} (p : A -> bool) (x : A) (l : list A) :
  count p (x :: l) = (if p x then 1 else 0) + count p l.
Proof.
  unfold count. simpl. destruct (p x); simpl length; lia.
Qed.

Lemma count_nonneg {A : Type} (p : A -> bool) (l : list A) : 0 <= count p l.
Proof. unfold count. lia. Qed.

Lemma has_label_astype (z : Z) (v : value) :
  has_label z v = true -> astype_int v = ok z.
Proof.
  unfold has_label. destruct (astype_int v) as [e|x]; [discriminate|].
  intros H. apply Z.eqb_eq in H. subst. reflexivity.
Qed.

Lemma binary_cell_astype (v : value) :
  binary_cell v -> exists z, astype_int v = ok z /\ (z = 0 \/ z = 1).
Proof.
  intros [H|H]; apply has_label_astype in H; eauto.
Qed.

Lemma has_label_of_astype (v : value) (x z : Z) :
  astype_int v = ok x -> has_label z v = (x =? z).
Proof. unfold has_label. intros ->. reflexivity. Qed.

Lemma n_evaluable_cons (h p : value) (g : list (value * value)) :
  n_evaluable ((h, p) :: g) = (if isna h then 0 else 1) + n_evaluable g.
Proof.
  unfold n_evaluable. rewrite count_cons. unfold labelled. cbn [fst].
  destruct (isna h); reflexivity.
Qed.

Lemma n_where_cons (t p : option Z) (h q : value) (g : list (value * value)) :
  n_where t p ((h, q) :: g)
  = (if negb (isna h)
        && match t with Some z => has_label z h | None => true end
        && match p with Some z => has_label z q | None => true end
     then 1 else 0) + n_where t p g.
Proof.
  unfold n_where. rewrite count_cons. unfold labelled. cbn [fst snd]. reflexivity.
Qed.

(** The evaluable rows of a binary group convert to integer pairs
    without error, and the counts over the cells are the counts over
    the pairs. *)
Lemma evaluable_rows_convert (g : list (value * value)) :
  Forall binary_row g ->
  exists ys : list (Z * Z),
    Forall binary_pair ys /\
    map_m astype_int (map fst (filter (fun '(h, _) => negb (isna h)) g)) = ok (map fst ys) /\
    map_m astype_int (map snd (filter (fun '(h, _) => negb (isna h)) g)) = ok (map snd ys) /\
    length (filter (fun '(h, _) => negb (isna h)) g) = length ys /\
    n_evaluable g = Z.of_nat (length ys) /\
    (forall t p,
        n_where t p g
        = count (fun y => match t with Some z => fst y =? z | None => true end
                          && match p with Some z => snd y =? z | None => true end) ys).
Proof.
  induction 1 as [|[h p] g Hrow _ IH].
  - exists []. repeat split; try reflexivity. constructor.
  - destruct IH as [ys [Hbin [Ht [Hp [Hlen [Hn Hc]]]]]].
    destruct (isna h) eqn:Ena.
    + exists ys. cbn [filter]. rewrite Ena. cbn [negb].
      repeat split; try assumption.
      * rewrite n_evaluable_cons, Ena. exact Hn.
      * intros t q. rewrite n_where_cons, Ena. cbn [negb andb]. apply Hc.
    + destruct Hrow as [Hrow|[Hh Hq]]; [cbn [fst] in Hrow; congruence|].
      cbn [fst snd] in Hh, Hq.
      destruct (binary_cell_astype _ Hh) as [t [Hat Htb]].
      destruct (binary_cell_astype _ Hq) as [q [Haq Hqb]].
      exists ((t, q) :: ys). cbn [filter]. rewrite Ena. cbn [negb map map_m fst snd].
      rewrite Hat, Haq, Ht, Hp. cbn [bind ok].
      repeat split; try reflexivity.
      * constructor; [split; assumption | exact Hbin].
      * cbn [length]. congruence.
      * rewrite n_evaluable_cons, Ena, Hn. cbn [length]. lia.
      * intros t' q'. rewrite n_where_cons, Ena, Hc, count_cons. cbn [negb andb fst snd].
        destruct t' as [zt|], q' as [zq|];
          rewrite ?(has_label_of_astype _ _ _ Hat), ?(has_label_of_astype _ _ _ Haq);
          reflexivity.
Qed.

Lemma combine_fst_snd {A B : Type} (l : list (A * B)) :
  combine (map fst l) (map snd l) = l.
Proof.
  induction l as [|[a b] l IH]; simpl; [reflexivity|]. rewrite IH. reflexivity.
Qed.

(** The labels present in binary vectors: none, 0, 1, or 0 and 1. *)
Lemma unique_labels_binary (l : list Z) :
  Forall (fun z => z = 0 \/ z = 1) l ->
  let u := fold_right insert_label [] l in
  u = [] \/ u = [0] \/ u = [1] \/ u = [0; 1].
Proof.
  induction 1 as [|z l Hz _ IH]; simpl; [left; reflexivity|].
  simpl in IH.
  destruct Hz as [-> | ->];
    destruct IH as [-> | [-> | [-> | ->]]]; simpl; auto.
Qed.

Lemma check_binary_accepts (ys : list (Z * Z)) :
  Forall binary_pair ys -> check_binary (map fst ys) (map snd ys) = ok tt.
Proof.
  intros H. unfold check_binary, unique_labels.
  assert (Hall : Forall (fun z => z = 0 \/ z = 1) (map fst ys ++ map snd ys)).
  { apply Forall_app. split; apply Forall_map;
      (eapply Forall_impl; [|exact H]); intros [t p] [Ht Hp]; assumption. }
  destruct (unique_labels_binary _ Hall) as [-> | [-> | [-> | ->]]]; reflexivity.
Qed.

Lemma count_map {A B : Type} (f : A -> B) (p : B -> bool) (l : list A) :
  count p (map f l) = count (fun x => p (f x)) l.
Proof.
  induction l as [|x l IH]; [reflexivity|].
  cbn [map]. rewrite !count_cons, IH. reflexivity.
Qed.

(** A count splits along a binary component. *)
Lemma count_split_binary (f : Z * Z -> Z) (p : Z * Z -> bool) (ys : list (Z * Z)) :
  Forall (fun y => f y = 0 \/ f y = 1) ys ->
  count p ys = count (fun y => p y && (f y =? 1)) ys
               + count (fun y => p y && (f y =? 0)) ys.
Proof.
  induction 1 as [|y ys Hy _ IH]; [reflexivity|].
  rewrite !count_cons, IH.
  destruct (p y); destruct Hy as [Hy | Hy]; rewrite Hy;
    change (0 =? 1) with false; change (0 =? 0) with true;
    change (1 =? 1) with true; change (1 =? 0) with false;
    cbn [andb]; lia.
Qed.

Lemma count_ext {A : Type} (p q : A -> bool) (l : list A) :
  (forall x, p x = q x) -> count p l = count q l.
Proof.
  intros H. induction l as [|x l IH]; [reflexivity|].
  rewrite !count_cons, IH, H. reflexivity.
Qed.

(** With binary labels the predicted positives are the true positives and
    the false positives, and the actual positives are the true positives
    and the false negatives. *)
Lemma positives_split (ys : list (Z * Z)) :
  Forall binary_pair ys ->
  count (Z.eqb 1) (map snd ys)
  = count (fun y => (fst y =? 1) && (snd y =? 1)) ys
    + count (fun y => (fst y =? 0) && (snd y =? 1)) ys
  /\
  count (Z.eqb 1) (map fst ys)
  = count (fun y => (fst y =? 1) && (snd y =? 1)) ys
    + count (fun y => (fst y =? 1) && (snd y =? 0)) ys
  /\
  true_positives (map fst ys) (map snd ys)
  = count (fun y => (fst y =? 1) && (snd y =? 1)) ys.
Proof.
  intros H. split; [|split].
  - rewrite count_map.
    rewrite (count_split_binary fst) by
      (eapply Forall_impl; [|exact H]; intros y [Hy _]; exact Hy).
    f_equal; apply count_ext; intros y; rewrite Z.eqb_sym; apply andb_comm.
  - rewrite count_map.
    rewrite (count_split_binary snd) by
      (eapply Forall_impl; [|exact H]; intros y [_ Hy]; exact Hy).
    f_equal; apply count_ext; intros y; rewrite (Z.eqb_sym 1); reflexivity.
  - unfold true_positives. rewrite combine_fst_snd.
    apply count_ext. intros [t p]. reflexivity.
Qed.

Lemma ratio_or_zero_fraction (a b : Z) :
  0 <= b -> exists q, ratio_or_zero a b = F64 q /\ (q == fraction_or_zero a b)%Q.
Proof.
  intros Hb. unfold ratio_or_zero, fraction_or_zero.
  destruct (b =? 0) eqn:E.
  - exists 0%Q. split; reflexivity.
  - apply Z.eqb_neq in E. exists (a # Z.to_pos b). split; [reflexivity|].
    rewrite Qmake_Qdiv. rewrite Z2Pos.id by lia. reflexivity.
Qed.

Lemma cohen_kappa_score_returns (y1 y2 : list Z) :
  length y1 = length y2 -> exists k, cohen_kappa_score y1 y2 = ok k.
Proof.
  intros H. unfold cohen_kappa_score. rewrite H, Nat.eqb_refl. cbn [negb].
  eexists. reflexivity.
Qed.

(** The record of a group whose labels are binary or missing and that has
    an evaluable row. *)
Lemma binary_group_metrics (c : value) (g : list (value * value)) :
  Forall binary_row g ->
  0 < n_evaluable g ->
  let tp := n_where (Some 1) (Some 1) g in
  let fp := n_where (Some 0) (Some 1) g in
  let fn := n_where (Some 1) (Some 0) g in
  let positives := n_where (Some 1) None g in
  exists f k pr rc,
    construct_metrics c g
    = ok (mkMetrics c (Some (F64 f)) (Some k) (Some (F64 pr)) (Some (F64 rc))
                    (n_evaluable g)) /\
    (f == fraction_or_zero positives (n_evaluable g))%Q /\
    (pr == fraction_or_zero tp (tp + fp))%Q /\
    (rc == fraction_or_zero tp (tp + fn))%Q.
Proof.
  intros Hbin Hpos tp fp fn positives. subst tp fp fn positives.
  destruct (evaluable_rows_convert g Hbin) as [ys [Hys [Ht [Hp [Hlen [Hn Hc]]]]]].
  destruct (positives_split ys Hys) as [Hpred [Htrue Htp]].
  unfold construct_metrics. rewrite Hlen, <- Hn.
  destruct (n_evaluable g =? 0) eqn:E; [apply Z.eqb_eq in E; lia|].
  rewrite Ht, Hp. cbn [bind ok].
  destruct (cohen_kappa_score_returns (map fst ys) (map snd ys)) as [k Hk];
    [rewrite !length_map; reflexivity|].
  rewrite Hk. unfold precision_score, recall_score.
  rewrite (check_binary_accepts ys Hys). cbn [bind ok].
  remember (count (Z.eqb 1) (map fst ys) # Z.to_pos (n_evaluable g)) as f eqn:Hf.
  rewrite Htp, Hpred, Htrue, !Hc.
  destruct (ratio_or_zero_fraction
              (count (fun y => (fst y =? 1) && (snd y =? 1)) ys)
              (count (fun y => (fst y =? 1) && (snd y =? 1)) ys
               + count (fun y => (fst y =? 0) && (snd y =? 1)) ys)) as [pr [Hpr Epr]].
  { pose proof (count_nonneg (fun y : Z * Z => (fst y =? 1) && (snd y =? 1)) ys).
    pose proof (count_nonneg (fun y : Z * Z => (fst y =? 0) && (snd y =? 1)) ys). lia. }
  destruct (ratio_or_zero_fraction
              (count (fun y => (fst y =? 1) && (snd y =? 1)) ys)
              (count (fun y => (fst y =? 1) && (snd y =? 1)) ys
               + count (fun y => (fst y =? 1) && (snd y =? 0)) ys)) as [rc [Hrc Erc]].
  { pose proof (count_nonneg (fun y : Z * Z => (fst y =? 1) && (snd y =? 1)) ys).
    pose proof (count_nonneg (fun y : Z * Z => (fst y =? 1) && (snd y =? 0)) ys). lia. }
  rewrite Hpr, Hrc.
  exists f, k, pr, rc.
  split; [reflexivity|]. split; [|split; assumption].
  subst f. unfold fraction_or_zero. rewrite E.
  rewrite Qmake_Qdiv, Z2Pos.id by lia.
  rewrite count_map.
  rewrite (count_ext (fun x => 1 =? fst x) (fun y => (fst y =? 1) && true));
    [reflexivity|].
  intros y. rewrite andb_true_r. apply Z.eqb_sym.
Qed.

(** C6. On a group whose labels are binary or missing and that has an
    evaluable row, the record of the scoring engine is produced without
    error and carries: the number of evaluable rows; as frequency the
    share of evaluable rows whose true label is 1; as precision
    tp / (tp + fp) and as recall tp / (tp + fn) with label 1 as the
    positive class, each 0 when its denominator is 0.  On the fixed pair
    true = [1,1,0,0], pred = [1,0,0,0] the precision is 1, the recall
    1/2 and the frequency 1/2. *)
Theorem scoring_engine_binary_metrics (c : value) :
  (forall g : list (value * value),
      Forall binary_row g ->
      0 < n_evaluable g ->
      let tp := n_where (Some 1) (Some 1) g in
      let fp := n_where (Some 0) (Some 1) g in
      let fn := n_where (Some 1) (Some 0) g in
      let positives := n_where (Some 1) None g in
      exists f k pr rc,
        construct_metrics c g
        = ok (mkMetrics c (Some (F64 f)) (Some k) (Some (F64 pr)) (Some (F64 rc))
                        (n_evaluable g)) /\
        (f == fraction_or_zero positives (n_evaluable g))%Q /\
        (pr == fraction_or_zero tp (tp + fp))%Q /\
        (rc == fraction_or_zero tp (tp + fn))%Q) /\
  (exists f k pr rc,
      construct_metrics c fixed_pair
      = ok (mkMetrics c (Some (F64 f)) (Some k) (Some (F64 pr)) (Some (F64 rc)) 4) /\
      (f == 1 # 2)%Q /\ (pr == 1)%Q /\ (rc == 1 # 2)%Q).
Proof.
  split.
  - intros g. apply binary_group_metrics.
  - exists (2 # 4), (F64 (256 # 512)), 1%Q, (1 # 2).
    repeat split; reflexivity.
Qed.

(** The theorem on a group with a missing label and both kinds of
    disagreement. *)
Lemma scoring_engine_binary_metrics_witness :
  exists f k pr rc,
    construct_metrics (VStr "Comment") mixed_group
    = ok (mkMetrics (VStr "Comment") (Some (F64 f)) (Some k) (Some (F64 pr))
                    (Some (F64 rc)) 4) /\
    (f == 1 # 2)%Q /\ (pr == 1 # 2)%Q /\ (rc == 1 # 2)%Q.
Proof.
  destruct (scoring_engine_binary_metrics (VStr "Comment")) as [Hgen _].
  destruct (Hgen mixed_group) as [f [k [pr [rc [H [Hf [Hp Hr]]]]]]].
  - repeat constructor;
      (left; reflexivity)
      || (right; split; (left; reflexivity) || (right; reflexivity)).
  - reflexivity.
  - exists f, k, pr, rc. split; [exact H|].
    split; [|split].
    + apply (Qeq_trans _ _ _ Hf). reflexivity.
    + apply (Qeq_trans _ _ _ Hp). reflexivity.
    + apply (Qeq_trans _ _ _ Hr). reflexivity.
Defined.

Example scoring_fixed_pair_values :
  construct_metrics (VStr "Comment") fixed_pair
  = ok (mkMetrics (VStr "Comment") (Some (F64 (2 # 4))) (Some (F64 (256 # 512)))
                  (Some (F64 1)) (Some (F64 (1 # 2))) 4).
Proof. reflexivity. Qed.

(** With no predicted positive the precision is 0, not an error. *)
Example precision_zero_division :
  precision_score [1; 0] [0; 0] = ok (F64 0) /\ recall_score [0; 0] [1; 0] = ok (F64 0).
Proof. split; reflexivity. Qed.

(** The overall coefficient is absent when no merged row has a human
    label. *)
Lemma overall_kappa_absent_without_labels (rows_ : list (value * value)) :
  Forall (fun r => isna (fst r) = true) rows_ -> overall_kappa rows_ = ok None.
Proof.
  intros H. unfold overall_kappa.
  replace (filter (fun '(h, _) => negb (isna h)) rows_) with (@nil (value * value)).
  - reflexivity.
  - symmetry. induction H as [|[h p] l Hh _ IH]; [reflexivity|].
    cbn [filter]. cbn [fst] in Hh. rewrite Hh. exact IH.
Qed.

(** ** The oracle-response parser *)

Lemma is_bit_cases (c : ascii) :
  is_bit c = true -> c = "0"%char \/ c = "1"%char.
Proof.
  unfold is_bit. intros H. apply orb_true_iff in H.
  destruct H as [H|H]; apply Ascii.eqb_eq in H; auto.
Qed.

Lemma is_bit_digit_val (c : ascii) :
  is_bit c = true -> digit_val c = 0 \/ digit_val c = 1.
Proof.
  intros H. destruct (is_bit_cases c H) as [-> | ->]; [left | right]; reflexivity.
Qed.

Lemma is_bit_not_space (c : ascii) : is_bit c = true -> Py.is_space c = false.
Proof.
  intros H. destruct (is_bit_cases c H) as [-> | ->]; reflexivity.
Qed.

Lemma search_standalone_sound (txt : string) :
  forall prev_word b,
    search_standalone_bit prev_word txt = Some b ->
    exists pre c post,
      txt = pre ++ String c post /\ is_bit c = true /\ digit_val c = b /\
      last_is_word prev_word pre = false /\ starts_with_word post = false.
Proof.
  induction txt as [|c rest IH]; intros pw b; cbn [search_standalone_bit];
    [discriminate|].
  fold (starts_with_word rest).
  destruct (is_bit c && negb pw && negb (starts_with_word rest)) eqn:E.
  - intros [= <-].
    apply andb_true_iff in E. destruct E as [E Hpost].
    apply andb_true_iff in E. destruct E as [Hbit Hpw].
    exists EmptyString, c, rest. repeat split.
    + exact Hbit.
    + cbn [last_is_word]. destruct pw; [discriminate | reflexivity].
    + destruct (starts_with_word rest); [discriminate | reflexivity].
  - intros H. destruct (IH _ _ H) as [pre [d [post [-> [Hbit [Hval [Hpre Hpost]]]]]]].
    exists (String c pre), d, post. repeat split; assumption.
Qed.

Lemma search_standalone_complete (txt : string) :
  forall prev_word,
    search_standalone_bit prev_word txt = None ->
    forall pre c post,
      txt = pre ++ String c post -> is_bit c = true ->
      last_is_word prev_word pre = false -> starts_with_word post = false -> False.
Proof.
  induction txt as [|a rest IH]; intros pw Hnone pre c post Htxt Hbit Hpre Hpost.
  - destruct pre; discriminate Htxt.
  - cbn [search_standalone_bit] in Hnone. fold (starts_with_word rest) in Hnone.
    destruct (is_bit a && negb pw && negb (starts_with_word rest)) eqn:E;
      [discriminate|].
    destruct pre as [|a' pre].
    + cbn [append] in Htxt. injection Htxt as -> ->.
      cbn [last_is_word] in Hpre. rewrite Hbit, Hpre, Hpost in E. discriminate E.
    + cbn [append] in Htxt. injection Htxt as -> ->.
      cbn [last_is_word] in Hpre.
      exact (IH _ Hnone pre c post eq_refl Hbit Hpre Hpost).
Qed.

Lemma lstrip_spaces (ws : string) (c : ascii) (post : string) :
  all_chars Py.is_space ws = true -> Py.is_space c = false ->
  Py.lstrip (ws ++ String c post) = String c post.
Proof.
  induction ws as [|a ws IH]; cbn [append all_chars Py.lstrip]; intros Hws Hc.
  - rewrite Hc. reflexivity.
  - apply andb_true_iff in Hws. destruct Hws as [Ha Hws]. rewrite Ha. apply IH; assumption.
Qed.

Lemma lstrip_prefix (txt : string) :
  exists ws, txt = ws ++ Py.lstrip txt /\ all_chars Py.is_space ws = true.
Proof.
  induction txt as [|a txt [ws [Htxt Hws]]]; cbn [Py.lstrip].
  - exists EmptyString. split; reflexivity.
  - destruct (Py.is_space a) eqn:Ea.
    + exists (String a ws). cbn [append all_chars]. rewrite Ea, Hws.
      split; [f_equal; exact Htxt | reflexivity].
    + exists EmptyString. split; reflexivity.
Qed.

Lemma search_leading_sound (txt : string) (b : Z) :
  search_leading_bit txt = Some b -> leading_bit txt b.
Proof.
  unfold search_leading_bit, leading_bit.
  destruct (lstrip_prefix txt) as [ws [Htxt Hws]].
  destruct (Py.lstrip txt) as [|c post]; [discriminate|].
  destruct (is_bit c) eqn:Hbit; [|discriminate].
  intros [= <-]. exists ws, c, post. repeat split; assumption.
Qed.

Lemma search_leading_complete (txt : string) :
  search_leading_bit txt = None -> forall b, ~ leading_bit txt b.
Proof.
  unfold search_leading_bit. intros Hnone b [ws [c [post [-> [Hws [Hbit _]]]]]].
  rewrite (lstrip_spaces ws c post Hws (is_bit_not_space c Hbit)), Hbit in Hnone.
  discriminate Hnone.
Qed.

(** What [parse_binary_label] returns on every text. *)
Lemma parse_binary_label_spec (txt : string) :
  let '(label, warns) := parse_binary_label txt in
  (label = 0 \/ label = 1) /\
  ((warns = [] /\
    (standalone_bit txt label
     \/ ((forall b, ~ standalone_bit txt b) /\ leading_bit txt label)))
   \/
   (warns = [WarnUnparsedLabel txt] /\ label = 0 /\
    (forall b, ~ standalone_bit txt b) /\ (forall b, ~ leading_bit txt b))).
Proof.
  unfold parse_binary_label.
  destruct (search_standalone_bit false txt) as [b|] eqn:Es.
  - destruct (search_standalone_sound _ _ _ Es)
      as [pre [c [post [Htxt [Hbit [Hval [Hpre Hpost]]]]]]].
    split.
    + rewrite <- Hval. apply is_bit_digit_val. exact Hbit.
    + left. split; [reflexivity|]. left. exists pre, c, post. repeat split; assumption.
  - assert (Hno : forall b, ~ standalone_bit txt b).
    { intros b [pre [c [post [Htxt [Hbit [_ [Hpre Hpost]]]]]]].
      exact (search_standalone_complete _ _ Es pre c post Htxt Hbit Hpre Hpost). }
    destruct (search_leading_bit txt) as [b|] eqn:El.
    + pose proof (search_leading_sound _ _ El) as Hlead.
      split.
      * destruct Hlead as [ws [c [post [_ [_ [Hbit Hval]]]]]].
        rewrite <- Hval. apply is_bit_digit_val. exact Hbit.
      * left. split; [reflexivity|]. right. split; assumption.
    + split; [left; reflexivity|].
      right. repeat split; try assumption.
      exact (search_leading_complete _ El).
Qed.



Example parse_binary_label_examples :
  parse_binary_label "1" = (1, []) /\
  parse_binary_label "The answer is 1." = (1, []) /\
  parse_binary_label "0 or maybe 1" = (0, []) /\
  parse_binary_label " 1abc" = (1, []) /\
  parse_binary_label "01" = (0, []) /\
  parse_binary_label "x1" = (0, [WarnUnparsedLabel "x1"]) /\
  parse_binary_label EmptyString = (0, [WarnUnparsedLabel EmptyString]).
Proof. repeat split; reflexivity. Qed.

(** ** Characters that survive canonicalisation *)

Lemma is_az09_not_space (c : ascii) : is_az09 c = true -> Py.is_space c = false.
Proof.
  destruct c as [[|] [|] [|] [|] [|] [|] [|] [|]]; vm_compute;
    intros H; try reflexivity; discriminate H.
Qed.

Lemma is_az09_kept (c : ascii) : is_az09 c = true -> Py.is_az09_space c = true.
Proof.
  unfold is_az09, Py.is_az09_space. intros ->. reflexivity.
Qed.

Lemma lower_char_alnum (c : ascii) :
  is_alnum_ascii c = true -> is_az09 (Py.lower_char c) = true.
Proof.
  destruct c as [[|] [|] [|] [|] [|] [|] [|] [|]]; vm_compute;
    intros H; try reflexivity; discriminate H.
Qed.

Lemma existsb_char_app (p : ascii -> bool) (a b : string) :
  Py.existsb_char p (a ++ b) = Py.existsb_char p a || Py.existsb_char p b.
Proof.
  induction a as [|c a IH]; cbn [append Py.existsb_char]; [reflexivity|].
  rewrite IH. apply orb_assoc.
Qed.

Lemma existsb_char_nonempty (p : ascii -> bool) (s : string) :
  Py.existsb_char p s = true -> s <> EmptyString.
Proof. destruct s; [discriminate | discriminate]. Qed.

Section Survive.

Variable p : ascii -> bool.
Hypothesis p_not_space : forall c, p c = true -> Py.is_space c = false.

Lemma lstrip_keeps (s : string) :
  Py.existsb_char p s = true -> Py.existsb_char p (Py.lstrip s) = true.
Proof.
  induction s as [|c s IH]; cbn [Py.lstrip Py.existsb_char]; [discriminate|].
  destruct (Py.is_space c) eqn:Ec.
  - destruct (p c) eqn:Ep; [rewrite (p_not_space c Ep) in Ec; discriminate|].
    exact IH.
  - cbn [Py.existsb_char]. intros H. exact H.
Qed.

Lemma rstrip_keeps (s : string) :
  Py.existsb_char p s = true -> Py.existsb_char p (Py.rstrip s) = true.
Proof.
  induction s as [|c s IH]; cbn [Py.rstrip Py.existsb_char]; [discriminate|].
  intros H. destruct (p c) eqn:Ep.
  - destruct (Py.rstrip s).
    + rewrite (p_not_space c Ep). cbn [Py.existsb_char]. rewrite Ep. reflexivity.
    + cbn [Py.existsb_char]. rewrite Ep. reflexivity.
  - cbn [orb] in H. specialize (IH H).
    destruct (Py.rstrip s) as [|d r]; [discriminate IH|].
    cbn [Py.existsb_char] in *. rewrite IH. apply orb_true_r.
Qed.

Lemma strip_keeps (s : string) :
  Py.existsb_char p s = true -> Py.existsb_char p (Py.strip s) = true.
Proof. intros H. unfold Py.strip. apply rstrip_keeps, lstrip_keeps, H. Qed.

Lemma replace_char_keeps (x : ascii) (by_ s : string) :
  p x = false ->
  Py.existsb_char p s = true -> Py.existsb_char p (Py.replace_char x by_ s) = true.
Proof.
  intros Hx. induction s as [|c s IH]; cbn [Py.replace_char Py.existsb_char];
    [discriminate|].
  destruct (Ascii.eqb c x) eqn:Ec.
  - apply Ascii.eqb_eq in Ec. subst c. rewrite Hx. cbn [orb]. intros H.
    rewrite existsb_char_app, (IH H). apply orb_true_r.
  - cbn [Py.existsb_char]. destruct (p c); [reflexivity | exact IH].
Qed.

Lemma collapse_ws_keeps (s : string) :
  forall in_run,
    Py.existsb_char p s = true ->
    Py.existsb_char p (Py.collapse_ws_from in_run s) = true.
Proof.
  induction s as [|c s IH]; intros in_run; cbn [Py.collapse_ws_from Py.existsb_char];
    [discriminate|].
  destruct (p c) eqn:Ep.
  - rewrite (p_not_space c Ep). cbn [Py.existsb_char]. rewrite Ep. reflexivity.
  - cbn [orb]. intros H.
    destruct (Py.is_space c), in_run; cbn [Py.existsb_char];
      rewrite ?(IH _ H); auto using orb_true_r.
Qed.

Lemma filter_chars_keeps (keep : ascii -> bool) (s : string) :
  (forall c, p c = true -> keep c = true) ->
  Py.existsb_char p s = true -> Py.existsb_char p (Py.filter_chars keep s) = true.
Proof.
  intros Hk. induction s as [|c s IH]; cbn [Py.filter_chars Py.existsb_char];
    [discriminate|].
  destruct (p c) eqn:Ep.
  - rewrite (Hk c Ep). cbn [Py.existsb_char]. rewrite Ep. reflexivity.
  - cbn [orb]. intros H. destruct (keep c); cbn [Py.existsb_char];
      rewrite ?Ep, (IH H); reflexivity.
Qed.

End Survive.

Lemma lower_keeps_alnum (s : string) :
  Py.existsb_char is_alnum_ascii s = true ->
  Py.existsb_char is_az09 (Py.lower s) = true.
Proof.
  induction s as [|c s IH]; cbn [Py.lower Py.existsb_char]; [discriminate|].
  destruct (is_alnum_ascii c) eqn:Ec.
  - rewrite (lower_char_alnum c Ec). reflexivity.
  - cbn [orb]. intros H. rewrite (IH H). apply orb_true_r.
Qed.

(** A name with an ASCII letter or digit has a non-empty canonical
    key. *)
Lemma canonical_nonempty (s : string) :
  Py.existsb_char is_alnum_ascii s = true -> canonical (Some s) <> EmptyString.
Proof.
  intros H. unfold canonical. apply (existsb_char_nonempty is_az09).
  apply (strip_keeps _ is_az09_not_space).
  apply (filter_chars_keeps _ _ _ is_az09_kept).
  apply (collapse_ws_keeps _ is_az09_not_space).
  apply replace_char_keeps; [reflexivity|].
  apply replace_char_keeps; [reflexivity|].
  apply lower_keeps_alnum.
  apply (strip_keeps is_alnum_ascii); [|exact H].
  intros c. destruct c as [[|] [|] [|] [|] [|] [|] [|] [|]]; vm_compute;
    intros Hc; try reflexivity; discriminate Hc.
Qed.

(** ** The reshaper *)

Lemma combine_map_map {A B C : Type} (f : A -> B) (g : A -> C) (l : list A) :
  combine (map f l) (map g l) = map (fun x => (f x, g x)) l.
Proof.
  induction l as [|x l IH]; cbn [map combine]; [reflexivity|]. rewrite IH. reflexivity.
Qed.

Lemma map_combine_self {A B C : Type} (h : A -> B -> C) (f : A -> B) (l : list A) :
  map (fun '(r, v) => h r v) (combine l (map f l)) = map (fun r => h r (f r)) l.
Proof.
  induction l as [|x l IH]; cbn [map combine]; [reflexivity|]. rewrite IH. reflexivity.
Qed.

Lemma map_flat_map_blocks {A B C : Type} (f : B -> C) (g : A -> list B) (l : list A) :
  map f (flat_map g l) = flat_map (fun x => map f (g x)) l.
Proof.
  induction l as [|x l IH]; cbn [flat_map map]; [reflexivity|].
  rewrite map_app, IH. reflexivity.
Qed.

Lemma length_flat_map_blocks {A B C : Type} (f : A -> B -> C) (l : list A) (rs : list B) :
  length (flat_map (fun c => map (f c) rs) l) = (length rs * length l)%nat.
Proof.
  induction l as [|x l IH]; cbn [flat_map length]; [lia|].
  rewrite length_app, length_map, IH. lia.
Qed.

Lemma column_values_cell_of (df : DataFrame) (c : string) :
  has_column c df = true -> column_values df c = ok (map (cell_of df c) (rows df)).
Proof.
  intros H. destruct (index_of_present _ _ H) as [i [Hi _]].
  unfold column_values, cell_of. rewrite Hi. reflexivity.
Qed.

Lemma dtype_of_present (df : DataFrame) (c : string) :
  has_column c df = true -> exists d, dtype_of df c = ok d.
Proof.
  intros H. destruct (index_of_present _ _ H) as [i [Hi _]].
  unfold dtype_of. rewrite Hi. eexists. reflexivity.
Qed.

Lemma in_list_In (c : string) (l : list string) : in_list c l = true <-> In c l.
Proof.
  unfold in_list. rewrite existsb_exists. split.
  - intros [x [Hx E]]. apply String.eqb_eq in E. subst. exact Hx.
  - intros H. exists c. split; [exact H | apply String.eqb_refl].
Qed.

(** The selection of the identifier column by the reshaper. *)
Lemma chosen_id_column_selected (df : DataFrame) (id_col : option string) (id_var : string) :
  chosen_id_column df id_col = Some id_var ->
  (if truthy id_col && opt_in_columns id_col df
   then ok (match id_col with Some c => c | None => EmptyString end)
   else if has_column "task_submit_id" df then ok "task_submit_id"
        else first_item (names df)) = ok id_var
  /\ has_column id_var df = true.
Proof.
  unfold chosen_id_column.
  destruct (truthy id_col && opt_in_columns id_col df) eqn:E.
  - intros ->. apply andb_true_iff in E. destruct E as [_ E]. split; [reflexivity | exact E].
  - destruct (has_column "task_submit_id" df) eqn:Et.
    + intros [= <-]. split; [reflexivity | exact Et].
    + unfold has_column. destruct (names df) as [|c l]; [discriminate|].
      intros [= <-]. split; [reflexivity|].
      apply in_list_In. left. reflexivity.
Qed.

Lemma construct_columns_present (df : DataFrame) (id_var c : string) :
  In c (construct_columns df id_var) -> has_column c df = true.
Proof.
  unfold construct_columns. intros H. apply filter_In in H.
  apply in_list_In. exact (proj1 H).
Qed.

Lemma length_filter_neq (x : string) (l : list string) :
  NoDup l -> In x l ->
  length (filter (fun c => negb (String.eqb c x)) l) = (length l - 1)%nat.
Proof.
  induction 1 as [|y l Hy Hnd IH]; [intros []|].
  intros [-> | Hin]; cbn [filter length].
  - rewrite String.eqb_refl. cbn [negb].
    replace (filter (fun c => negb (String.eqb c x)) l) with l; [lia|].
    symmetry. apply forallb_filter_id. apply forallb_forall.
    intros c Hc. apply negb_true_iff, String.eqb_neq. intros ->. exact (Hy Hc).
  - destruct (String.eqb y x) eqn:E.
    + apply String.eqb_eq in E. subst y. contradiction.
    + cbn [negb length]. rewrite (IH Hin).
      destruct l; [destruct Hin | cbn [length]; lia].
Qed.

Lemma column_values_at (df : DataFrame) (c : string) (i : nat) :
  index_of c (names df) = Some i -> column_values df c = ok (map (cell i) (rows df)).
Proof. intros H. unfold column_values. rewrite H. reflexivity. Qed.

Lemma set_column_at (df : DataFrame) (c : string) (d : dtype) (vals : list value)
  (i : nat) :
  index_of c (names df) = Some i ->
  set_column df c d vals
  = mkDF (replace_nth i (mkColumn c d) (columns df))
         (map (fun '(r, v) => replace_nth i v r) (combine (rows df) vals)).
Proof. intros H. unfold set_column. rewrite H. reflexivity. Qed.

Lemma set_column_new (df : DataFrame) (c : string) (d : dtype) (vals : list value) :
  index_of c (names df) = None ->
  set_column df c d vals
  = mkDF (columns df ++ [mkColumn c d])
         (map (fun '(r, v) => (r ++ [v])%list) (combine (rows df) vals)).
Proof. intros H. unfold set_column. rewrite H. reflexivity. Qed.

(** The frame [df.melt] builds. *)
Lemma pd_melt_frame (df : DataFrame) (id_var var_name : string) (value_vars : list string) :
  has_column id_var df = true ->
  (forall c, In c value_vars -> has_column c df = true) ->
  in_list "human_label" (names df) = false ->
  var_name <> id_var -> var_name <> "human_label" ->
  exists d,
    pd_melt df id_var value_vars var_name "human_label"
    = ok (mkDF [mkColumn id_var d; mkColumn var_name dt_object;
                mkColumn "human_label" dt_object]
               (flat_map (fun c => map (fun r => [cell_of df id_var r; VStr c; cell_of df c r])
                                       (rows df))
                         value_vars)).
Proof.
  intros Hid Hvv Hfresh Hvi Hvl.
  assert (Hil : id_var <> "human_label").
  { intros ->. unfold has_column in Hid. congruence. }
  unfold pd_melt. rewrite Hfresh.
  unfold has_dup, in_list. cbn [existsb].
  rewrite (proj2 (String.eqb_neq id_var var_name)) by congruence.
  rewrite (proj2 (String.eqb_neq id_var "human_label")) by exact Hil.
  rewrite (proj2 (String.eqb_neq var_name "human_label")) by exact Hvl.
  cbn [orb].
  destruct (dtype_of_present _ _ Hid) as [d Hd]. rewrite Hd. cbn [bind ok].
  rewrite (column_values_cell_of _ _ Hid). cbn [bind ok].
  rewrite (map_m_ok _
             (fun c => map (fun r => [cell_of df id_var r; VStr c; cell_of df c r])
                           (rows df))).
  - cbn [bind ok]. exists d. rewrite <- flat_map_concat_map. reflexivity.
  - intros c Hc. rewrite (column_values_cell_of _ _ (Hvv c Hc)). cbn [bind ok].
    rewrite combine_map_map, map_map. reflexivity.
Qed.

(** C7, as stated, fails: the construct column [#] of
    [coded_with_hash_column] has the empty canonical key. *)
Lemma melt_gives_empty_key :
  ~ (forall (float_repr : float64 -> string) (to_numeric_str : string -> option float64)
            (long : DataFrame),
        melt_coded_wide_to_long float_repr to_numeric_str coded_with_hash_column
          (Some "sid") "construct_name" = ok long ->
        keys_nonempty long).
Proof.
  intros H.
  specialize (H (fun _ => "nan") (fun _ => None) _ eq_refl _ eq_refl).
  rewrite Forall_forall in H. apply (H (VStr EmptyString)); [|reflexivity].
  vm_compute. tauto.
Qed.

Example melt_two_entities_two_constructs :
  melt_coded_wide_to_long (fun _ => "nan") (fun _ => None) coded_with_hash_column
    (Some "sid") "construct_name"
  = ok (mkDF [mkColumn "sid" dt_int64; mkColumn "construct_name" dt_object;
              mkColumn "human_label" dt_float64; mkColumn "_construct_canon" dt_object]
             [[VInt 1; VStr "Comment"; VInt 1; VStr "comment"];
              [VInt 2; VStr "Comment"; VInt 0; VStr "comment"];
              [VInt 1; VStr "#"; VInt 0; VStr EmptyString];
              [VInt 2; VStr "#"; VInt 1; VStr EmptyString]]).
Proof. reflexivity. Qed.

(** ** The column coercer *)

Lemma has_column_rename_new (df : DataFrame) (old new : string) :
  has_column old df = true -> has_column new (rename df old new) = true.
Proof.
  unfold has_column, names, rename. cbn [columns].
  intros H. apply in_list_In. apply in_list_In in H.
  apply in_map_iff in H. destruct H as [c [Hc Hin]].
  apply in_map_iff. exists (if String.eqb (cname c) old then mkColumn new (cdtype c) else c).
  split.
  - rewrite Hc, String.eqb_refl. reflexivity.
  - apply in_map_iff. exists c. split; [reflexivity | exact Hin].
Qed.


Lemma filter_m_subset {A : Type} (test : A -> pyresult bool) (l r : list A) :
  filter_m test l = ok r -> forall x, In x r -> In x l.
Proof.
  revert r. induction l as [|a l IH]; intros r; cbn [filter_m].
  - intros [= <-] x [].
  - destruct (test a) as [e|b]; [discriminate|]. cbn [bind].
    destruct (filter_m test l) as [e|r']; [discriminate|]. cbn [bind].
    intros [= <-] x Hx. destruct b.
    + destruct Hx as [<- | Hx]; [left; reflexivity | right; exact (IH r' eq_refl x Hx)].
    + right. exact (IH r' eq_refl x Hx).
Qed.

Lemma filter_m_returns {A : Type} (test : A -> pyresult bool) (l : list A) :
  (forall x, In x l -> exists b, test x = ok b) -> exists r, filter_m test l = ok r.
Proof.
  induction l as [|a l IH]; intros H; cbn [filter_m].
  - eexists. reflexivity.
  - destruct (H a (or_introl eq_refl)) as [b ->]. cbn [bind].
    destruct IH as [r ->]; [intros x Hx; apply H; right; exact Hx|].
    eexists. reflexivity.
Qed.

Lemma map_m_fst_with_avg_len (float_repr : float64 -> string) (df : DataFrame)
  (l : list string) (keyed : list (string * float64)) :
  map_m (with_avg_len float_repr df) l = ok keyed -> map fst keyed = l.
Proof.
  revert keyed. induction l as [|c l IH]; intros keyed; cbn [map_m].
  - intros [= <-]. reflexivity.
  - unfold with_avg_len at 1. destruct (column_values df c) as [e|s]; [discriminate|].
    cbn [bind ok]. destruct (map_m _ l) as [e|k']; [discriminate|]. cbn [bind ok].
    intros [= <-]. cbn [map fst]. rewrite (IH k' eq_refl). reflexivity.
Qed.

Lemma map_m_with_avg_len_returns (float_repr : float64 -> string) (df : DataFrame)
  (l : list string) :
  (forall c, In c l -> has_column c df = true) ->
  exists keyed, map_m (with_avg_len float_repr df) l = ok keyed.
Proof.
  induction l as [|c l IH]; intros H; cbn [map_m].
  - eexists. reflexivity.
  - unfold with_avg_len at 1.
    destruct (column_values_present df c (H c (or_introl eq_refl))) as [s ->].
    cbn [bind ok]. destruct IH as [k ->]; [intros x Hx; apply H; right; exact Hx|].
    eexists. reflexivity.
Qed.

Lemma py_max_by_In {A : Type} (key : A -> float64) (l : list A) :
  forall x, In (py_max_by key x l) (x :: l).
Proof.
  unfold py_max_by. induction l as [|a l IH]; intros x; cbn [fold_left].
  - left. reflexivity.
  - destruct (float_gtb (key a) (key x)).
    + right. exact (IH a).
    + destruct (IH x) as [H | H]; [left; exact H | right; right; exact H].
Qed.

Lemma last_item_In {A : Type} (l : list A) (x : A) : last_item l = ok x -> In x l.
Proof.
  unfold last_item. destruct (rev l) as [|y r] eqn:E; [discriminate|].
  intros [= <-]. apply in_rev. rewrite E. left. reflexivity.
Qed.


Lemma last_item_returns {A : Type} (l : list A) : l <> [] -> exists x, last_item l = ok x.
Proof.
  intros H. unfold last_item. destruct (rev l) as [|y r] eqn:E.
  - apply (f_equal (@rev A)) in E. rewrite rev_involutive in E. contradiction.
  - eexists. reflexivity.
Qed.


Section CoerceText.

Variable float_repr : float64 -> string.
Variable get_close_matches : string -> list string -> nat -> Q -> list string.
Hypothesis close_matches_are_candidates : answers_candidates get_close_matches.

Variable df : DataFrame.
Variables text_col construct_col : string.
Hypothesis text_absent : in_list text_col (names df) = false.


(** The rule "ensure TEXT present": what it returns has the text
    column. *)
Lemma text_rule_installs (df1 : DataFrame) :
  (obj_cols <- filter_m (fun c => d <- dtype_of df c ;; ok (dtype_is_object d)) (names df) ;;
   keyed <- map_m (with_avg_len float_repr df) obj_cols ;;
   match keyed with
   | c0 :: more => ok (rename df (fst (py_max_by snd c0 more)) text_col)
   | [] => l <- last_item (names df) ;; ok (rename df l text_col)
   end) = ok df1 ->
  has_column text_col df1 = true.
Proof.
  destruct (filter_m _ (names df)) as [e|obj_cols] eqn:Ef; [discriminate|]. cbn [bind].
  destruct (map_m _ obj_cols) as [e|keyed] eqn:Ek; [discriminate|]. cbn [bind].
  destruct keyed as [|c0 more].
  - destruct (last_item (names df)) as [e|l] eqn:El; [discriminate|]. cbn [bind].
    intros [= <-]. apply has_column_rename_new. apply in_list_In.
    exact (last_item_In _ _ El).
  - intros [= <-]. apply has_column_rename_new. apply in_list_In.
    apply (filter_m_subset _ _ _ Ef).
    rewrite <- (map_m_fst_with_avg_len _ _ _ _ Ek).
    apply in_map. apply py_max_by_In.
Qed.

Lemma text_rule_returns :
  names df <> [] ->
  exists df1,
    (obj_cols <- filter_m (fun c => d <- dtype_of df c ;; ok (dtype_is_object d)) (names df) ;;
     keyed <- map_m (with_avg_len float_repr df) obj_cols ;;
     match keyed with
     | c0 :: more => ok (rename df (fst (py_max_by snd c0 more)) text_col)
     | [] => l <- last_item (names df) ;; ok (rename df l text_col)
     end) = ok df1.
Proof.
  intros Hne.
  destruct (filter_m_returns
              (fun c => d <- dtype_of df c ;; ok (dtype_is_object d)) (names df))
    as [obj_cols Ef].
  { intros c Hc. apply in_list_In in Hc.
    destruct (dtype_of_present df c Hc) as [d ->]. eexists. reflexivity. }
  rewrite Ef. cbn [bind ok].
  destruct (map_m_with_avg_len_returns float_repr df obj_cols) as [keyed Ek].
  { intros c Hc. apply in_list_In. exact (filter_m_subset _ _ _ Ef c Hc). }
  rewrite Ek. cbn [bind ok]. destruct keyed as [|c0 more].
  - destruct (last_item_returns (names df) Hne) as [l ->]. cbn [bind ok].
    eexists. reflexivity.
  - eexists. reflexivity.
Qed.



End CoerceText.


(** On that table the fatal check of the driver fires. *)
Example fatal_check_on_two_columns
  (float_repr : float64 -> string)
  (get_close_matches : string -> list string -> nat -> Q -> list string) :
  main_coerce_raw float_repr get_close_matches raw_text_and_construct
    (Some "task_submit_id") "code_change_text" "construct_name"
  = raise (KeyError "code_change_text").
Proof. reflexivity. Qed.

(** The identifier rule reads the dtypes through the column names the
    table had before the text rule renamed one of them: with three
    misnamed columns and a requested identifier the coercion raises. *)
Example coerce_raises_after_rename
  (float_repr : float64 -> string)
  (get_close_matches : string -> list string -> nat -> Q -> list string) :
  coerce_raw_columns float_repr get_close_matches raw_three_columns
    (Some "task_submit_id") "code_change_text" "construct_name"
  = raise (KeyError "note").
Proof. vm_compute. reflexivity. Qed.

(** A table without columns makes the text rule raise before the fatal
    check is reached. *)
Example coerce_raises_without_columns
  (float_repr : float64 -> string)
  (get_close_matches : string -> list string -> nat -> Q -> list string) :
  coerce_raw_columns float_repr get_close_matches (mkDF [] [])
    None "code_change_text" "construct_name"
  = raise IndexError.
Proof. reflexivity. Qed.

Example coerce_renames_longest_object_column :
  coerce_raw_columns (fun _ => "nan") (fun _ _ _ _ => []) raw_three_columns None
    "code_change_text" "construct_name"
  = ok (mkDF [mkColumn "code_change_text" dt_object; mkColumn "construct_name" dt_object;
              mkColumn "score" dt_int64]
             [[VStr "changed the loop bound"; VStr "Comment"; VInt 3]]).
Proof. vm_compute. reflexivity. Qed.

(** * Further properties of the name canonicaliser *)

Lemma no_double_space_tail (a : ascii) (s : string) :
  no_double_space (String a s) = true -> no_double_space s = true.
Proof.
  cbn [no_double_space]. destruct s; [reflexivity|].
  intros H. apply andb_true_iff in H. exact (proj2 H).
Qed.

Lemma no_double_space_cons (a : ascii) (s : string) :
  no_double_space s = true ->
  (Py.is_space a = true -> starts_with_space s = false) ->
  no_double_space (String a s) = true.
Proof.
  intros Hs Ha. cbn [no_double_space]. destruct s as [|b s]; [reflexivity|].
  rewrite Hs, andb_true_r. cbn [starts_with_space] in Ha.
  destruct (Py.is_space a); [rewrite (Ha eq_refl)|]; reflexivity.
Qed.

(** The output of [re.sub(r"\s+", " ", s)] has no two whitespace
    characters in a row. *)
Lemma collapse_ws_no_double_space (s : string) :
  forall in_run,
    no_double_space (Py.collapse_ws_from in_run s) = true /\
    (in_run = true -> starts_with_space (Py.collapse_ws_from in_run s) = false).
Proof.
  induction s as [|a s IH]; intros in_run; cbn [Py.collapse_ws_from].
  - split; reflexivity.
  - destruct (Py.is_space a) eqn:Ea.
    + destruct in_run.
      * exact (IH true).
      * destruct (IH true) as [Hnd Hst]. split; [|discriminate].
        apply no_double_space_cons; [exact Hnd | intros _; exact (Hst eq_refl)].
    + destruct (IH false) as [Hnd _]. split.
      * apply no_double_space_cons; [exact Hnd | congruence].
      * intros _. cbn [starts_with_space]. exact Ea.
Qed.

Lemma all_chars_collapse (s : string) :
  forall in_run,
    all_chars Py.is_az09_space s = true ->
    all_chars Py.is_az09_space (Py.collapse_ws_from in_run s) = true.
Proof.
  induction s as [|a s IH]; intros in_run; cbn [Py.collapse_ws_from all_chars];
    [reflexivity|].
  intros H. apply andb_true_iff in H. destruct H as [Ha Hs].
  destruct (Py.is_space a), in_run; cbn [all_chars]; rewrite ?Ha, (IH _ Hs); reflexivity.
Qed.

Lemma no_double_space_lstrip (s : string) :
  no_double_space s = true -> no_double_space (Py.lstrip s) = true.
Proof.
  induction s as [|a s IH]; [reflexivity|]. cbn [Py.lstrip].
  intros H. destruct (Py.is_space a); [|exact H].
  apply IH. exact (no_double_space_tail a s H).
Qed.

Lemma rstrip_head (a : ascii) (s : string) :
  starts_with_space (Py.rstrip s) = true -> starts_with_space s = true.
Proof.
  destruct s as [|b s]; [discriminate|]. cbn [Py.rstrip starts_with_space].
  destruct (Py.rstrip s); [destruct (Py.is_space b) eqn:E|]; cbn [starts_with_space];
    congruence.
Qed.

Lemma no_double_space_rstrip (s : string) :
  no_double_space s = true -> no_double_space (Py.rstrip s) = true.
Proof.
  induction s as [|a s IH]; [reflexivity|]. intros H.
  pose proof (IH (no_double_space_tail a s H)) as Hr.
  cbn [Py.rstrip]. destruct (Py.rstrip s) as [|b r] eqn:E.
  - destruct (Py.is_space a); reflexivity.
  - apply no_double_space_cons; [exact Hr|].
    intros Ha. destruct (starts_with_space (String b r)) eqn:Eb; [|reflexivity].
    rewrite <- E in Eb. apply (rstrip_head a) in Eb.
    cbn [no_double_space] in H. destruct s as [|c s]; [discriminate Eb|].
    cbn [starts_with_space] in Eb. rewrite Ha, Eb in H. discriminate H.
Qed.

(** On a text that has the shape of a key, [canonical] is the collapse
    of whitespace followed by the final strip. *)
Lemma canonical_of_key_shape (y : string) :
  all_chars Py.is_az09_space y = true ->
  Py.strip y = y ->
  canonical (Some y) = Py.strip (Py.collapse_ws y).
Proof.
  intros Hall Hstrip. unfold canonical. rewrite Hstrip.
  rewrite (lower_fixed y Hall).
  rewrite (replace_char_absent Py.is_az09_space "&"%char " and " y)
    by (reflexivity || exact Hall).
  rewrite (replace_char_absent Py.is_az09_space "-"%char " " y)
    by (reflexivity || exact Hall).
  rewrite filter_chars_all; [reflexivity|].
  apply all_chars_collapse. exact Hall.
Qed.

(** X1. Every canonical key is made of lower-case ASCII letters, digits
    and spaces only, and has no whitespace at either end. *)
Theorem canonical_key_alphabet (x : option string) :
  all_chars Py.is_az09_space (canonical x) = true /\
  starts_with_space (canonical x) = false /\
  Py.strip (canonical x) = canonical x.
Proof.
  destruct (canonical_shape x) as [Hall Hstrip]. split; [exact Hall|].
  split; [|exact Hstrip].
  rewrite <- Hstrip. unfold Py.strip.
  apply rstrip_starts_with_space, lstrip_starts_with_space.
Qed.

(** X2. A second pass of [canonical] leaves a key unchanged exactly when
    the key has no two spaces in a row. *)
Theorem canonical_idempotent_iff_no_double_space (x : option string) :
  canonical (Some (canonical x)) = canonical x <-> no_double_space (canonical x) = true.
Proof.
  destruct (canonical_shape x) as [Hall Hstrip]. split.
  - intros H. rewrite <- H. rewrite (canonical_of_key_shape _ Hall Hstrip).
    unfold Py.strip, Py.collapse_ws.
    apply no_double_space_rstrip, no_double_space_lstrip.
    exact (proj1 (collapse_ws_no_double_space (canonical x) false)).
  - intros H. apply canonical_fixed; assumption.
Qed.

Lemma lower_char_az09_origin (c : ascii) :
  is_az09 (Py.lower_char c) = true -> is_alnum_ascii c = true.
Proof.
  destruct c as [[|] [|] [|] [|] [|] [|] [|] [|]]; vm_compute;
    intros H; try reflexivity; discriminate H.
Qed.

Lemma lower_char_space (c : ascii) : Py.is_space (Py.lower_char c) = Py.is_space c.
Proof.
  destruct c as [[|] [|] [|] [|] [|] [|] [|] [|]]; vm_compute; reflexivity.
Qed.

Lemma lower_char_idempotent (c : ascii) :
  Py.lower_char (Py.lower_char c) = Py.lower_char c.
Proof.
  destruct c as [[|] [|] [|] [|] [|] [|] [|] [|]]; vm_compute; reflexivity.
Qed.

Lemma lower_char_ampersand (c : ascii) :
  is_ampersand (Py.lower_char c) = is_ampersand c.
Proof.
  destruct c as [[|] [|] [|] [|] [|] [|] [|] [|]]; vm_compute; reflexivity.
Qed.

Lemma lower_idempotent (s : string) : Py.lower (Py.lower s) = Py.lower s.
Proof.
  induction s as [|c s IH]; cbn [Py.lower]; [reflexivity|].
  rewrite lower_char_idempotent, IH. reflexivity.
Qed.

Lemma lstrip_lower (s : string) : Py.lstrip (Py.lower s) = Py.lower (Py.lstrip s).
Proof.
  induction s as [|c s IH]; cbn [Py.lower Py.lstrip]; [reflexivity|].
  rewrite lower_char_space. destruct (Py.is_space c); [exact IH | reflexivity].
Qed.

Lemma rstrip_lower (s : string) : Py.rstrip (Py.lower s) = Py.lower (Py.rstrip s).
Proof.
  induction s as [|c s IH]; cbn [Py.lower Py.rstrip]; [reflexivity|].
  rewrite IH, lower_char_space.
  destruct (Py.rstrip s); cbn [Py.lower]; [destruct (Py.is_space c)|]; reflexivity.
Qed.

Lemma strip_lower (s : string) : Py.strip (Py.lower s) = Py.lower (Py.strip s).
Proof. unfold Py.strip. rewrite lstrip_lower, rstrip_lower. reflexivity. Qed.

(** X4. The canonical key ignores case and surrounding whitespace: two
    names that are equal once lower-cased have the same key, and so
    have a name and the same name stripped. *)
Theorem canonical_ignores_case_and_margins (s1 s2 : string) :
  (Py.lower s1 = Py.lower s2 -> canonical (Some s1) = canonical (Some s2)) /\
  canonical (Some (Py.strip s1)) = canonical (Some s1) /\
  canonical (Some (Py.lower s1)) = canonical (Some s1).
Proof.
  assert (Hlow : forall s, canonical (Some (Py.lower s)) = canonical (Some s)).
  { intros s. unfold canonical. rewrite strip_lower, lower_idempotent. reflexivity. }
  split; [|split].
  - intros H. rewrite <- (Hlow s1), <- (Hlow s2), H. reflexivity.
  - unfold canonical. rewrite strip_idempotent. reflexivity.
  - apply Hlow.
Qed.

Lemma canonical_ignores_case_and_margins_witness :
  (Py.lower "If Header" = Py.lower "IF HEADER" ->
   canonical (Some "If Header") = canonical (Some "IF HEADER")) /\
  canonical (Some (Py.strip "If Header")) = canonical (Some "If Header") /\
  canonical (Some (Py.lower "If Header")) = canonical (Some "If Header").
Proof.
  exact (canonical_ignores_case_and_margins "If Header" "IF HEADER").
Defined.

Section Absent.

Variable p : ascii -> bool.

Lemma existsb_char_lstrip (s : string) :
  Py.existsb_char p s = false -> Py.existsb_char p (Py.lstrip s) = false.
Proof.
  induction s as [|c s IH]; cbn [Py.lstrip Py.existsb_char]; [reflexivity|].
  intros H. apply orb_false_iff in H. destruct H as [Hc Hs].
  destruct (Py.is_space c); [exact (IH Hs)|].
  cbn [Py.existsb_char]. rewrite Hc, Hs. reflexivity.
Qed.

Lemma existsb_char_rstrip (s : string) :
  Py.existsb_char p s = false -> Py.existsb_char p (Py.rstrip s) = false.
Proof.
  induction s as [|c s IH]; cbn [Py.rstrip Py.existsb_char]; [reflexivity|].
  intros H. apply orb_false_iff in H. destruct H as [Hc Hs]. specialize (IH Hs).
  destruct (Py.rstrip s) as [|d r].
  - destruct (Py.is_space c); [reflexivity|]. cbn [Py.existsb_char]. rewrite Hc. reflexivity.
  - cbn [Py.existsb_char] in *. rewrite Hc, IH. reflexivity.
Qed.

Lemma existsb_char_replace (x : ascii) (by_ s : string) :
  Py.existsb_char p by_ = false ->
  Py.existsb_char p s = false ->
  Py.existsb_char p (Py.replace_char x by_ s) = false.
Proof.
  intros Hby. induction s as [|c s IH]; cbn [Py.replace_char Py.existsb_char];
    [reflexivity|].
  intros H. apply orb_false_iff in H. destruct H as [Hc Hs].
  destruct (Ascii.eqb c x).
  - rewrite existsb_char_app, Hby, (IH Hs). reflexivity.
  - cbn [Py.existsb_char]. rewrite Hc, (IH Hs). reflexivity.
Qed.

Lemma existsb_char_collapse (s : string) :
  p " "%char = false ->
  forall in_run,
    Py.existsb_char p s = false ->
    Py.existsb_char p (Py.collapse_ws_from in_run s) = false.
Proof.
  intros Hsp. induction s as [|c s IH]; intros in_run;
    cbn [Py.collapse_ws_from Py.existsb_char]; [reflexivity|].
  intros H. apply orb_false_iff in H. destruct H as [Hc Hs].
  destruct (Py.is_space c), in_run; cbn [Py.existsb_char];
    rewrite ?Hsp, ?Hc, (IH _ Hs); reflexivity.
Qed.

End Absent.

Lemma existsb_char_lower_az09 (s : string) :
  Py.existsb_char is_alnum_ascii s = false ->
  Py.existsb_char is_az09 (Py.lower s) = false.
Proof.
  induction s as [|c s IH]; cbn [Py.lower Py.existsb_char]; [reflexivity|].
  intros H. apply orb_false_iff in H. destruct H as [Hc Hs].
  rewrite (IH Hs), orb_false_r.
  destruct (is_az09 (Py.lower_char c)) eqn:E; [|reflexivity].
  rewrite (lower_char_az09_origin c E) in Hc. discriminate Hc.
Qed.

Lemma existsb_char_lower_ampersand (s : string) :
  Py.existsb_char is_ampersand (Py.lower s) = Py.existsb_char is_ampersand s.
Proof.
  induction s as [|c s IH]; cbn [Py.lower Py.existsb_char]; [reflexivity|].
  rewrite lower_char_ampersand, IH. reflexivity.
Qed.

Lemma replace_char_none (x : ascii) (by_ s : string) :
  Py.existsb_char (fun c => Ascii.eqb c x) s = false -> Py.replace_char x by_ s = s.
Proof.
  induction s as [|c s IH]; cbn [Py.replace_char Py.existsb_char]; [reflexivity|].
  intros H. apply orb_false_iff in H. destruct H as [Hc Hs].
  rewrite Hc, (IH Hs). reflexivity.
Qed.

Lemma replace_ampersand_gives_letters (by_ s : string) :
  Py.existsb_char is_az09 by_ = true ->
  Py.existsb_char is_ampersand s = true ->
  Py.existsb_char is_az09 (Py.replace_char "&"%char by_ s) = true.
Proof.
  intros Hby. induction s as [|c s IH]; cbn [Py.replace_char Py.existsb_char];
    [discriminate|].
  unfold is_ampersand at 1. destruct (Ascii.eqb c "&"%char).
  - intros _. rewrite existsb_char_app, Hby. reflexivity.
  - cbn [orb Py.existsb_char]. intros H. rewrite (IH H). apply orb_true_r.
Qed.

(** A text kept by the filter that holds no letter or digit is made of
    spaces, and stripping it leaves nothing. *)
Lemma filter_without_az09_strips_to_empty (s : string) :
  Py.existsb_char is_az09 s = false ->
  Py.strip (Py.filter_chars Py.is_az09_space s) = EmptyString.
Proof.
  intros H. unfold Py.strip.
  assert (Hl : Py.lstrip (Py.filter_chars Py.is_az09_space s) = EmptyString).
  { induction s as [|c s IH]; cbn [Py.filter_chars Py.existsb_char] in *; [reflexivity|].
    apply orb_false_iff in H. destruct H as [Hc Hs].
    destruct (Py.is_az09_space c) eqn:Ek; [|exact (IH Hs)].
    cbn [Py.lstrip].
    assert (Hsp : Py.is_space c = true).
    { revert Hc Ek. clear. destruct c as [[|] [|] [|] [|] [|] [|] [|] [|]]; vm_compute;
        intros H1 H2; try reflexivity; discriminate. }
    rewrite Hsp. exact (IH Hs). }
  rewrite Hl. reflexivity.
Qed.

Lemma existsb_char_key_material (s : string) :
  Py.existsb_char is_key_material s
  = Py.existsb_char is_alnum_ascii s || Py.existsb_char is_ampersand s.
Proof.
  induction s as [|c s IH]; cbn [Py.existsb_char]; [reflexivity|].
  rewrite IH. unfold is_key_material.
  destruct (is_alnum_ascii c), (is_ampersand c),
    (Py.existsb_char is_alnum_ascii s), (Py.existsb_char is_ampersand s); reflexivity.
Qed.

(** A name without ASCII letter, digit or ampersand has the empty
    canonical key. *)
Lemma canonical_empty_without_key_material (s : string) :
  Py.existsb_char is_key_material s = false -> canonical (Some s) = EmptyString.
Proof.
  rewrite existsb_char_key_material. intros H.
  apply orb_false_iff in H. destruct H as [Ea Eamp].
  unfold canonical.
  apply filter_without_az09_strips_to_empty.
  apply existsb_char_collapse; [reflexivity|].
  apply existsb_char_replace; [reflexivity|].
  rewrite replace_char_none.
  - apply existsb_char_lower_az09. unfold Py.strip.
    apply existsb_char_rstrip, existsb_char_lstrip. exact Ea.
  - change (fun c => Ascii.eqb c "&"%char) with is_ampersand.
    rewrite existsb_char_lower_ampersand. unfold Py.strip.
    apply existsb_char_rstrip, existsb_char_lstrip. exact Eamp.
Qed.

(** A name with an ASCII letter, a digit or an ampersand has a
    non-empty canonical key: the ampersand is spelled out as [and]. *)
Lemma canonical_nonempty_with_key_material (s : string) :
  Py.existsb_char is_key_material s = true -> canonical (Some s) <> EmptyString.
Proof.
  rewrite existsb_char_key_material. intros H.
  apply orb_true_iff in H. destruct H as [H|H].
  - exact (canonical_nonempty s H).
  - unfold canonical. apply (existsb_char_nonempty is_az09).
    apply (strip_keeps _ is_az09_not_space).
    apply (filter_chars_keeps _ _ _ is_az09_kept).
    apply (collapse_ws_keeps _ is_az09_not_space).
    apply replace_char_keeps; [reflexivity|].
    apply replace_ampersand_gives_letters; [reflexivity|].
    rewrite existsb_char_lower_ampersand.
    apply (strip_keeps is_ampersand); [|exact H].
    intros c Hc. unfold is_ampersand in Hc. apply Ascii.eqb_eq in Hc. subst c.
    reflexivity.
Qed.

(** X3. For a name made of code points below 256 (the strings of this
    development), the canonical key is non-empty exactly when the name
    holds an ASCII letter, an ASCII digit or an ampersand.  Names with
    code points from 256 on, whose lower-casing or compatibility forms
    Python may map to ASCII letters, are outside the statement. *)
Theorem canonical_nonempty_iff_key_material (s : string) :
  canonical (Some s) <> EmptyString <-> Py.existsb_char is_key_material s = true.
Proof.
  split.
  - intros Hne. destruct (Py.existsb_char is_key_material s) eqn:E; [reflexivity|].
    exfalso. apply Hne. exact (canonical_empty_without_key_material s E).
  - exact (canonical_nonempty_with_key_material s).
Qed.

(** ** The keys of the reshaped table *)

(** C7, amended.  For a wide coded table with distinct column names, no
    column named [human_label], a chosen identifier column that is not
    named [_construct_canon], and a variable name that differs from the
    generated names and from the chosen identifier, the reshaper
    returns the long table of columns (identifier, construct name,
    [human_label], [_construct_canon]) with exactly N x M rows, M being
    the number of columns other than the identifier: one row per
    construct column and entity row, carrying the numerically coerced
    cell (a text that is not numeric becomes missing) and the canonical
    form of the construct name.  Every key is non-empty when every
    construct name holds an ASCII letter, an ASCII digit or an
    ampersand; the key of a name is empty exactly when the name holds
    none of them, as for [#].  Names are strings of code points below
    256. *)
Theorem melt_gives_one_row_per_entity_and_construct
  (float_repr : float64 -> string) (to_numeric_str : string -> option float64)
  (coded_df : DataFrame) (id_col : option string) (construct_col_name id_var : string) :
  chosen_id_column coded_df id_col = Some id_var ->
  NoDup (names coded_df) ->
  in_list "human_label" (names coded_df) = false ->
  construct_col_name <> id_var ->
  construct_col_name <> "human_label" ->
  construct_col_name <> "_construct_canon" ->
  id_var <> "_construct_canon" ->
  exists long,
    melt_coded_wide_to_long float_repr to_numeric_str coded_df id_col construct_col_name
    = ok long /\
    names long = [id_var; construct_col_name; "human_label"; "_construct_canon"] /\
    rows long
    = flat_map (fun c => map (long_row to_numeric_str coded_df id_var c) (rows coded_df))
               (construct_columns coded_df id_var) /\
    length (rows long)
    = (length (rows coded_df) * (length (columns coded_df) - 1))%nat /\
    (Forall (fun c => Py.existsb_char is_key_material c = true)
            (construct_columns coded_df id_var) ->
     keys_nonempty long) /\
    (forall c, canonical (Some c) = EmptyString <->
               Py.existsb_char is_key_material c = false) /\
    (forall s, to_numeric_str s = None ->
               to_numeric to_numeric_str (VStr s) = VFloat F64nan).
Proof.
  intros Hchosen Hnodup Hfresh Hvi Hvl Hvc Hic.
  destruct (chosen_id_column_selected _ _ _ Hchosen) as [Hsel Hid].
  assert (Hil : id_var <> "human_label").
  { intros ->. unfold has_column in Hid. congruence. }
  unfold melt_coded_wide_to_long. rewrite Hsel. cbn [bind ok].
  fold (construct_columns coded_df id_var).
  destruct (pd_melt_frame coded_df id_var construct_col_name
              (construct_columns coded_df id_var) Hid
              (construct_columns_present coded_df id_var) Hfresh Hvi Hvl) as [d Hmelt].
  rewrite Hmelt. cbn [bind ok].
  remember (flat_map (fun c => map (fun r => [cell_of coded_df id_var r; VStr c;
                                              cell_of coded_df c r])
                                   (rows coded_df))
                     (construct_columns coded_df id_var)) as rows0 eqn:Hrows0.
  assert (Eli : ("human_label" =? id_var)%string = false)
    by (apply String.eqb_neq; congruence).
  assert (Elv : ("human_label" =? construct_col_name)%string = false)
    by (apply String.eqb_neq; congruence).
  assert (Evi : (construct_col_name =? id_var)%string = false)
    by (apply String.eqb_neq; congruence).
  assert (Eci : ("_construct_canon" =? id_var)%string = false)
    by (apply String.eqb_neq; congruence).
  assert (Ecv : ("_construct_canon" =? construct_col_name)%string = false)
    by (apply String.eqb_neq; congruence).
  (* long_df["human_label"] = pd.to_numeric(long_df["human_label"], ...) *)
  rewrite (column_values_at _ _ 2)
    by (unfold names; cbn [columns map cname index_of]; rewrite Eli, Elv; reflexivity).
  cbn [bind ok rows].
  rewrite (set_column_at _ _ _ _ 2)
    by (unfold names; cbn [columns map cname index_of]; rewrite Eli, Elv; reflexivity).
  cbn [columns rows].
  match goal with
  | |- context [replace_nth 2 ?x [?a; ?b; ?c]] =>
      change (replace_nth 2 x [a; b; c]) with [a; b; x]
  end.
  (* long_df["_construct_canon"] = long_df[construct_col_name].astype(str).map(canonical) *)
  rewrite (column_values_at _ _ 1)
    by (unfold names; cbn [columns map cname index_of];
        rewrite Evi, String.eqb_refl; reflexivity).
  cbn [bind ok rows].
  rewrite set_column_new
    by (unfold names; cbn [columns map cname index_of]; rewrite Eci, Ecv; reflexivity).
  cbn [columns rows app].
  eexists. split; [reflexivity|]. unfold names. cbn [columns rows map cname].
  split; [reflexivity|].
  assert (Hrows :
    map (fun '(r, v) => (r ++ [v])%list)
        (combine
           (map (fun '(r, v) => replace_nth 2 v r)
              (combine rows0 (map (to_numeric to_numeric_str) (map (cell 2) rows0))))
           (map (fun v => VStr (canonical (Some (py_str float_repr v))))
              (map (cell 1)
                 (map (fun '(r, v) => replace_nth 2 v r)
                    (combine rows0
                       (map (to_numeric to_numeric_str) (map (cell 2) rows0)))))))
    = flat_map (fun c => map (long_row to_numeric_str coded_df id_var c) (rows coded_df))
               (construct_columns coded_df id_var)).
  { rewrite (map_map (cell 2) (to_numeric to_numeric_str)).
    rewrite (map_combine_self (fun r v => replace_nth 2 v r)
               (fun r => to_numeric to_numeric_str (cell 2 r))).
    rewrite (map_map (cell 1)).
    rewrite (map_combine_self (fun r v => (r ++ [v])%list)
               (fun r => VStr (canonical (Some (py_str float_repr (cell 1 r)))))).
    rewrite map_map. subst rows0. rewrite map_flat_map_blocks.
    apply flat_map_ext. intros c. rewrite map_map. reflexivity. }
  rewrite Hrows. split; [reflexivity|]. split; [|split; [|split]].
  - rewrite length_flat_map_blocks. unfold construct_columns.
    rewrite length_filter_neq; [|exact Hnodup | apply in_list_In; exact Hid].
    unfold names. rewrite length_map. reflexivity.
  - intros Hall vals Hvals.
    rewrite (column_values_at _ _ 3) in Hvals
      by (unfold names; cbn [columns map cname index_of];
          rewrite Eci, Ecv; reflexivity).
    cbn [rows] in Hvals. injection Hvals as <-.
    apply Forall_forall. intros v Hv.
    apply in_map_iff in Hv. destruct Hv as [r [<- Hr]].
    apply in_flat_map in Hr. destruct Hr as [c [Hc Hr]].
    apply in_map_iff in Hr. destruct Hr as [r0 [<- _]].
    rewrite Forall_forall in Hall.
    change (cell 3 (long_row to_numeric_str coded_df id_var c r0))
      with (VStr (canonical (Some c))).
    intros Hkey. injection Hkey as Hkey.
    exact (canonical_nonempty_with_key_material c (Hall c Hc) Hkey).
  - intros c. split.
    + intros Hempty. destruct (Py.existsb_char is_key_material c) eqn:E; [|reflexivity].
      exfalso. exact (canonical_nonempty_with_key_material c E Hempty).
    + exact (canonical_empty_without_key_material c).
  - intros s Hs. cbn [to_numeric]. rewrite Hs. reflexivity.
Qed.

Lemma melt_gives_one_row_per_entity_and_construct_witness :
  exists long,
    melt_coded_wide_to_long (fun _ => "nan") (fun _ => None) coded_with_hash_column
      (Some "sid") "construct_name" = ok long /\
    names long = ["sid"; "construct_name"; "human_label"; "_construct_canon"] /\
    rows long
    = flat_map (fun c => map (long_row (fun _ => None) coded_with_hash_column "sid" c)
                             (rows coded_with_hash_column))
               (construct_columns coded_with_hash_column "sid") /\
    length (rows long)
    = (length (rows coded_with_hash_column)
       * (length (columns coded_with_hash_column) - 1))%nat /\
    (Forall (fun c => Py.existsb_char is_key_material c = true)
            (construct_columns coded_with_hash_column "sid") ->
     keys_nonempty long) /\
    (forall c, canonical (Some c) = EmptyString <->
               Py.existsb_char is_key_material c = false) /\
    (forall s, (fun _ : string => @None float64) s = None ->
               to_numeric (fun _ => None) (VStr s) = VFloat F64nan).
Proof.
  apply (melt_gives_one_row_per_entity_and_construct (fun _ => "nan") (fun _ => None)
           coded_with_hash_column (Some "sid") "construct_name" "sid").
  - reflexivity.
  - repeat constructor; simpl; intuition discriminate.
  - reflexivity.
  - discriminate.
  - discriminate.
  - discriminate.
  - discriminate.
Defined.

(** * Further properties of the identifier normaliser *)

Lemma round_half_even_integer (z : Z) : round_half_even (inject_Z z) = z.
Proof.
  unfold round_half_even, inject_Z. cbn [Qnum Qden].
  rewrite Z.div_1_r, Z.mod_1_r. reflexivity.
Qed.

Lemma Qred_integer (a : Z) : Qred (a # 1) = a # 1.
Proof.
  unfold Qred.
  generalize (Z.ggcd_correct_divisors a 1), (Z.ggcd_gcd a 1).
  destruct (Z.ggcd a 1) as (g, (aa, bb)). cbn [fst snd].
  intros [H1 H2] Hg. rewrite Z.gcd_1_r in Hg. subst g.
  rewrite Z.mul_1_l in H1, H2. subst aa bb. reflexivity.
Qed.

(** An integer below 2^53 in magnitude converts to the double of the same
    value. *)
Lemma round64_small_integer (z : Z) :
  Z.abs z < 2 ^ 53 -> round64 (inject_Z z) = F64 (inject_Z z).
Proof.
  intros Hz. unfold round64. cbv zeta. change (Qnum (inject_Z z)) with z.
  destruct (z =? 0) eqn:E0.
  - apply Z.eqb_eq in E0. subst z. reflexivity.
  - apply Z.eqb_neq in E0.
    assert (Habs : 0 < Z.abs z) by lia.
    change (Qabs (inject_Z z)) with (Z.abs z # 1).
    change (Qnum (Z.abs z # 1)) with (Z.abs z).
    change (Z.log2 (Z.pos (Qden (Z.abs z # 1)))) with 0. rewrite Z.sub_0_r.
    pose proof (Z.log2_spec (Z.abs z) Habs) as [Hlo Hhi].
    pose proof (Z.log2_nonneg (Z.abs z)) as He.
    assert (He53 : Z.log2 (Z.abs z) < 53).
    { apply Z.log2_lt_pow2; [exact Habs | exact Hz]. }
    set (e := Z.log2 (Z.abs z)) in *.
    assert (Hpow : pow2 e = inject_Z (2 ^ e)).
    { unfold pow2. destruct (0 <=? e) eqn:E; [reflexivity|]. apply Z.leb_gt in E. lia. }
    assert (Hlt : Qltb (Z.abs z # 1) (pow2 e) = false).
    { rewrite Hpow. unfold Qltb, Qle_bool, inject_Z. cbn [Qnum Qden].
      apply negb_false_iff. apply Z.leb_le. lia. }
    rewrite Hlt.
    replace (Z.max e (-1022)) with e by lia.
    set (k := 52 - e).
    assert (Hk : 0 <= k) by (unfold k; lia).
    assert (Hp : pow2 (e - 52) = (1 # Z.to_pos (2 ^ k))).
    { unfold pow2. destruct (0 <=? e - 52) eqn:E.
      - apply Z.leb_le in E. assert (e = 52) by lia.
        replace (e - 52) with 0 by lia. replace k with 0 by (unfold k; lia). reflexivity.
      - replace (- (e - 52)) with k by (unfold k; lia). reflexivity. }
    rewrite Hp.
    assert (Hpos : 0 < 2 ^ k) by (apply Z.pow_pos_nonneg; lia).
    assert (Hm : round_half_even ((Z.abs z # 1) / (1 # Z.to_pos (2 ^ k)))
                 = Z.abs z * 2 ^ k).
    { unfold Qdiv, Qinv, Qmult, round_half_even. cbn [Qnum Qden].
      rewrite Pos.mul_1_r. rewrite Z.div_1_r, Z.mod_1_r. cbn [Z.mul Z.compare].
      rewrite Z2Pos.id by exact Hpos. reflexivity. }
    rewrite Hm.
    assert (Hv : Qred (inject_Z (Z.abs z * 2 ^ k) * (1 # Z.to_pos (2 ^ k)))
                 = (Z.abs z # 1)).
    { rewrite <- (Qred_integer (Z.abs z)).
      apply Qred_complete. unfold Qeq, Qmult, inject_Z. cbn [Qnum Qden].
      rewrite Pos.mul_1_l, Z2Pos.id by exact Hpos. ring. }
    rewrite Hv.
    assert (Hfin : Qle_bool (pow2 1024) (Z.abs z # 1) = false).
    { unfold Qle_bool, pow2. cbn [Qnum Qden Z.leb inject_Z].
      change (0 <=? 1024) with true. cbn iota. cbn [inject_Z Qnum Qden].
      apply Z.leb_gt. rewrite !Z.mul_1_r.
      apply Z.lt_trans with (2 ^ 53); [exact Hz|].
      apply Z.pow_lt_mono_r; lia. }
    rewrite Hfin.
    destruct (z <? 0) eqn:En.
    + apply Z.ltb_lt in En. unfold Qopp. cbn [Qnum Qden].
      replace (- Z.abs z) with z by lia. reflexivity.
    + apply Z.ltb_ge in En. replace (Z.abs z) with z by lia. reflexivity.
Qed.

Lemma near_integer_of_integer (z : Z) :
  Qltb (Qabs (inject_Z z - inject_Z (round_half_even (inject_Z z)))) ID_INT_TOL = true.
Proof.
  rewrite round_half_even_integer.
  unfold Qltb, Qle_bool, Qminus, Qplus, Qopp, Qabs, inject_Z. cbn [Qnum Qden].
  replace (z * 1 + - z * 1) with 0 by ring.
  vm_compute. reflexivity.
Qed.

(** X6. An integer identifier below 2^53 in magnitude normalises to its
    decimal string, whether the cell holds it as an int or as a float:
    both sides of a join get the same key for the same integer. *)
Theorem normalize_id_integer_cells (float_repr : float64 -> string) (z : Z) :
  Z.abs z < 2 ^ 53 ->
  _normalize_id_value float_repr (VInt z) = Some (str_of_Z z) /\
  _normalize_id_value float_repr (VFloat (F64 (inject_Z z))) = Some (str_of_Z z).
Proof.
  intros Hz. unfold _normalize_id_value. cbn [isna py_float].
  rewrite (round64_small_integer z Hz). cbn [ok].
  rewrite near_integer_of_integer, round_half_even_integer. split; reflexivity.
Qed.

Lemma normalize_id_integer_cells_witness :
  _normalize_id_value (fun _ => "nan") (VInt (-9007199254740991))
  = Some (str_of_Z (-9007199254740991)) /\
  _normalize_id_value (fun _ => "nan") (VFloat (F64 (inject_Z (-9007199254740991))))
  = Some (str_of_Z (-9007199254740991)).
Proof.
  apply (normalize_id_integer_cells (fun _ => "nan") (-9007199254740991)).
  reflexivity.
Defined.

(** X5. The normalised identifier is missing exactly when the cell is
    missing (None or NaN): no present identifier is turned into a
    missing key. *)
Theorem normalize_id_missing_iff (float_repr : float64 -> string) (v : value) :
  _normalize_id_value float_repr v = None <-> isna v = true.
Proof.
  unfold _normalize_id_value. destruct (isna v) eqn:E.
  - split; reflexivity.
  - split; [|discriminate]. intros H. exfalso. revert H.
    destruct (py_float v) as [e|[q| |]];
      repeat match goal with
             | |- context [if ?b then _ else _] => destruct b
             | |- context [match ?o with Some _ => _ | None => _ end] => destruct o
             end; discriminate.
Qed.

(** * Further properties of the column coercer *)

Lemma same_data_refl (df : DataFrame) : same_data df df.
Proof. split; reflexivity. Qed.

Lemma same_data_trans (a b c : DataFrame) :
  same_data a b -> same_data b c -> same_data a c.
Proof. intros [H1 H2] [H3 H4]. split; congruence. Qed.

Lemma same_data_rename (df : DataFrame) (old new : string) :
  same_data df (rename df old new).
Proof.
  split; [reflexivity|]. unfold rename. cbn [columns]. rewrite map_map.
  apply map_ext. intros c. destruct (String.eqb (cname c) old); reflexivity.
Qed.

Lemma same_data_set_names_two (df : DataFrame) (a b : string) :
  length (names df) = 2%nat -> same_data df (set_names df [a; b]).
Proof.
  unfold names. rewrite length_map. intros H. split; [reflexivity|].
  unfold set_names. cbn [columns].
  destruct (columns df) as [|c0 [|c1 [|c2 l]]]; try discriminate. reflexivity.
Qed.

Lemma names_rename (df : DataFrame) (old new : string) :
  names (rename df old new)
  = map (fun n => if String.eqb n old then new else n) (names df).
Proof.
  unfold names, rename. cbn [columns]. rewrite !map_map.
  apply map_ext. intros c. destruct (String.eqb (cname c) old); reflexivity.
Qed.

Lemma text_step_same_data (float_repr : float64 -> string) (df df1 : DataFrame)
  (text_col : string) :
  (if negb (has_column text_col df)
   then
     obj_cols <- filter_m (fun c => d <- dtype_of df c ;; ok (dtype_is_object d))
                          (names df) ;;
     keyed <- map_m (with_avg_len float_repr df) obj_cols ;;
     match keyed with
     | c0 :: more => ok (rename df (fst (py_max_by snd c0 more)) text_col)
     | [] => l <- last_item (names df) ;; ok (rename df l text_col)
     end
   else ok df) = ok df1 ->
  same_data df df1.
Proof.
  destruct (negb (has_column text_col df)).
  - destruct (filter_m _ (names df)) as [e|obj_cols]; [discriminate|]. cbn [bind].
    destruct (map_m _ obj_cols) as [e|keyed]; [discriminate|]. cbn [bind].
    destruct keyed as [|c0 more].
    + destruct (last_item (names df)) as [e|l]; [discriminate|]. cbn [bind].
      intros E. unfold ok in E. injection E as <-. apply same_data_rename.
    + intros E. unfold ok in E. injection E as <-. apply same_data_rename.
  - intros E. unfold ok in E. injection E as <-. apply same_data_refl.
Qed.

(** Close a goal [same_data df X] where [X] is [df1] under renames
    chosen by tests. *)
Ltac same_data_by_renames H1 :=
  repeat match goal with
         | |- context [if ?b then _ else _] => destruct b
         | |- context [match ?l with [] => _ | _ :: _ => _ end] => destruct l
         end;
  repeat first
    [ exact H1
    | apply same_data_refl
    | eapply same_data_trans; [|apply same_data_rename] ].

(** X7. The coercion only renames columns: whenever it returns, the
    result has the rows of the input and the same column dtypes in the
    same order, hence the same number of columns. *)
Theorem coerce_only_renames
  (float_repr : float64 -> string)
  (get_close_matches : string -> list string -> nat -> Q -> list string)
  (df df' : DataFrame) (id_col : option string) (text_col construct_col : string) :
  coerce_raw_columns float_repr get_close_matches df id_col text_col construct_col
  = ok df' ->
  same_data df df' /\ length (names df') = length (names df).
Proof.
  intros H.
  assert (Hsame : same_data df df').
  { revert H. unfold coerce_raw_columns. cbv zeta.
    destruct (if negb (has_column text_col df)
              then
                obj_cols <- filter_m (fun c => d <- dtype_of df c ;; ok (dtype_is_object d))
                                     (names df) ;;
                keyed <- map_m (with_avg_len float_repr df) obj_cols ;;
                match keyed with
                | c0 :: more => ok (rename df (fst (py_max_by snd c0 more)) text_col)
                | [] => l <- last_item (names df) ;; ok (rename df l text_col)
                end
              else ok df) as [e|df1] eqn:E1.
    - cbn [bind]. destruct id_col as [idc|]; [|discriminate].
      destruct ((length (names df) =? 2)%nat && negb (in_list text_col (names df))) eqn:Es;
        [|discriminate].
      intros E. unfold ok in E. injection E as <-.
      apply andb_true_iff in Es. destruct Es as [Es _]. apply Nat.eqb_eq in Es.
      apply same_data_set_names_two. exact Es.
    - pose proof (text_step_same_data float_repr df df1 text_col E1) as H1.
      cbn [bind]. destruct id_col as [idc|].
      + destruct ((length (names df) =? 2)%nat && negb (in_list text_col (names df)))
          eqn:Es.
        * intros E. unfold ok in E. injection E as <-.
          apply andb_true_iff in Es. destruct Es as [Es _]. apply Nat.eqb_eq in Es.
          apply same_data_set_names_two. exact Es.
        * destruct (truthy (Some idc) && _).
          -- match goal with
             | |- bind ?m _ = _ -> _ =>
                 destruct m as [e|num_cols]; [cbn [bind]; discriminate|]
             end.
             cbn [bind]. destruct num_cols as [|n0 more].
             ++ destruct (first_item (names df)) as [e|f]; [cbn [bind]; discriminate|].
                cbn [bind].
                intros E. unfold ok in E. injection E as <-. same_data_by_renames H1.
             ++ intros E. unfold ok in E. injection E as <-. same_data_by_renames H1.
          -- intros E. unfold ok in E. injection E as <-. same_data_by_renames H1.
      + intros E. unfold ok in E. injection E as <-. same_data_by_renames H1. }
  split; [exact Hsame|].
  destruct Hsame as [_ Hd]. unfold names. rewrite !length_map.
  rewrite <- (length_map cdtype (columns df')), Hd, length_map. reflexivity.
Qed.

Lemma coerce_only_renames_witness :
  same_data raw_three_columns
    (mkDF [mkColumn "code_change_text" dt_object; mkColumn "construct_name" dt_object;
           mkColumn "score" dt_int64]
          [[VStr "changed the loop bound"; VStr "Comment"; VInt 3]]) /\
  length (names (mkDF [mkColumn "code_change_text" dt_object;
                       mkColumn "construct_name" dt_object; mkColumn "score" dt_int64]
                      [[VStr "changed the loop bound"; VStr "Comment"; VInt 3]]))
  = length (names raw_three_columns).
Proof.
  apply (coerce_only_renames (fun _ => "nan") (fun _ _ _ _ => []) raw_three_columns _
           None "code_change_text" "construct_name").
  vm_compute. reflexivity.
Defined.

Lemma text_rule_shape (float_repr : float64 -> string) (df df1 : DataFrame)
  (text_col : string) :
  (obj_cols <- filter_m (fun c => d <- dtype_of df c ;; ok (dtype_is_object d)) (names df) ;;
   keyed <- map_m (with_avg_len float_repr df) obj_cols ;;
   match keyed with
   | c0 :: more => ok (rename df (fst (py_max_by snd c0 more)) text_col)
   | [] => l <- last_item (names df) ;; ok (rename df l text_col)
   end) = ok df1 ->
  exists best, In best (names df) /\ df1 = rename df best text_col.
Proof.
  destruct (filter_m _ (names df)) as [e|obj_cols] eqn:Ef; [discriminate|]. cbn [bind].
  destruct (map_m _ obj_cols) as [e|keyed] eqn:Ek; [discriminate|]. cbn [bind].
  destruct keyed as [|c0 more].
  - destruct (last_item (names df)) as [e|l] eqn:El; [discriminate|]. cbn [bind].
    intros E. unfold ok in E. injection E as <-.
    exists l. split; [exact (last_item_In _ _ El) | reflexivity].
  - intros E. unfold ok in E. injection E as <-.
    exists (fst (py_max_by snd c0 more)). split; [|reflexivity].
    apply (filter_m_subset _ _ _ Ef).
    rewrite <- (map_m_fst_with_avg_len _ _ _ _ Ek).
    apply in_map. apply py_max_by_In.
Qed.

Lemma in_names_rename (df : DataFrame) (old new n : string) :
  In n (names (rename df old new)) -> n = new \/ In n (names df).
Proof.
  rewrite names_rename. intros H. apply in_map_iff in H.
  destruct H as [x [Hx Hin]]. destruct (String.eqb x old); [left | right]; congruence.
Qed.

Lemma in_names_rename_self (df : DataFrame) (c n : string) :
  In n (names (rename df c c)) -> In n (names df).
Proof.
  rewrite names_rename. intros H. apply in_map_iff in H.
  destruct H as [x [Hx Hin]]. destruct (String.eqb x c) eqn:E; [|congruence].
  apply String.eqb_eq in E. congruence.
Qed.

Lemma renamed_away (df : DataFrame) (old new : string) :
  old <> new -> ~ In old (names (rename df old new)).
Proof.
  intros Hne H. rewrite names_rename in H. apply in_map_iff in H.
  destruct H as [x [Hx Hin]]. destruct (String.eqb x old) eqn:E; [congruence|].
  apply String.eqb_neq in E. congruence.
Qed.

Lemma not_in_list (c : string) (l : list string) : ~ In c l -> in_list c l = false.
Proof.
  intros H. destruct (in_list c l) eqn:E; [|reflexivity].
  apply in_list_In in E. contradiction.
Qed.

(** A comprehension over names whose test reads a column raises the
    [KeyError] of the first name that is not a column. *)
Lemma filter_m_key_error (test : string -> pyresult bool) (l : list string) :
  (forall x, In x l -> (exists b, test x = ok b) \/ test x = raise (KeyError x)) ->
  (exists c, In c l /\ test c = raise (KeyError c)) ->
  exists k, In k l /\ filter_m test l = raise (KeyError k).
Proof.
  induction l as [|x l IH]; intros Hall [c [Hc Hraise]]; [destruct Hc|].
  cbn [filter_m].
  destruct (Hall x (or_introl eq_refl)) as [[b Hb] | Hx].
  - destruct Hc as [-> | Hc]; [rewrite Hb in Hraise; discriminate Hraise|].
    destruct IH as [k [Hk Hf]].
    + intros y Hy. apply Hall. right. exact Hy.
    + exists c. split; assumption.
    + exists k. split; [right; exact Hk|]. rewrite Hb, Hf. reflexivity.
  - exists x. split; [left; reflexivity|]. rewrite Hx. reflexivity.
Qed.

(** X8. When the text column is absent, the table has other than two
    columns and an identifier column is requested that the table lacks,
    the coercion raises [KeyError]: the text rule renames a column, and
    the identifier rule then reads the dtypes through the column names
    the table had before. *)
Theorem coerce_raises_on_missing_text_and_id
  (float_repr : float64 -> string)
  (get_close_matches : string -> list string -> nat -> Q -> list string)
  (df : DataFrame) (idc text_col construct_col : string) :
  answers_candidates get_close_matches ->
  names df <> [] ->
  length (names df) <> 2%nat ->
  in_list text_col (names df) = false ->
  in_list idc (names df) = false ->
  idc <> EmptyString -> idc <> text_col -> idc <> construct_col ->
  exists k,
    In k (names df) /\
    coerce_raw_columns float_repr get_close_matches df (Some idc) text_col construct_col
    = raise (KeyError k).
Proof.
  intros Hgcm Hne Hlen Htext Hid Hidne Hit Hic.
  destruct (text_rule_returns float_repr df text_col Hne) as [df1 E1].
  destruct (text_rule_shape float_repr df df1 text_col E1) as [best [Hbest Hdf1]].
  assert (Hbt : best <> text_col).
  { intros ->. apply in_list_In in Hbest. congruence. }
  assert (Hbest1 : ~ In best (names df1)).
  { rewrite Hdf1. apply renamed_away. exact Hbt. }
  set (df2 := if negb (has_column construct_col df1)
              then match get_close_matches construct_col (names df) 1%nat (8 # 10) with
                   | m :: _ => rename df1 m construct_col
                   | [] => df1
                   end
              else df1).
  assert (Hin2 : forall n, In n (names df2) ->
                           n = construct_col \/ n = text_col \/ In n (names df)).
  { intros n Hn.
    assert (H1 : In n (names df1) -> n = text_col \/ In n (names df)).
    { rewrite Hdf1. apply in_names_rename. }
    unfold df2 in Hn. destruct (negb (has_column construct_col df1)); [|auto].
    destruct (get_close_matches construct_col (names df) 1%nat (8 # 10)); [auto|].
    apply in_names_rename in Hn. destruct Hn; auto. }
  assert (Hid2 : has_column idc df2 = false).
  { apply not_in_list. intros H. destruct (Hin2 idc H) as [H1 | [H1 | H1]];
      [congruence | congruence |]. apply in_list_In in H1. congruence. }
  assert (Hgone : exists c, In c (names df) /\ ~ In c (names df2)).
  { unfold df2. destruct (negb (has_column construct_col df1)) eqn:Ec;
      [|exists best; split; assumption].
    destruct (get_close_matches construct_col (names df) 1%nat (8 # 10)) as [|m ms] eqn:Eg;
      [exists best; split; assumption|].
    assert (Hm : In m (names df)).
    { apply (Hgcm construct_col (names df) 1%nat (8 # 10)). rewrite Eg. left. reflexivity. }
    destruct (string_dec m construct_col) as [-> | Hmc].
    - exists best. split; [exact Hbest|]. intros H.
      apply in_names_rename_self in H. contradiction.
    - exists m. split; [exact Hm|]. apply renamed_away. exact Hmc. }
  destruct Hgone as [c [Hc Hc2]].
  destruct (filter_m_key_error
              (fun c => d <- dtype_of df2 c ;; ok (dtype_is_number d)) (names df))
    as [k [Hk Hf]].
  { intros x _. unfold dtype_of. destruct (index_of x (names df2)); [left | right];
      [eexists|]; reflexivity. }
  { exists c. split; [exact Hc|]. unfold dtype_of.
    rewrite (index_of_absent c (names df2) (not_in_list _ _ Hc2)). reflexivity. }
  exists k. split; [exact Hk|].
  unfold coerce_raw_columns. cbv zeta.
  assert (Hhas : has_column text_col df = false) by exact Htext.
  apply Nat.eqb_neq in Hlen. rewrite Hlen, Hhas. cbn [negb andb].
  rewrite E1. cbn [bind ok]. fold df2. rewrite Hid2.
  unfold truthy. rewrite (proj2 (String.eqb_neq idc EmptyString) Hidne). cbn [negb andb].
  rewrite Hf. reflexivity.
Qed.

Lemma coerce_raises_on_missing_text_and_id_witness :
  exists k,
    In k (names raw_three_columns) /\
    coerce_raw_columns (fun _ => "nan") (fun _ _ _ _ => []) raw_three_columns
      (Some "task_submit_id") "code_change_text" "construct_name"
    = raise (KeyError k).
Proof.
  apply coerce_raises_on_missing_text_and_id.
  - intros w p n c m H. destruct H.
  - vm_compute. discriminate.
  - vm_compute. discriminate.
  - reflexivity.
  - reflexivity.
  - discriminate.
  - discriminate.
  - discriminate.
Defined.

(** ** The construct list and the expansion of the raw table *)

Lemma matches_of_unit_key (constructs : list string) :
  matches_of [VInt 1] [1%nat] (map (fun c => [VStr c; VInt 1]) constructs)
  = map (fun c => [VStr c; VInt 1]) constructs.
Proof.
  unfold matches_of. induction constructs as [|c cs IH]; [reflexivity|].
  cbn [map filter].
  change (keys_eqb [VInt 1] [cell 1 [VStr c; VInt 1]]) with true.
  cbv iota. f_equal. exact IH.
Qed.

Lemma cname_at_index (df : DataFrame) (c : string) (i : nat) :
  index_of c (names df) = Some i ->
  cname (nth i (columns df) (mkColumn EmptyString dt_object)) = c.
Proof.
  intros H. destruct (index_of_nth _ _ _ H) as [Hn _].
  unfold names in Hn.
  change EmptyString with (cname (mkColumn EmptyString dt_object)) in Hn.
  rewrite map_nth in Hn. exact Hn.
Qed.

(** The table the expansion returns. *)
Lemma expand_frame (raw_df : DataFrame) (constructs : list string)
  (id_col text_col construct_col : string) :
  has_column id_col raw_df = true ->
  has_column text_col raw_df = true ->
  id_col <> "_key" -> text_col <> "_key" -> construct_col <> "_key" ->
  construct_col <> id_col -> construct_col <> text_col ->
  exists d1 d2,
    expand_raw_by_constructs raw_df constructs id_col text_col construct_col
    = ok (mkDF [mkColumn id_col d1; mkColumn text_col d2;
                mkColumn construct_col dt_object]
               (flat_map (fun r => map (fun c => [cell_of raw_df id_col r;
                                                  cell_of raw_df text_col r; VStr c])
                                       constructs)
                         (rows raw_df))).
Proof.
  intros Hid Htext Hik Htk Hck Hci Hct.
  destruct (index_of_present _ _ Hid) as [i [Hi _]].
  destruct (index_of_present _ _ Htext) as [j [Hj _]].
  pose proof (cname_at_index _ _ _ Hi) as Hni.
  pose proof (cname_at_index _ _ _ Hj) as Hnj.
  assert (Eki : String.eqb "_key" id_col = false)
    by (apply String.eqb_neq; congruence).
  assert (Ekt : String.eqb "_key" text_col = false)
    by (apply String.eqb_neq; congruence).
  assert (Ekc : String.eqb "_key" construct_col = false)
    by (apply String.eqb_neq; congruence).
  assert (Eik : String.eqb id_col "_key" = false) by (apply String.eqb_neq; congruence).
  assert (Etk : String.eqb text_col "_key" = false) by (apply String.eqb_neq; congruence).
  assert (Eck : String.eqb construct_col "_key" = false)
    by (apply String.eqb_neq; congruence).
  assert (Eci : String.eqb construct_col id_col = false)
    by (apply String.eqb_neq; congruence).
  assert (Ect : String.eqb construct_col text_col = false)
    by (apply String.eqb_neq; congruence).
  assert (Eic : String.eqb id_col construct_col = false)
    by (apply String.eqb_neq; congruence).
  assert (Etc : String.eqb text_col construct_col = false)
    by (apply String.eqb_neq; congruence).
  unfold expand_raw_by_constructs, select, indices_of. cbn [map_m].
  rewrite Hi, Hj. cbn [bind ok]. cbv zeta. cbn [rows columns map].
  destruct (nth i (columns raw_df) (mkColumn EmptyString dt_object)) as [n1 d1].
  destruct (nth j (columns raw_df) (mkColumn EmptyString dt_object)) as [n2 d2].
  cbn [cname] in Hni, Hnj. subst n1 n2.
  rewrite set_column_new
    by (unfold names; cbn [columns map cname index_of]; rewrite Eki, Ekt; reflexivity).
  rewrite set_column_new
    by (unfold names; cbn [columns map cname index_of]; rewrite Ekc; reflexivity).
  cbn [columns rows app].
  rewrite (map_combine_self (fun r v => (r ++ [v])%list) (fun _ => VInt 1)).
  rewrite (map_combine_self (fun r v => (r ++ [v])%list) (fun _ => VInt 1)).
  rewrite !map_map. cbn [app].
  unfold pd_merge_inner, indices_of, names. cbn [map_m map columns cname index_of].
  rewrite Eki, Ekt, Ekc. change (String.eqb "_key" "_key") with true.
  cbn [bind ok]. cbn [check_merge_keys columns nth cdtype].
  rewrite merge_key_ok_same_dtype. cbn [bind ok]. cbv zeta.
  unfold positions_not_in. cbn [columns length seq combine filter cname in_list existsb].
  rewrite Eck. change (String.eqb "_key" "_key") with true.
  cbn [orb negb map fst nth cname cdtype in_list existsb andb rows app].
  rewrite Eik, Etk, Eck, Eci, Ect, Eic, Etc.
  cbn [orb negb andb].
  assert (Hrows :
    flat_map
      (fun l : list value =>
         map (fun r : list value => (l ++ [cell 0 r])%list)
             (matches_of [cell 2 l] [1%nat]
                         (map (fun x : string => [VStr x; VInt 1]) constructs)))
      (map (fun x : list value => [cell i x; cell j x; VInt 1]) (rows raw_df))
    = flat_map (fun r => map (fun c => [cell i r; cell j r; VInt 1; VStr c]) constructs)
               (rows raw_df)).
  { induction (rows raw_df) as [|r rs IH]; [reflexivity|].
    cbn [map flat_map]. rewrite IH. f_equal.
    change (cell 2 [cell i r; cell j r; VInt 1]) with (VInt 1).
    rewrite matches_of_unit_key, map_map. reflexivity. }
  rewrite Hrows. clear Hrows.
  unfold drop_column, select, indices_of, names.
  cbn [columns map cname filter].
  rewrite Eik, Etk, Eck. change (String.eqb "_key" "_key") with true.
  cbn [negb map_m index_of].
  rewrite !String.eqb_refl, Eci, Ect, Eck.
  assert (Hfinal : forall k : nat,
    (k = 0 /\ cell j = cell i \/ k = 1)%nat ->
    map (fun r => [cell 0 r; cell k r; cell 3 r])
        (flat_map (fun r => map (fun c => [cell i r; cell j r; VInt 1; VStr c]) constructs)
                  (rows raw_df))
    = flat_map (fun r => map (fun c => [cell_of raw_df id_col r; cell_of raw_df text_col r;
                                        VStr c]) constructs)
               (rows raw_df)).
  { intros k Hk. rewrite map_flat_map_blocks. apply flat_map_ext. intros r.
    rewrite map_map. apply map_ext. intros c. unfold cell_of. rewrite Hi, Hj.
    destruct Hk as [[-> Hsame] | ->]; [rewrite Hsame|]; reflexivity. }
  destruct (String.eqb text_col id_col) eqn:Eti.
  - apply String.eqb_eq in Eti. subst text_col.
    assert (j = i) by congruence. subst j.
    cbn [bind ok]. cbn [columns rows map nth cname].
    rewrite (Hfinal 0%nat) by (left; split; reflexivity).
    exists d1, d1. reflexivity.
  - cbn [bind ok]. cbn [columns rows map nth cname].
    rewrite (Hfinal 1%nat) by (right; reflexivity).
    exists d1, d2. reflexivity.
Qed.

(** X10. Given a raw table that has the identifier and the text column,
    and a construct column name distinct from both and from the helper
    name [_key], the expansion returns the table with the columns
    identifier, text, construct whose rows pair every raw row, in order,
    with every construct of the list, in order: rows times constructs
    rows in all, none when the list is empty. *)
Theorem expand_is_cartesian_product (raw_df : DataFrame) (constructs : list string)
  (id_col text_col construct_col : string) :
  has_column id_col raw_df = true ->
  has_column text_col raw_df = true ->
  id_col <> "_key" -> text_col <> "_key" -> construct_col <> "_key" ->
  construct_col <> id_col -> construct_col <> text_col ->
  exists expanded,
    expand_raw_by_constructs raw_df constructs id_col text_col construct_col = ok expanded /\
    names expanded = [id_col; text_col; construct_col] /\
    rows expanded
    = flat_map (fun r => map (fun c => [cell_of raw_df id_col r; cell_of raw_df text_col r;
                                        VStr c]) constructs)
               (rows raw_df) /\
    length (rows expanded) = (length (rows raw_df) * length constructs)%nat.
Proof.
  intros Hid Htext Hik Htk Hck Hci Hct.
  destruct (expand_frame raw_df constructs id_col text_col construct_col
              Hid Htext Hik Htk Hck Hci Hct) as [d1 [d2 Hframe]].
  rewrite Hframe. eexists. split; [reflexivity|]. split; [reflexivity|].
  cbn [rows]. split; [reflexivity|].
  rewrite length_flat_map_blocks. apply Nat.mul_comm.
Qed.

Lemma expand_is_cartesian_product_witness :
  exists expanded,
    expand_raw_by_constructs raw_with_id ["Comment"; "Testing"]
      "sid" "code_change_text" "construct_name" = ok expanded /\
    names expanded = ["sid"; "code_change_text"; "construct_name"] /\
    rows expanded
    = flat_map (fun r => map (fun c => [cell_of raw_with_id "sid" r;
                                        cell_of raw_with_id "code_change_text" r;
                                        VStr c]) ["Comment"; "Testing"])
               (rows raw_with_id) /\
    length (rows expanded) = (length (rows raw_with_id) * 2)%nat.
Proof.
  apply (expand_is_cartesian_product raw_with_id ["Comment"; "Testing"]
           "sid" "code_change_text" "construct_name");
    solve [reflexivity | discriminate].
Defined.

(** X9. The construct list read from the coded table is the list of
    construct columns the reshaper melts whenever the table has the
    supplied identifier column or a column [task_submit_id].  In the
    fall-back the reshaper takes the first column as identifier, while
    the construct list is every column, that identifier included. *)
Theorem construct_list_against_reshaper (df : DataFrame) (id_col : option string)
  (idv : string) :
  chosen_id_column df id_col = Some idv ->
  if (truthy id_col && opt_in_columns id_col df) || has_column "task_submit_id" df
  then get_construct_list_from_coded df id_col = construct_columns df idv
  else get_construct_list_from_coded df id_col = names df /\
       In idv (get_construct_list_from_coded df id_col) /\
       ~ In idv (construct_columns df idv).
Proof.
  unfold chosen_id_column, get_construct_list_from_coded, construct_columns. cbv zeta.
  destruct (truthy id_col && opt_in_columns id_col df) eqn:E1.
  - cbn [orb]. destruct id_col as [i|]; [|discriminate E1].
    intros [= <-]. reflexivity.
  - cbn [orb]. destruct (has_column "task_submit_id" df) eqn:E2.
    + intros [= <-]. reflexivity.
    + destruct (names df) as [|c rest] eqn:En; [discriminate|].
      intros [= <-]. split; [reflexivity|]. split; [left; reflexivity|].
      intros H. apply filter_In in H. destruct H as [_ H].
      rewrite String.eqb_refl in H. discriminate H.
Qed.

Lemma construct_list_against_reshaper_witness :
  get_construct_list_from_coded coded_with_hash_column None = names coded_with_hash_column /\
  In "sid" (get_construct_list_from_coded coded_with_hash_column None) /\
  ~ In "sid" (construct_columns coded_with_hash_column "sid").
Proof.
  exact (construct_list_against_reshaper coded_with_hash_column None "sid" eq_refl).
Defined.

(** ** The label-column branch of the preparation *)

Lemma add_id_key_other_columns (float_repr : float64 -> string) (id_col : option string)
  (df df' : DataFrame) (k : string) :
  add_id_key float_repr id_col df = ok df' ->
  k <> "_id_key" -> has_column k df' = has_column k df.
Proof.
  unfold add_id_key. intros H Hk.
  assert (Hset : forall d vals,
             has_column k (set_column df "_id_key" d vals) = has_column k df).
  { intros d vals. unfold has_column. rewrite names_set_column.
    destruct (in_list "_id_key" (names df)); [reflexivity|].
    rewrite in_list_app. unfold in_list at 2. cbn [existsb].
    rewrite (proj2 (String.eqb_neq k "_id_key") Hk). rewrite !orb_false_r. reflexivity. }
  destruct id_col as [c|]; [|unfold ok in H; injection H as <-; reflexivity].
  destruct (truthy (Some c) && has_column c df).
  - destruct (column_values df c) as [e|ids]; [discriminate H|].
    cbn [bind] in H. unfold ok in H. injection H as <-. apply Hset.
  - unfold ok in H. injection H as <-. reflexivity.
Qed.

Lemma has_column_rename_absent (df : DataFrame) (old new k : string) :
  k <> new -> has_column k df = false -> has_column k (rename df old new) = false.
Proof.
  intros Hne H. apply not_in_list. intros Hin.
  apply in_names_rename in Hin. destruct Hin as [-> | Hin]; [congruence|].
  apply in_list_In in Hin. unfold has_column in H. congruence.
Qed.

(** X11. With a label column that the coded table has, and no construct
    column and no canonical-construct column in that table, the
    preparation warns that labels will be merged by identifier only;
    the merge that follows never does so: whatever the raw table, it
    raises [KeyError] for the canonical-construct column. *)
Theorem label_column_without_construct_never_merges
  (float_repr : float64 -> string) (to_numeric_str : string -> option float64)
  (coded_df : DataFrame) (id_col : option string) (construct_col lc : string) :
  lc <> EmptyString ->
  has_column lc coded_df = true ->
  has_column construct_col coded_df = false ->
  has_column "_construct_canon" coded_df = false ->
  construct_col <> "human_label" -> construct_col <> "_id_key" ->
  exists coded_long,
    main_prepare_coded float_repr to_numeric_str coded_df id_col construct_col (Some lc)
    = ([WarnLabelsMergedByIdOnly construct_col], ok coded_long) /\
    forall raw_df,
      snd (main_merge float_repr id_col construct_col raw_df coded_long)
      = raise (KeyError "_construct_canon").
Proof.
  intros Hlc Hhas Hcons Hcanon Hch Hck.
  set (coded_long := if negb (has_column "human_label" coded_df)
                     then rename coded_df lc "human_label" else coded_df).
  assert (Hcons' : has_column construct_col coded_long = false).
  { unfold coded_long. destruct (negb (has_column "human_label" coded_df)); [|exact Hcons].
    apply has_column_rename_absent; assumption. }
  assert (Hcanon' : has_column "_construct_canon" coded_long = false).
  { unfold coded_long. destruct (negb (has_column "human_label" coded_df)); [|exact Hcanon].
    apply has_column_rename_absent; [discriminate | exact Hcanon]. }
  exists coded_long. split.
  - unfold main_prepare_coded. cbv zeta. fold coded_long.
    unfold truthy. rewrite (proj2 (String.eqb_neq lc EmptyString) Hlc), Hhas.
    cbn [negb andb]. rewrite Hcons'. reflexivity.
  - intros raw_df. unfold main_merge. rewrite choose_merge_keys_spec.
    destruct (add_id_key_returns float_repr id_col raw_df) as [raw' [Hraw _]].
    destruct (add_id_key_returns float_repr id_col coded_long) as [coded' [Hcoded [_ Hkey]]].
    pose proof (add_id_key_other_columns _ _ _ _ "_construct_canon" Hcoded
                  ltac:(discriminate)) as H1.
    pose proof (add_id_key_other_columns _ _ _ _ construct_col Hcoded Hck) as H2.
    rewrite Hcanon' in H1. rewrite Hcons' in H2.
    assert (Hstep :
      forall keys,
        (raw_df0 <- add_id_key float_repr id_col raw_df ;;
         coded_long0 <- add_id_key float_repr id_col coded_long ;;
         coded_long1 <-
           (if negb (has_column "_construct_canon" coded_long0)
               && has_column construct_col coded_long0
            then
              cs <- column_values coded_long0 construct_col ;;
              ok (set_column coded_long0 "_construct_canon" dt_object
                    (map (fun v => VStr (canonical (match v with
                                                     | VNone => None
                                                     | _ => Some (py_str float_repr v)
                                                     end))) cs))
            else ok coded_long0) ;;
         right <- select coded_long1 (keys ++ ["human_label"])%list ;;
         merged <- pd_merge_left raw_df0 right keys ;;
         ok (keys, merged))
        = (right <- select coded' (keys ++ ["human_label"])%list ;;
           merged <- pd_merge_left raw' right keys ;;
           ok (keys, merged))).
    { intros keys. rewrite Hraw, Hcoded. cbn [bind ok]. rewrite H1, H2. cbn [negb andb bind ok]. reflexivity. }
    destruct (id_on_both_sides id_col raw_df coded_long) eqn:Eb; cbn [snd];
      rewrite Hstep; unfold select, indices_of; cbn [app map_m].
    + unfold id_on_both_sides in Eb.
      apply andb_true_iff in Eb. destruct Eb as [Eb1 Eb2].
      apply andb_true_iff in Eb1. destruct Eb1 as [Eb1 _].
      destruct (index_of_present _ _ (Hkey Eb1 Eb2)) as [i [Hi _]]. rewrite Hi.
      rewrite (index_of_absent _ _ H1). reflexivity.
    + rewrite (index_of_absent _ _ H1). reflexivity.
Qed.

Lemma label_column_without_construct_never_merges_witness :
  exists coded_long,
    main_prepare_coded (fun _ => "nan") (fun _ => None) coded_single_label
      (Some "sid") "construct_name" (Some "label")
    = ([WarnLabelsMergedByIdOnly "construct_name"], ok coded_long) /\
    forall raw_df,
      snd (main_merge (fun _ => "nan") (Some "sid") "construct_name" raw_df coded_long)
      = raise (KeyError "_construct_canon").
Proof.
  apply label_column_without_construct_never_merges;
    solve [reflexivity | discriminate].
Defined.

(** ** Where the cells of a merged row come from *)

Lemma indices_of_key_of (df : DataFrame) (on : list string) (idx : list nat)
  (r : list value) :
  indices_of on df = ok idx -> map (fun i => cell i r) idx = key_of df on r.
Proof.
  unfold indices_of, key_of. revert idx.
  induction on as [|k on IH]; intros idx; cbn [map_m map].
  - intros [= <-]. reflexivity.
  - unfold cell_of at 1. destruct (index_of k (names df)) as [i|]; [|discriminate].
    cbn [bind ok]. destruct (map_m _ on) as [e|idx'] eqn:E; [discriminate|].
    cbn [bind ok]. intros [= <-]. cbn [map]. rewrite (IH idx' eq_refl). reflexivity.
Qed.

Lemma filter_nil_iff {A : Type} (f : A -> bool) (l : list A) :
  filter f l = [] <-> forall x, In x l -> f x = false.
Proof.
  induction l as [|a l IH]; cbn [filter].
  - split; [intros _ x [] | reflexivity].
  - destruct (f a) eqn:E.
    + split; [discriminate|]. intros H. rewrite (H a (or_introl eq_refl)) in E.
      discriminate E.
    + rewrite IH. split.
      * intros H x [<- | Hx]; [exact E | exact (H x Hx)].
      * intros H x Hx. apply H. right. exact Hx.
Qed.

(** X12. The rows of a left merge are exactly these: a left-hand row
    followed by the non-key cells of a right-hand row with equal key
    cells, and a left-hand row followed by missing values when no
    right-hand row has equal key cells.  No row gets cells from a row
    with a different key. *)
Theorem left_merge_rows_characterised (left right merged : DataFrame)
  (on : list string) (m : list value) :
  pd_merge_left left right on = ok merged ->
  In m (rows merged) <->
  exists l,
    In l (rows left) /\
    ((exists r, In r (rows right) /\
                keys_eqb (key_of left on l) (key_of right on r) = true /\
                m = (l ++ joined_cells right on r)%list) \/
     ((forall r, In r (rows right) ->
                 keys_eqb (key_of left on l) (key_of right on r) = false) /\
      m = (l ++ missing_labels right on)%list)).
Proof.
  unfold pd_merge_left.
  destruct (indices_of on left) as [e|lidx] eqn:El; [discriminate|].
  destruct (indices_of on right) as [e|ridx] eqn:Er; [discriminate|].
  cbn [bind ok].
  destruct (check_merge_keys left right lidx ridx) as [e|[]]; [discriminate|].
  cbn [bind ok]. cbv zeta. intros H. unfold ok in H. injection H as <-. cbn [rows].
  assert (Hmatch : forall l r,
             keys_eqb (map (fun i => cell i l) lidx) (map (fun i => cell i r) ridx)
             = keys_eqb (key_of left on l) (key_of right on r)).
  { intros l r. rewrite (indices_of_key_of _ _ _ l El), (indices_of_key_of _ _ _ r Er).
    reflexivity. }
  rewrite in_flat_map. split.
  - intros [l [Hl Hm]]. exists l. split; [exact Hl|].
    unfold join_row, matches_of in Hm.
    destruct (filter _ (rows right)) as [|r0 ms] eqn:Ef.
    + right. destruct Hm as [<- | []]. split; [|reflexivity].
      intros r Hr. rewrite <- Hmatch.
      exact (proj1 (filter_nil_iff _ _) Ef r Hr).
    + left. rewrite <- Ef in Hm. apply in_map_iff in Hm.
      destruct Hm as [r [<- Hr]]. apply filter_In in Hr. destruct Hr as [Hr Hk].
      exists r. split; [exact Hr|]. split; [|reflexivity].
      rewrite <- Hmatch. exact Hk.
  - intros [l [Hl [[r [Hr [Hk ->]]] | [Hnone ->]]]]; exists l; (split; [exact Hl|]).
    + unfold join_row, matches_of.
      assert (Hin : In r (filter (fun r0 => keys_eqb (map (fun i => cell i l) lidx)
                                              (map (fun i => cell i r0) ridx))
                                 (rows right))).
      { apply filter_In. split; [exact Hr|]. rewrite Hmatch. exact Hk. }
      destruct (filter _ (rows right)) as [|r0 ms] eqn:Ef; [destruct Hin|].
      apply in_map_iff. exists r. split; [reflexivity | exact Hin].
    + unfold join_row, matches_of.
      rewrite (proj2 (filter_nil_iff _ _)).
      * left. reflexivity.
      * intros r Hr. rewrite Hmatch. exact (Hnone r Hr).
Qed.

Lemma left_merge_rows_characterised_witness :
  exists merged,
    pd_merge_left raw_with_id coded_two_entities ["_construct_canon"] = ok merged /\
    (In [VInt 1; VStr "x = 1"; VStr "Comment"; VStr "comment"; VInt 0] (rows merged) <->
     exists l,
       In l (rows raw_with_id) /\
       ((exists r, In r (rows coded_two_entities) /\
                   keys_eqb (key_of raw_with_id ["_construct_canon"] l)
                            (key_of coded_two_entities ["_construct_canon"] r) = true /\
                   [VInt 1; VStr "x = 1"; VStr "Comment"; VStr "comment"; VInt 0]
                   = (l ++ joined_cells coded_two_entities ["_construct_canon"] r)%list) \/
        ((forall r, In r (rows coded_two_entities) ->
                    keys_eqb (key_of raw_with_id ["_construct_canon"] l)
                             (key_of coded_two_entities ["_construct_canon"] r) = false) /\
         [VInt 1; VStr "x = 1"; VStr "Comment"; VStr "comment"; VInt 0]
         = (l ++ missing_labels coded_two_entities ["_construct_canon"])%list))).
Proof.
  eexists. split; [reflexivity|].
  apply (left_merge_rows_characterised raw_with_id coded_two_entities _
           ["_construct_canon"]).
  reflexivity.
Defined.

(** X13. The left merge of a rectangular table is rectangular: every
    merged row has as many cells as the merged table has columns, which
    are the columns of the left-hand table and the non-key columns of
    the right-hand one. *)
Theorem left_merge_is_rectangular (left right merged : DataFrame) (on : list string) :
  well_formed left ->
  pd_merge_left left right on = ok merged ->
  well_formed merged /\
  length (columns merged)
  = (length (columns left) + length (positions_not_in on right))%nat.
Proof.
  intros Hwf. unfold pd_merge_left.
  destruct (indices_of on left) as [e|lidx]; [discriminate|].
  destruct (indices_of on right) as [e|ridx]; [discriminate|].
  cbn [bind ok].
  destruct (check_merge_keys left right lidx ridx) as [e|[]]; [discriminate|].
  cbn [bind ok]. cbv zeta. intros H. unfold ok in H. injection H as <-.
  assert (Hcols : forall lc rc : list Column,
             length (map (fun c => if negb (in_list (cname c) on)
                                      && in_list (cname c) (map cname rc)
                                   then mkColumn (cname c ++ "_x") (cdtype c) else c)
                         (columns left) ++
                     map (fun c => if negb (in_list (cname c) on)
                                      && in_list (cname c) (map cname lc)
                                   then mkColumn (cname c ++ "_y") (cdtype c) else c)
                         (map (fun i => nth i (columns right)
                                            (mkColumn EmptyString dt_object))
                              (positions_not_in on right)))
             = (length (columns left) + length (positions_not_in on right))%nat).
  { intros lc rc. rewrite length_app, !length_map. reflexivity. }
  unfold well_formed. cbn [columns rows]. rewrite Hcols. split; [|reflexivity].
  apply Forall_forall. intros m Hm. apply in_flat_map in Hm.
  destruct Hm as [l [Hl Hm]].
  unfold well_formed in Hwf. rewrite Forall_forall in Hwf. specialize (Hwf l Hl).
  unfold join_row in Hm.
  destruct (matches_of _ ridx (rows right)) as [|r0 ms].
  - destruct Hm as [<- | []]. rewrite length_app, length_map, Hwf. reflexivity.
  - apply in_map_iff in Hm. destruct Hm as [r [<- _]].
    rewrite length_app, length_map, Hwf. reflexivity.
Qed.

Lemma left_merge_is_rectangular_witness :
  exists merged,
    pd_merge_left raw_with_id coded_two_entities ["_construct_canon"] = ok merged /\
    well_formed merged /\
    length (columns merged)
    = (length (columns raw_with_id)
       + length (positions_not_in ["_construct_canon"] coded_two_entities))%nat.
Proof.
  eexists. split; [reflexivity|].
  apply (left_merge_is_rectangular raw_with_id coded_two_entities _ ["_construct_canon"]).
  - repeat constructor.
  - reflexivity.
Defined.

(** ** The first digit that stands alone *)

Lemma search_standalone_first (pre : string) (c : ascii) (post : string) :
  forall prev_word,
    Py.existsb_char is_bit pre = false ->
    last_is_word prev_word pre = false ->
    is_bit c = true -> starts_with_word post = false ->
    search_standalone_bit prev_word (pre ++ String c post) = Some (digit_val c).
Proof.
  induction pre as [|a pre IH]; intros pw Hnone Hpre Hbit Hpost.
  - cbn [append search_standalone_bit]. fold (starts_with_word post).
    cbn [last_is_word] in Hpre. rewrite Hbit, Hpre, Hpost. reflexivity.
  - cbn [Py.existsb_char] in Hnone. apply orb_false_iff in Hnone.
    destruct Hnone as [Ha Hnone]. cbn [last_is_word] in Hpre.
    cbn [append search_standalone_bit]. rewrite Ha. cbn [andb].
    apply IH; assumption.
Qed.

(** X14. The label is the first digit 0 or 1 that stands alone: when the
    answer holds such a digit with no 0 or 1 before it, the parser
    returns that digit without a warning, whatever follows it. *)
Theorem first_standalone_digit_is_the_label (pre : string) (c : ascii) (post : string) :
  Py.existsb_char is_bit pre = false ->
  last_is_word false pre = false ->
  is_bit c = true ->
  starts_with_word post = false ->
  parse_binary_label (pre ++ String c post) = (digit_val c, []).
Proof.
  intros Hnone Hpre Hbit Hpost. unfold parse_binary_label.
  rewrite (search_standalone_first pre c post false Hnone Hpre Hbit Hpost).
  reflexivity.
Qed.

Lemma first_standalone_digit_is_the_label_witness :
  parse_binary_label ("The answer is " ++ String "1"%char ", not 0.") = (1, []).
Proof.
  apply (first_standalone_digit_is_the_label "The answer is " "1"%char ", not 0.");
    reflexivity.
Defined.

(** ** Groups of one class, and the range of the shares *)

Lemma fold_insert_label_constant (a : Z) (l : list Z) :
  Forall (eq a) l -> l <> [] -> fold_right insert_label [] l = [a].
Proof.
  induction l as [|x l IH]; intros Hall Hne; [congruence|].
  inversion Hall as [|? ? Hx Hl]; subst. cbn [fold_right].
  destruct l as [|y l'].
  - reflexivity.
  - rewrite IH by (assumption || discriminate).
    cbn [insert_label]. rewrite Z.eqb_refl. reflexivity.
Qed.

Lemma Forall_repeat {A : Type} (P : A -> Prop) (x : A) (n : nat) :
  P x -> Forall P (repeat x n).
Proof. intros H. induction n; cbn [repeat]; constructor; assumption. Qed.

Lemma unique_labels_constant (a : Z) (n : nat) :
  unique_labels (repeat a (S n)) (repeat a (S n)) = [a].
Proof.
  unfold unique_labels. apply fold_insert_label_constant.
  - apply Forall_app. split; apply Forall_repeat; reflexivity.
  - cbn [repeat app]. discriminate.
Qed.

Lemma cohen_kappa_score_constant (a : Z) (n : nat) :
  cohen_kappa_score (repeat a (S n)) (repeat a (S n)) = ok F64nan.
Proof.
  unfold cohen_kappa_score. rewrite Nat.eqb_refl. cbn [negb]. cbv zeta.
  rewrite unique_labels_constant.
  cbn [map flat_map app Zsum Qsum fold_right]. rewrite Z.eqb_refl.
  match goal with
  | |- context [(inject_Z 0 * ?e + 0)%Q] => generalize e
  end.
  intros e. unfold np_divide.
  assert (H1 : Qeq_bool (inject_Z 0 * e + 0) 0 = true) by (apply Qeq_bool_iff; ring).
  rewrite H1.
  match goal with
  | |- context [Qeq_bool (inject_Z ?z) 0] =>
      assert (H2 : Qeq_bool (inject_Z z) 0 = true)
        by (apply Qeq_bool_iff; replace z with 0 by lia; reflexivity)
  end.
  rewrite H2. reflexivity.
Qed.

Lemma map_m_astype_int_repeat (a : Z) (n : nat) :
  map_m astype_int (repeat (VInt a) n) = ok (repeat a n).
Proof.
  induction n as [|n IH]; [reflexivity|].
  cbn [repeat map_m astype_int bind ok]. rewrite IH. reflexivity.
Qed.

Lemma map_repeat {A B : Type} (f : A -> B) (x : A) (n : nat) :
  map f (repeat x n) = repeat (f x) n.
Proof. induction n as [|n IH]; [reflexivity|]. cbn [repeat map]. rewrite IH. reflexivity. Qed.

(** X15. A group on which every human label and every prediction is the
    same integer label gets the coefficient NaN: [cohen_kappa_score]
    divides zero by zero and raises nothing, so the record of the group
    holds NaN and not an absent value. *)
Theorem unanimous_group_has_nan_kappa (c : value) (a : Z) (n : nat) :
  cohen_kappa_score (repeat a (S n)) (repeat a (S n)) = ok F64nan /\
  exists f pr rc,
    construct_metrics c (repeat (VInt a, VInt a) (S n))
    = ok (mkMetrics c (Some f) (Some F64nan) (Some pr) (Some rc) (Z.of_nat (S n))).
Proof.
  split; [apply cohen_kappa_score_constant|].
  unfold construct_metrics.
  assert (Hfilter : filter (fun '(h, _) => negb (isna h)) (repeat (VInt a, VInt a) (S n))
                    = repeat (VInt a, VInt a) (S n)).
  { induction (S n) as [|k IH]; [reflexivity|]. cbn [repeat filter isna negb].
    rewrite IH. reflexivity. }
  rewrite Hfilter. cbv zeta. rewrite repeat_length.
  destruct (Z.of_nat (S n) =? 0) eqn:E; [apply Z.eqb_eq in E; lia|].
  rewrite !map_repeat. cbn [fst snd]. rewrite map_m_astype_int_repeat.
  cbn [bind ok]. rewrite cohen_kappa_score_constant.
  unfold precision_score, recall_score, check_binary.
  rewrite unique_labels_constant. cbn [length Nat.ltb Nat.leb existsb andb orb negb].
  rewrite andb_false_r. cbn [bind ok].
  do 3 eexists. reflexivity.
Qed.

Lemma map_m_length {A B : Type} (f : A -> pyresult B) (l : list A) (l' : list B) :
  map_m f l = ok l' -> length l' = length l.
Proof.
  revert l'. induction l as [|x l IH]; intros l'; cbn [map_m].
  - intros [= <-]. reflexivity.
  - destruct (f x) as [e|y]; [discriminate|]. cbn [bind ok].
    destruct (map_m f l) as [e|r]; [discriminate|]. cbn [bind ok].
    intros [= <-]. cbn [length]. rewrite (IH r eq_refl). reflexivity.
Qed.

Lemma count_le_length {A : Type} (p : A -> bool) (l : list A) :
  count p l <= Z.of_nat (length l).
Proof. unfold count. pose proof (filter_length_le p l). lia. Qed.

Lemma true_positives_le (y_true y_pred : list Z) :
  true_positives y_true y_pred <= count (Z.eqb 1) y_pred /\
  true_positives y_true y_pred <= count (Z.eqb 1) y_true.
Proof.
  unfold true_positives. revert y_pred.
  induction y_true as [|t yt IH]; intros [|p yp]; cbn [combine];
    try (split; apply count_nonneg).
  rewrite !count_cons. destruct (IH yp) as [H1 H2].
  destruct (Z.eqb_spec t 1) as [-> | Ht], (Z.eqb_spec p 1) as [-> | Hp]; cbn [andb].
  - change (1 =? 1) with true. cbv iota. lia.
  - change (1 =? 1) with true. cbv iota.
    destruct (Z.eqb_spec 1 p); [congruence|]. lia.
  - change (1 =? 1) with true. cbv iota.
    destruct (Z.eqb_spec 1 t); [congruence|]. lia.
  - destruct (Z.eqb_spec 1 t), (Z.eqb_spec 1 p); try congruence. lia.
Qed.

Lemma share_in_unit_interval (a b : Z) :
  0 <= a <= b -> 0 < b -> (0 <= a # Z.to_pos b <= 1)%Q.
Proof.
  intros Ha Hb. unfold Qle. cbn [Qnum Qden]. rewrite Z2Pos.id by lia. lia.
Qed.

Lemma ratio_or_zero_unit_interval (tp d : Z) :
  0 <= tp <= d -> unit_interval (Some (ratio_or_zero tp d)).
Proof.
  intros H. unfold ratio_or_zero. destruct (Z.eqb_spec d 0) as [-> | Hd]; cbn [unit_interval].
  - unfold Qle. cbn. lia.
  - apply share_in_unit_interval; lia.
Qed.

(** X16. Whenever the loop body returns the record of a group, its
    frequency, precision and recall are absent or finite numbers between
    0 and 1, and its number of evaluable rows is not negative; this
    holds for any labels, binary or not. *)
Theorem construct_metrics_shares_in_unit_interval (c : value) (g : list (value * value))
  (r : metrics_row) :
  construct_metrics c g = ok r ->
  unit_interval (freq_in_data r) /\
  unit_interval (hum_gpt_precision r) /\
  unit_interval (hum_gpt_recall r) /\
  0 <= n_eval r.
Proof.
  unfold construct_metrics. cbv zeta.
  set (evaluable := filter (fun '(h, _) => negb (isna h)) g).
  destruct (Z.of_nat (length evaluable) =? 0) eqn:E.
  - intros [= <-]. cbn. repeat split; lia.
  - apply Z.eqb_neq in E.
    destruct (map_m astype_int (map fst evaluable)) as [e|y_true] eqn:Et; [discriminate|].
    destruct (map_m astype_int (map snd evaluable)) as [e|y_pred] eqn:Ep; [discriminate|].
    cbn [bind ok]. unfold precision_score, recall_score.
    destruct (check_binary y_true y_pred) as [e|[]]; [discriminate|].
    cbn [bind ok]. intros [= <-].
    cbn [freq_in_data hum_gpt_precision hum_gpt_recall n_eval].
    pose proof (map_m_length _ _ _ Et) as Hlen. rewrite length_map in Hlen.
    pose proof (true_positives_le y_true y_pred) as [Hp Hr].
    assert (Htp : 0 <= true_positives y_true y_pred) by apply count_nonneg.
    split; [|split; [|split]].
    + cbn [unit_interval]. apply share_in_unit_interval; [|lia].
      split; [apply count_nonneg|]. rewrite <- Hlen. apply count_le_length.
    + apply ratio_or_zero_unit_interval. lia.
    + apply ratio_or_zero_unit_interval. lia.
    + lia.
Qed.

Lemma construct_metrics_shares_in_unit_interval_witness :
  unit_interval (Some (F64 (2 # 4))) /\
  unit_interval (Some (F64 (1 # 1))) /\
  unit_interval (Some (F64 (1 # 2))) /\
  0 <= 4.
Proof.
  exact (construct_metrics_shares_in_unit_interval (VStr "Comment") fixed_pair
           (mkMetrics (VStr "Comment") (Some (F64 (2 # 4))) (Some (F64 (256 # 512)))
                      (Some (F64 (1 # 1))) (Some (F64 (1 # 2))) 4)
           eq_refl).
Defined.

(** Labels beyond the range of int64 are stored as the smallest int64 by
    the conversion; the group still gets its record. *)
Example construct_metrics_on_labels_beyond_int64 :
  exists r,
    construct_metrics (VStr "Comment")
      [(VFloat (round64 (inject_Z (10 ^ 300))), VInt 1);
       (VFloat (round64 (inject_Z (10 ^ 301))), VInt 1);
       (VFloat (F64 1), VInt 1)] = ok r /\
    freq_in_data r = Some (F64 (1 # 3)) /\
    hum_gpt_precision r = Some (F64 (1 # 3)) /\
    hum_gpt_recall r = Some (F64 1) /\
    n_eval r = 3.
Proof. eexists. split; [vm_compute; reflexivity|]. repeat split. Qed.

(** ** The renderer on the documents of the scoring engine *)

Lemma map_m_map {A B C : Type} (f : B -> pyresult C) (h : A -> B) (l : list A) :
  map_m f (map h l) = map_m (fun x => f (h x)) l.
Proof.
  induction l as [|x l IH]; [reflexivity|]. cbn [map map_m]. rewrite IH. reflexivity.
Qed.

Lemma astype_float_metric_cells (get : metrics_row -> option float64)
  (records : list metrics_row) :
  map_m astype_float (map (fun r => metric_cell (get r)) records)
  = ok (map (fun r => match get r with Some f => f | None => F64nan end) records).
Proof.
  rewrite map_m_map. apply map_m_ok. intros r _. destruct (get r); reflexivity.
Qed.

Lemma float_to_int_percent (f : float64) :
  match fmul f 100 with
  | F64 _ => exists z, float_to_int (round0 (fmul f 100)) = ok z
  | _ => float_to_int (round0 (fmul f 100)) = raise ValueError
  end.
Proof.
  destruct (fmul f 100); cbn [round0 rint float_to_int]; [eexists|..]; reflexivity.
Qed.

Lemma percent_of_frequencies (records : list metrics_row) :
  percent (map (fun r => metric_cell (freq_in_data r)) records)
  = if forallb finite_percentage records
    then ok (map (fun r =>
                    VStr (str_of_Z
                            match float_to_int
                                    (round0 (fmul match freq_in_data r with
                                                  | Some f => f
                                                  | None => F64nan
                                                  end 100)) with
                            | inr z => z
                            | inl _ => 0
                            end ++ "%")) records)
    else raise ValueError.
Proof.
  unfold percent. rewrite astype_float_metric_cells. cbn [bind ok].
  rewrite map_map.
  assert (H : map_m float_to_int
                (map (fun r => round0 (fmul match freq_in_data r with
                                            | Some f => f
                                            | None => F64nan
                                            end 100)) records)
              = if forallb finite_percentage records
                then ok (map (fun r =>
                                match float_to_int
                                        (round0 (fmul match freq_in_data r with
                                                      | Some f => f
                                                      | None => F64nan
                                                      end 100)) with
                                | inr z => z
                                | inl _ => 0
                                end) records)
                else raise ValueError).
  { induction records as [|r rs IH]; [reflexivity|].
    cbn [map map_m forallb]. rewrite IH.
    replace (finite_percentage r)
      with (match freq_in_data r with
            | Some f => match fmul f 100 with F64 _ => true | _ => false end
            | None => false
            end) by reflexivity.
    destruct (freq_in_data r) as [f|]; [|reflexivity].
    pose proof (float_to_int_percent f) as Hf.
    destruct (fmul f 100) as [p| |].
    - destruct Hf as [z Hz]. rewrite Hz. cbn [bind ok andb].
      destruct (forallb finite_percentage rs); reflexivity.
    - rewrite Hf. reflexivity.
    - rewrite Hf. reflexivity. }
  rewrite H. destruct (forallb finite_percentage records); [|reflexivity].
  cbn [bind ok]. rewrite map_map. reflexivity.
Qed.

Ltac read_column c i :=
  match goal with
  | |- context [column_values ?df c] => rewrite (column_values_at df c i eq_refl)
  end.

Ltac write_column c i :=
  match goal with
  | |- context [set_column ?df c ?d ?vals] => rewrite (set_column_at df c d vals i eq_refl)
  end.

Lemma pretty_format_on_records (r0 : metrics_row) (rs : list metrics_row) :
  pretty_format (metrics_document (r0 :: rs))
  = if forallb finite_percentage (r0 :: rs)
    then ok (mkDF [mkColumn "construct" dt_object; mkColumn "freq_in_data" dt_object;
                   mkColumn "hum_gpt_kappa" dt_float64;
                   mkColumn "hum_gpt_precision" dt_float64;
                   mkColumn "hum_gpt_recall" dt_float64]
                  (map (fun r =>
                          [construct r;
                           VStr (str_of_Z
                                   match float_to_int
                                           (round0 (fmul match freq_in_data r with
                                                         | Some f => f
                                                         | None => F64nan
                                                         end 100)) with
                                   | inr z => z
                                   | inl _ => 0
                                   end ++ "%");
                           VFloat (round2 match hum_gpt_kappa r with
                                          | Some f => f
                                          | None => F64nan
                                          end);
                           VFloat (round2 match hum_gpt_precision r with
                                          | Some f => f
                                          | None => F64nan
                                          end);
                           VFloat (round2 match hum_gpt_recall r with
                                          | Some f => f
                                          | None => F64nan
                                          end)])
                       (r0 :: rs)))
    else raise ValueError.
Proof.
  unfold metrics_document. cbv iota.
  remember (r0 :: rs) as records eqn:Hrec. clear Hrec r0 rs.
  unfold pretty_format.
  unfold update_column at 1.
  change (has_column "freq_in_data" _) with true. cbv iota.
  read_column "freq_in_data" 1%nat. cbn [bind ok rows].
  rewrite map_map.
  change (map (fun x : metrics_row => cell 1 _) records)
    with (map (fun r => metric_cell (freq_in_data r)) records).
  rewrite percent_of_frequencies.
  destruct (forallb finite_percentage records); [|reflexivity].
  cbn [bind ok].
  write_column "freq_in_data" 1%nat.
  cbn [columns rows replace_nth]. rewrite combine_map_map, map_map. cbn [replace_nth].
  unfold update_column at 1.
  change (has_column "hum_gpt_kappa" _) with true. cbv iota.
  read_column "hum_gpt_kappa" 2%nat. cbn [bind ok rows].
  rewrite map_map.
  change (map (fun x : metrics_row => cell 2 _) records)
    with (map (fun r => metric_cell (hum_gpt_kappa r)) records).
  unfold rounded2 at 1. rewrite astype_float_metric_cells. cbn [bind ok].
  write_column "hum_gpt_kappa" 2%nat.
  cbn [columns rows replace_nth]. rewrite map_map, combine_map_map, map_map.
  cbn [replace_nth].
  unfold update_column at 1.
  change (has_column "hum_gpt_precision" _) with true. cbv iota.
  read_column "hum_gpt_precision" 3%nat. cbn [bind ok rows].
  rewrite map_map.
  change (map (fun x : metrics_row => cell 3 _) records)
    with (map (fun r => metric_cell (hum_gpt_precision r)) records).
  unfold rounded2 at 1. rewrite astype_float_metric_cells. cbn [bind ok].
  write_column "hum_gpt_precision" 3%nat.
  cbn [columns rows replace_nth]. rewrite map_map, combine_map_map, map_map.
  cbn [replace_nth].
  unfold update_column at 1.
  change (has_column "hum_gpt_recall" _) with true. cbv iota.
  read_column "hum_gpt_recall" 4%nat. cbn [bind ok rows].
  rewrite map_map.
  change (map (fun x : metrics_row => cell 4 _) records)
    with (map (fun r => metric_cell (hum_gpt_recall r)) records).
  unfold rounded2 at 1. rewrite astype_float_metric_cells. cbn [bind ok].
  write_column "hum_gpt_recall" 4%nat.
  cbn [columns rows replace_nth]. rewrite map_map, combine_map_map, map_map.
  cbn [replace_nth].
  change (has_column "n_eval" _) with true. cbv iota.
  unfold drop_column, select, indices_of, names. cbn [columns map cname].
  match goal with
  | |- context [map_m ?f (filter ?p ?l)] =>
      let H := fresh in
      assert (H : map_m f (filter p l) = ok [0; 1; 2; 3; 4]%nat) by reflexivity;
      rewrite H; clear H
  end.
  cbn [bind ok columns rows map nth]. rewrite map_map. unfold cell. cbn [nth].
  match goal with
  | |- context [filter ?p ?l] =>
      let H := fresh in
      assert (H : filter p l
                  = ["construct"; "freq_in_data"; "hum_gpt_kappa";
                     "hum_gpt_precision"; "hum_gpt_recall"]) by reflexivity;
      rewrite H; clear H
  end.
  cbv iota.
  match goal with
  | |- context [map_m ?f ?l] =>
      let H := fresh in
      assert (H : map_m f l = ok [0; 1; 2; 3; 4]%nat) by reflexivity;
      rewrite H; clear H
  end.
  cbn [bind ok columns rows map nth]. rewrite map_map. cbn [nth].
  reflexivity.
Qed.

(** X17. On the document of a non-empty list of records, the renderer
    succeeds exactly when every record carries a frequency whose
    hundredfold is a finite double (as every frequency between 0 and 1
    is): it then returns the five display columns with one row per
    record, in order, under the same construct; if one frequency is
    absent, or is not finite or overflows when multiplied by 100, it
    raises [ValueError]. *)
Theorem pretty_format_on_metrics_document (records : list metrics_row) :
  records <> [] ->
  if forallb finite_percentage records
  then exists out,
      pretty_format (metrics_document records) = ok out /\
      names out = ["construct"; "freq_in_data"; "hum_gpt_kappa";
                   "hum_gpt_precision"; "hum_gpt_recall"] /\
      length (rows out) = length records /\
      map (cell 0) (rows out) = map construct records
  else pretty_format (metrics_document records) = raise ValueError.
Proof.
  intros Hne. destruct records as [|r0 rs]; [congruence|].
  rewrite pretty_format_on_records.
  destruct (forallb finite_percentage (r0 :: rs)); [|reflexivity].
  eexists. split; [reflexivity|]. cbn [rows]. split; [reflexivity|].
  split; [apply length_map|].
  rewrite map_map. reflexivity.
Qed.

Lemma pretty_format_on_metrics_document_witness :
  exists out,
    pretty_format
      (metrics_document
         [mkMetrics (VStr "Comment") (Some (F64 (1 # 2))) (Some F64nan)
                    (Some (F64 1)) (Some (F64 (1 # 2))) 4;
          mkMetrics (VStr "Testing") (Some (F64 0)) (Some (F64 0))
                    (Some (F64 0)) (Some (F64 0)) 2]) = ok out /\
    names out = ["construct"; "freq_in_data"; "hum_gpt_kappa";
                 "hum_gpt_precision"; "hum_gpt_recall"] /\
    length (rows out) = 2%nat /\
    map (cell 0) (rows out) = [VStr "Comment"; VStr "Testing"].
Proof.
  exact (pretty_format_on_metrics_document
           [mkMetrics (VStr "Comment") (Some (F64 (1 # 2))) (Some F64nan)
                      (Some (F64 1)) (Some (F64 (1 # 2))) 4;
            mkMetrics (VStr "Testing") (Some (F64 0)) (Some (F64 0))
                      (Some (F64 0)) (Some (F64 0)) 2]
           ltac:(discriminate)).
Defined.

(** ** The construct resolver and the codebook *)

Lemma dict_get_set (k k' v : string) (d : list (string * string)) :
  dict_get k (dict_set k' v d) = if String.eqb k' k then Some v else dict_get k d.
Proof.
  induction d as [|[k0 v0] d IH]; cbn [dict_set dict_get].
  - reflexivity.
  - destruct (String.eqb k0 k') eqn:E0.
    + apply String.eqb_eq in E0. subst k0. cbn [dict_get].
      destruct (String.eqb k' k); reflexivity.
    + cbn [dict_get]. rewrite IH. destruct (String.eqb k0 k) eqn:E1; [|reflexivity].
      apply String.eqb_eq in E1. subst k0. rewrite String.eqb_sym, E0. reflexivity.
Qed.

Lemma find_append {A : Type} (p : A -> bool) (l l' : list A) :
  find p (l ++ l') = match find p l with
                     | Some x => Some x
                     | None => find p l'
                     end.
Proof.
  induction l as [|x l IH]; [reflexivity|].
  cbn [app find]. destruct (p x); [reflexivity | exact IH].
Qed.

Lemma dict_get_comprehension (key : string -> string) (k : string) (cols : list string) :
  forall d,
    dict_get k (fold_left (fun d c => dict_set (key c) c d) cols d)
    = match find_last (fun c => String.eqb (key c) k) cols with
      | Some c => Some c
      | None => dict_get k d
      end.
Proof.
  unfold find_last. induction cols as [|c cs IH]; intros d; [reflexivity|].
  cbn [fold_left rev]. rewrite IH, dict_get_set.
  rewrite find_append. destruct (find _ (rev cs)); [reflexivity|].
  cbn [find]. destruct (String.eqb (key c) k); reflexivity.
Qed.

Lemma dict_set_values (key : string -> string) (cols : list string) :
  forall d (k v : string),
    dict_get k (fold_left (fun d c => dict_set (key c) c d) cols d) = Some v ->
    In v cols \/ dict_get k d = Some v.
Proof.
  intros d k v. rewrite dict_get_comprehension. unfold find_last.
  destruct (find _ (rev cols)) as [c|] eqn:E; [|auto].
  intros [= <-]. left. apply find_some in E. destruct E as [E _].
  apply in_rev. exact E.
Qed.

Lemma dict_get_of_key (m : string) (d : list (string * string)) :
  In m (map fst d) -> exists c, dict_get m d = Some c.
Proof.
  induction d as [|[k v] d IH]; intros Hm; [destruct Hm|].
  cbn [dict_get]. destruct (String.eqb k m) eqn:Ek; [eexists; reflexivity|].
  apply IH. destruct Hm as [Hm | Hm]; [|exact Hm].
  cbn [fst] in Hm. subst k. rewrite String.eqb_refl in Ek. discriminate Ek.
Qed.

Lemma resolver_returns
  (get_close_matches : string -> list string -> nat -> Q -> list string)
  (construct_value : string) (cols : list string) :
  answers_candidates get_close_matches ->
  exists best,
    map_construct_to_coded_column get_close_matches construct_value cols = ok best.
Proof.
  intros Hgcm. unfold map_construct_to_coded_column. cbv zeta.
  destruct (String.eqb (canonical (Some construct_value)) EmptyString);
    [eexists; reflexivity|].
  destruct (dict_get (canonical (Some construct_value)) _); [eexists; reflexivity|].
  match goal with
  | |- context [get_close_matches ?w ?p ?n ?q] =>
      destruct (get_close_matches w p n q) as [|m ms] eqn:Eg; [eexists; reflexivity|];
      assert (Hm : In m p) by (apply (Hgcm w p n q); rewrite Eg; left; reflexivity)
  end.
  destruct (dict_get_of_key _ _ Hm) as [c Hc]. rewrite Hc. eexists. reflexivity.
Qed.

(** X18. The resolver answers with one of the candidate columns or with
    nothing, and with nothing when the construct has an empty canonical
    key.  When some candidate has the canonical key of the construct,
    the answer is the last such candidate and the fuzzy matcher is not
    consulted. *)
Theorem resolver_answers_candidates
  (get_close_matches : string -> list string -> nat -> Q -> list string)
  (construct_value : string) (cols : list string) :
  answers_candidates get_close_matches ->
  exists best,
    map_construct_to_coded_column get_close_matches construct_value cols = ok best /\
    match best with
    | Some c => In c cols
    | None => True
    end /\
    (canonical (Some construct_value) = EmptyString -> best = None) /\
    (canonical (Some construct_value) <> EmptyString ->
     forall c,
       find_last (fun c => String.eqb (canonical (Some c))
                                      (canonical (Some construct_value))) cols = Some c ->
       best = Some c).
Proof.
  intros Hgcm. unfold map_construct_to_coded_column. cbv zeta.
  destruct (String.eqb (canonical (Some construct_value)) EmptyString) eqn:E.
  - exists None. apply String.eqb_eq in E.
    split; [reflexivity|]. split; [exact I|].
    split; [reflexivity | intros H; congruence].
  - apply String.eqb_neq in E.
    pose proof (dict_get_comprehension (fun c => canonical (Some c))
                  (canonical (Some construct_value)) cols []) as Hexact.
    cbn [dict_get] in Hexact.
    remember (fold_left (fun d c => dict_set (canonical (Some c)) c d) cols [])
      as canon_map eqn:Hcm.
    assert (Hvals : forall k v, dict_get k canon_map = Some v -> In v cols).
    { intros k v H. rewrite Hcm in H.
      destruct (dict_set_values _ _ _ _ _ H) as [Hin | Hd];
        [exact Hin | discriminate Hd]. }
    destruct (dict_get (canonical (Some construct_value)) canon_map) as [c0|] eqn:E0.
    + exists (Some c0). split; [reflexivity|]. split; [exact (Hvals _ _ E0)|].
      split; [intros H; congruence|]. intros _ c Hc. rewrite Hc in Hexact. exact Hexact.
    + assert (Hnone : forall c,
                 find_last (fun c => String.eqb (canonical (Some c))
                                                (canonical (Some construct_value))) cols
                 = Some c -> False).
      { intros c Hc. rewrite Hc in Hexact. discriminate Hexact. }
      destruct (get_close_matches _ (map fst canon_map) 1%nat (72 # 100)) as [|m ms] eqn:Eg.
      * exists None. split; [reflexivity|]. split; [exact I|].
        split; [reflexivity|]. intros _ c Hc. destruct (Hnone c Hc).
      * assert (Hm : In m (map fst canon_map)).
        { apply (Hgcm (canonical (Some construct_value)) (map fst canon_map) 1%nat
                   (72 # 100)). rewrite Eg. left. reflexivity. }
        assert (Hget : exists c, dict_get m canon_map = Some c)
          by exact (dict_get_of_key _ _ Hm).
        destruct Hget as [c Hc]. rewrite Hc. exists (Some c).
        split; [reflexivity|]. split; [exact (Hvals _ _ Hc)|].
        split; [intros H; congruence|]. intros _ c' Hc'. destruct (Hnone c' Hc').
Qed.

Lemma resolver_answers_candidates_witness :
  exists best,
    map_construct_to_coded_column (fun _ _ _ _ => []) "variable usage and assignment"
      ["Comment"; "Variable Usage & Assignment"; "Variable usage AND assignment"]
    = ok best /\
    match best with
    | Some c => In c ["Comment"; "Variable Usage & Assignment";
                      "Variable usage AND assignment"]
    | None => True
    end /\
    (canonical (Some "variable usage and assignment") = EmptyString -> best = None) /\
    (canonical (Some "variable usage and assignment") <> EmptyString ->
     forall c,
       find_last (fun c => String.eqb (canonical (Some c))
                             (canonical (Some "variable usage and assignment")))
         ["Comment"; "Variable Usage & Assignment"; "Variable usage AND assignment"]
       = Some c ->
       best = Some c).
Proof.
  apply resolver_answers_candidates.
  intros w p n c m H. destruct H.
Defined.

(** X19. Every entry of the codebook is reached through its canonical
    key: a construct whose canonical key is that of a codebook name is
    given the definition of that name, whatever its spelling and
    whatever the fuzzy matcher would answer. *)
Theorem codebook_definition_by_canonical_key
  (get_close_matches : string -> list string -> nat -> Q -> list string)
  (construct_raw name definition : string) :
  In (name, definition) build_codebook ->
  canonical (Some construct_raw) = canonical (Some name) ->
  lookup_definition get_close_matches construct_raw = ok definition.
Proof.
  intros Hin Hkey. unfold lookup_definition, map_construct_to_coded_column. cbv zeta.
  rewrite Hkey. clear Hkey.
  unfold build_codebook in Hin. cbn [In] in Hin.
  repeat (destruct Hin as [Hin | Hin];
          [injection Hin as <- <-; vm_compute; reflexivity|]).
  destruct Hin.
Qed.

Lemma codebook_definition_by_canonical_key_witness :
  lookup_definition (fun _ _ _ _ => []) "  variable usage AND assignment "
  = ok "Student submission adds a new variable or deletes or modifies the value assignment of an already existing variable.".
Proof.
  apply (codebook_definition_by_canonical_key (fun _ _ _ _ => [])
           "  variable usage AND assignment " "Variable Usage & Assignment").
  - do 8 right. left. reflexivity.
  - reflexivity.
Defined.

(** ** The prediction loop *)

Lemma lookup_definition_returns
  (get_close_matches : string -> list string -> nat -> Q -> list string)
  (construct_raw : string) :
  answers_candidates get_close_matches ->
  exists d, lookup_definition get_close_matches construct_raw = ok d.
Proof.
  intros Hgcm. unfold lookup_definition. cbv zeta.
  destruct (resolver_returns get_close_matches construct_raw (map fst build_codebook) Hgcm)
    as [best Hbest].
  rewrite Hbest. cbn [bind ok]. eexists. reflexivity.
Qed.

Lemma predict_row_returns (float_repr : float64 -> string)
  (get_close_matches : string -> list string -> nat -> Q -> list string)
  (client : string -> pyresult (option string))
  (df : DataFrame) (construct_col text_col : string) (row : list value) :
  answers_candidates get_close_matches ->
  answers_every_prompt client ->
  has_column construct_col df = true ->
  has_column text_col df = true ->
  exists yhat warns,
    predict_row float_repr get_close_matches client df construct_col text_col row
    = ok (yhat, warns) /\ (yhat = 0 \/ yhat = 1).
Proof.
  intros Hgcm Hclient Hc Ht. unfold predict_row, row_get.
  destruct (index_of_present _ _ Hc) as [i [Hi _]].
  destruct (index_of_present _ _ Ht) as [j [Hj _]].
  rewrite Hi, Hj. cbn [bind ok]. cbv zeta.
  destruct (lookup_definition_returns get_close_matches
              (py_str float_repr (cell i row)) Hgcm) as [d Hd].
  rewrite Hd. cbn [bind ok]. unfold llm_predict_binary.
  match goal with
  | |- context [client ?p] => destruct (Hclient p) as [content Hcontent]; rewrite Hcontent
  end.
  cbn [bind ok].
  match goal with
  | |- context [parse_binary_label ?txt] =>
      pose proof (parse_binary_label_spec txt) as Hspec;
      destruct (parse_binary_label txt) as [label warns]
  end.
  exists label, warns. split; [reflexivity | exact (proj1 Hspec)].
Qed.

(** X20. With a client that answers every prompt, and the construct and
    text columns in the merged table, the prediction loop raises nothing
    and returns one label per merged row, each 0 or 1: the predictions
    have the length of the table they are attached to. *)
Theorem prediction_loop_labels_every_row (float_repr : float64 -> string)
  (get_close_matches : string -> list string -> nat -> Q -> list string)
  (client : string -> pyresult (option string))
  (merged : DataFrame) (construct_col text_col : string) :
  answers_candidates get_close_matches ->
  answers_every_prompt client ->
  has_column construct_col merged = true ->
  has_column text_col merged = true ->
  exists warns preds,
    main_predict float_repr get_close_matches client merged construct_col text_col
    = (warns, ok preds) /\
    length preds = length (rows merged) /\
    Forall (fun y => y = 0 \/ y = 1) preds.
Proof.
  intros Hgcm Hclient Hc Ht. unfold main_predict.
  assert (Hloop : forall rows_,
             exists warns preds,
               predict_rows float_repr get_close_matches client merged construct_col
                 text_col rows_ = (warns, ok preds) /\
               length preds = length rows_ /\
               Forall (fun y => y = 0 \/ y = 1) preds).
  { induction rows_ as [|row rest IH].
    - exists [], []. repeat split. constructor.
    - cbn [predict_rows].
      destruct (predict_row_returns float_repr get_close_matches client merged
                  construct_col text_col row Hgcm Hclient Hc Ht)
        as [yhat [w [Hrow Hbin]]].
      rewrite Hrow. unfold ok. destruct IH as [ws [ps [Hrest [Hlen Hall]]]].
      rewrite Hrest. cbn [bind ok].
      exists (w ++ ws)%list, (yhat :: ps). split; [reflexivity|].
      split; [cbn [length]; rewrite Hlen; reflexivity|].
      constructor; assumption. }
  destruct (Hloop (rows merged)) as [warns [preds [Hrun [Hlen Hall]]]].
  exists warns, preds. split; [exact Hrun|]. split; assumption.
Qed.

Lemma prediction_loop_labels_every_row_witness :
  exists warns preds,
    main_predict (fun _ => "nan") (fun _ _ _ _ => []) (fun _ => ok (Some "1"))
      raw_with_id "construct_name" "code_change_text"
    = (warns, ok preds) /\
    length preds = length (rows raw_with_id) /\
    Forall (fun y => y = 0 \/ y = 1) preds.
Proof.
  apply prediction_loop_labels_every_row.
  - intros w p n c m H. destruct H.
  - intros prompt. eexists. reflexivity.
  - reflexivity.
  - reflexivity.
Defined.

(** ** Step 3: the raw table gets its constructs *)

(** X22. When the raw table lacks the construct column, step 3 raises
    [KeyError] unless a non-empty identifier column of the raw table is
    supplied; with one, it returns the raw rows paired with every
    construct of the coded table, each pair with the canonical key of
    its construct, under the columns identifier, text, construct and
    canonical key. *)
Theorem main_expand_pairs_rows_with_constructs (float_repr : float64 -> string)
  (raw_df coded_df : DataFrame) (text_col construct_col : string) :
  has_column construct_col raw_df = false ->
  (forall id_col,
      truthy id_col && opt_in_columns id_col raw_df = false ->
      main_expand float_repr raw_df coded_df id_col text_col construct_col
      = raise (KeyError construct_col)) /\
  (forall idc,
      idc <> EmptyString ->
      has_column idc raw_df = true ->
      has_column text_col raw_df = true ->
      idc <> "_key" -> text_col <> "_key" -> construct_col <> "_key" ->
      idc <> "_construct_canon" -> text_col <> "_construct_canon" ->
      construct_col <> "_construct_canon" ->
      exists expanded,
        main_expand float_repr raw_df coded_df (Some idc) text_col construct_col
        = ok expanded /\
        names expanded = [idc; text_col; construct_col; "_construct_canon"] /\
        rows expanded
        = flat_map (fun r =>
                      map (fun c => [cell_of raw_df idc r; cell_of raw_df text_col r;
                                     VStr c; VStr (canonical (Some c))])
                          (get_construct_list_from_coded coded_df (Some idc)))
                   (rows raw_df)).
Proof.
  intros Habs. split.
  - intros id_col Hid. unfold main_expand. rewrite Habs. cbn [negb].
    destruct (truthy id_col), (opt_in_columns id_col raw_df);
      try discriminate Hid; reflexivity.
  - intros idc Hne Hid Htext Hik Htk Hck Hic Htc Hcc.
    assert (Hci : construct_col <> idc) by (intros ->; congruence).
    assert (Hct : construct_col <> text_col) by (intros ->; congruence).
    destruct (expand_frame raw_df (get_construct_list_from_coded coded_df (Some idc))
                idc text_col construct_col Hid Htext Hik Htk Hck Hci Hct)
      as [d1 [d2 Hframe]].
    unfold main_expand. rewrite Habs. cbn [negb truthy opt_in_columns].
    rewrite (proj2 (String.eqb_neq idc EmptyString) Hne), Hid. cbn [negb orb].
    cbv zeta. rewrite Hframe. cbn [bind ok].
    assert (Eci : String.eqb construct_col idc = false) by (apply String.eqb_neq; exact Hci).
    assert (Ect : String.eqb construct_col text_col = false)
      by (apply String.eqb_neq; exact Hct).
    assert (Eki : String.eqb "_construct_canon" idc = false)
      by (apply String.eqb_neq; congruence).
    assert (Ekt : String.eqb "_construct_canon" text_col = false)
      by (apply String.eqb_neq; congruence).
    assert (Ekc : String.eqb "_construct_canon" construct_col = false)
      by (apply String.eqb_neq; congruence).
    match goal with
    | |- context [column_values ?df construct_col] =>
        rewrite (column_values_at df construct_col 2)
    end.
    2: { unfold names. cbn [columns map cname index_of].
         rewrite Eci, Ect, String.eqb_refl. reflexivity. }
    cbn [bind ok rows].
    match goal with
    | |- context [set_column ?df "_construct_canon" ?d ?vals] =>
        rewrite (set_column_new df "_construct_canon" d vals)
    end.
    2: { unfold names. cbn [columns map cname index_of].
         rewrite Eki, Ekt, Ekc. reflexivity. }
    eexists. split; [reflexivity|]. cbn [columns rows]. split; [reflexivity|].
    rewrite map_map.
    rewrite (map_combine_self (fun r v => (r ++ [v])%list)
               (fun r => VStr (canonical match cell 2 r with
                                         | VNone => None
                                         | _ => Some (py_str float_repr (cell 2 r))
                                         end))).
    rewrite map_flat_map_blocks. apply flat_map_ext. intros r.
    rewrite map_map. reflexivity.
Qed.

Lemma main_expand_pairs_rows_with_constructs_witness :
  (forall id_col,
      truthy id_col && opt_in_columns id_col raw_without_construct = false ->
      main_expand (fun _ => "nan") raw_without_construct coded_wide id_col
        "code_change_text" "construct_name"
      = raise (KeyError "construct_name")) /\
  (forall idc,
      idc <> EmptyString ->
      has_column idc raw_without_construct = true ->
      has_column "code_change_text" raw_without_construct = true ->
      idc <> "_key" -> "code_change_text" <> "_key" -> "construct_name" <> "_key" ->
      idc <> "_construct_canon" -> "code_change_text" <> "_construct_canon" ->
      "construct_name" <> "_construct_canon" ->
      exists expanded,
        main_expand (fun _ => "nan") raw_without_construct coded_wide (Some idc)
          "code_change_text" "construct_name"
        = ok expanded /\
        names expanded = [idc; "code_change_text"; "construct_name"; "_construct_canon"] /\
        rows expanded
        = flat_map (fun r =>
                      map (fun c => [cell_of raw_without_construct idc r;
                                     cell_of raw_without_construct "code_change_text" r;
                                     VStr c; VStr (canonical (Some c))])
                          (get_construct_list_from_coded coded_wide (Some idc)))
                   (rows raw_without_construct)).
Proof.
  apply (main_expand_pairs_rows_with_constructs (fun _ => "nan") raw_without_construct
           coded_wide "code_change_text" "construct_name").
  reflexivity.
Defined.

(** ** An empty merged table *)

(** X23. On a merged table without rows that has the label and the
    construct column, the prediction loop returns no prediction and no
    warning, and the evaluation then raises [KeyError] for [construct]:
    the table of records is built from no record and has no column to
    sort by. *)
Theorem empty_merged_table_cannot_be_evaluated (float_repr : float64 -> string)
  (get_close_matches : string -> list string -> nat -> Q -> list string)
  (client : string -> pyresult (option string))
  (merged : DataFrame) (construct_col text_col : string) :
  rows merged = [] ->
  has_column "human_label" merged = true ->
  has_column construct_col merged = true ->
  main_predict float_repr get_close_matches client merged construct_col text_col
  = ([], ok []) /\
  main_evaluate merged construct_col [] = raise (KeyError "construct").
Proof.
  intros Hrows Hlabel Hcons. split.
  - unfold main_predict. rewrite Hrows. reflexivity.
  - unfold main_evaluate. rewrite Hrows. cbn [length Nat.eqb negb map].
    set (merged' := set_column merged "gpt_pred" dt_int64 []).
    assert (Hrows' : rows merged' = []).
    { unfold merged', set_column. rewrite Hrows.
      destruct (index_of "gpt_pred" (names merged)); reflexivity. }
    assert (Hl : has_column "human_label" merged' = true)
      by (apply has_column_set_column_other; exact Hlabel).
    assert (Hc : has_column construct_col merged' = true)
      by (apply has_column_set_column_other; exact Hcons).
    assert (Hg : has_column "gpt_pred" merged' = true)
      by apply has_column_set_column_same.
    rewrite (column_values_cell_of _ _ Hl), (column_values_cell_of _ _ Hg), Hrows'.
    cbn [map combine bind ok]. unfold overall_kappa. cbn [filter length Z.of_nat].
    change (0 =? 0) with true. cbv iota. cbn [bind ok].
    unfold groupby. destruct (index_of_present _ _ Hc) as [i [Hi _]]. rewrite Hi, Hrows'.
    cbn [map filter fold_right bind ok].
    destruct (indices_of_present ["human_label"; "gpt_pred"] merged') as [at_ [Hat _]].
    { repeat constructor; assumption. }
    rewrite Hat. cbn [bind ok map_m]. reflexivity.
Qed.

Lemma empty_merged_table_cannot_be_evaluated_witness :
  main_predict (fun _ => "nan") (fun _ _ _ _ => []) (fun _ => ok (Some "1"))
    (mkDF [mkColumn "code_change_text" dt_object; mkColumn "construct_name" dt_object;
           mkColumn "human_label" dt_float64] [])
    "construct_name" "code_change_text"
  = ([], ok []) /\
  main_evaluate
    (mkDF [mkColumn "code_change_text" dt_object; mkColumn "construct_name" dt_object;
           mkColumn "human_label" dt_float64] [])
    "construct_name" []
  = raise (KeyError "construct").
Proof.
  apply empty_merged_table_cannot_be_evaluated; reflexivity.
Defined.

(** * The text rule of the column coercion *)

(** ** The column the text rule selects *)













(** A first object column without any value has a NaN average, which
    no other average exceeds: [max] keeps it, and the text rule renames
    it although another object column holds text. *)
Example text_choice_keeps_all_missing_first_column :
  text_choice (fun _ => "nan") raw_with_empty_remarks "remarks" /\
  coerce_raw_columns (fun _ => "nan") (fun _ _ _ _ => []) raw_with_empty_remarks None
    "code_change_text" "construct_name"
  = ok (mkDF [mkColumn "code_change_text" dt_object; mkColumn "snippet" dt_object;
              mkColumn "score" dt_int64]
             [[VFloat F64nan; VStr "changed the loop bound"; VInt 3];
              [VFloat F64nan; VStr "x = 1"; VInt 1]]).
Proof.
  split; [|vm_compute; reflexivity].
  unfold text_choice.
  change (object_columns raw_with_empty_remarks) with ["remarks"; "snippet"].
  split; [left; reflexivity|]. split; [|vm_compute; reflexivity].
  intros c [<- | [<- | []]]; vm_compute; reflexivity.
Qed.
